(** * Match statistics of pkg/storage/stats.go

    A shallow embedding of the single-match reducer
    [StatsFromGameAndEvents] and of the paired-relationship queries
    [BestTeammateByRole] / [WorstTeammateByRole], followed by the
    properties of the design document that concern them.

    Conventions.
    - A Go pointer that may be nil is an [option]; dereferencing nil is
      the outcome [Panic] of the [result] monad below.
    - Fixed-width integers are [Z] values; where the source does
      arithmetic on them the wrap-around is written out with [wrap].
    - [json.Unmarshal] belongs to the Go standard library.  It is a
      parameter of the reducer: a function from the payload to the decoded
      [game.Player], or [None] when decoding reports an error. *)

From Stdlib Require Import ZArith List Ascii String Bool Lia Permutation Sorted.
From Stdlib Require Import QArith Lqa.
From Stdlib Require Decimal DecimalString DecimalPos DecimalZ.
Import ListNotations.
Local Open Scope string_scope.
Local Open Scope list_scope.
Local Open Scope Z_scope.

(** ** Outcomes of a Go call *)

Inductive result (A : Type) : Type :=
| Ok (a : A)
| Panic.

Arguments Ok {A} a.
Arguments Panic {A}.

Definition bind {A B : Type} (r : result A) (k : A -> result B) : result B :=
  match r with
  | Ok a => k a
  | Panic => Panic
  end.

Notation "x <- r ;; k" := (bind r (fun x => k))
  (at level 61, r at next level, right associativity).

(** Dereference of a pointer. *)
Definition deref {A : Type} (p : option A) : result A :=
  match p with
  | Some a => Ok a
  | None => Panic
  end.

(** ** Machine integers *)

(** The value of a two's-complement integer of [w] bits that is congruent
    to [x]. *)
Definition wrap (w x : Z) : Z :=
  (x + 2 ^ (w - 1)) mod 2 ^ w - 2 ^ (w - 1).

(** [x] is a value of the signed type of [w] bits. *)
Definition fits (w x : Z) : Prop :=
  - 2 ^ (w - 1) <= x < 2 ^ (w - 1).

(** ** Package game *)

Module game.

(** Modelled from the spec: the enumerations of package [game] are not
    among the sources at hand.  A win condition is a small integer code;
    the design document fixes 0, 1 and 6 as the crewmate wins, 2, 3, 4
    and 5 as the imposter wins, and [Unknown] as the eighth value, next
    to the known range 0..6.  Only the constants the reducer names are
    given; which imposter win carries which of the codes 2..5 plays no
    part below. *)
Definition GameResult := Z.

Definition ImpostorByVote : GameResult := 2.
Definition ImpostorByKill : GameResult := 3.
Definition ImpostorBySabotage : GameResult := 4.
Definition ImpostorDisconnect : GameResult := 5.
Definition Unknown : GameResult := 7.

Inductive GameRole : Type :=
| CrewmateRole
| ImposterRole.

(** Modelled from the spec: the two phase codes the reducer prints into
    [DiscussCode] and [TasksCode]; only that they differ matters below. *)
Definition Phase := Z.
Definition TASKS : Phase := 1.
Definition DISCUSS : Phase := 2.

(** Modelled from the spec: the player actions the reducer dispatches
    on; only that they are pairwise different matters below. *)
Definition PlayerAction := Z.
Definition DIED : PlayerAction := 2.
Definition DISCONNECTED : PlayerAction := 5.
Definition EXILED : PlayerAction := 6.

(** The decoded action record; the reducer reads [Action] and [Name]. *)
Record Player : Type := mkPlayer {
  Action : PlayerAction;
  Name : string;
  Color : Z;
  IsDead : bool;
  Disconnected : bool
}.

End game.

(** ** Package capture *)

Module capture.

(** Modelled from the spec: the two event kinds the reducer tests for;
    only that they differ matters below. *)
Definition EventType := Z.
Definition State : EventType := 2.
Definition Player : EventType := 3.

End capture.

(** ** Rows of the store *)

(** Modelled from the spec: the row types are declared in types.go, which
    is not among the sources at hand.  The design document gives the
    timestamps as integer seconds; their width is taken as 32 bits, the
    width of the store's integer columns: the reducer widens them with
    [int64(...)] before [time.Unix], and the package's test assigns an
    [int32] to the Unix time of a guild row.  The win condition and the
    event kind are 16-bit codes (the reducer compares the latter with
    [int16(capture.State)]). *)
Definition timeBits : Z := 32.

Module PostgresGame.
Record t : Type := mk {
  GameID : Z;
  GuildID : Z;
  ConnectCode : string;
  StartTime : Z;
  WinType : Z;
  EndTime : Z
}.
End PostgresGame.

Module PostgresGameEvent.
Record t : Type := mk {
  EventID : Z;
  UserID : option Z;
  GameID : Z;
  EventTime : Z;
  EventType : Z;
  Payload : string
}.
End PostgresGameEvent.

Module PostgresUserGame.
Record t : Type := mk {
  UserID : Z;
  GuildID : Z;
  GameID : Z;
  PlayerName : string;
  PlayerColor : Z;
  PlayerRole : Z;
  PlayerWon : bool
}.
End PostgresUserGame.

(** ** Statistics of one match *)

(** [fmt.Sprintf("%d", game.DISCUSS)] and [fmt.Sprintf("%d", game.TASKS)]. *)
Definition DiscussCode : string := "2".
Definition TasksCode : string := "1".

Inductive SimpleEventType : Type :=
| Tasks
| Discuss
| PlayerDeath
| PlayerDisconnect
| PlayerExiled.

(** [EventTimeOffset] is a [time.Duration]: nanoseconds in 64 bits. *)
Record SimpleEvent : Type := mkSimpleEvent {
  EventType : SimpleEventType;
  EventTimeOffset : Z;
  Data : string
}.

(** A [time.Time] as the reducer builds it: the zero value [time.Time{}]
    or [time.Unix(sec, 0)]. *)
Inductive Time : Type :=
| TimeZero
| TimeUnix (sec : Z).

Record GameStatistics : Type := mkGameStatistics {
  GameStartTime : Time;
  GameEndTime : Time;
  GameDuration : Z;
  WinType : game.GameResult;
  WinRole : game.GameRole;
  WinPlayerNames : list string;
  LosePlayerNames : list string;
  NumMeetings : Z;
  NumDeaths : Z;
  NumVotedOff : Z;
  NumDisconnects : Z;
  Events : list SimpleEvent
}.

(** [time.Second], in nanoseconds. *)
Definition Second : Z := 1000000000.

(** [time.Second * time.Duration(a - b)] for two 32-bit timestamps: the
    difference is taken in 32 bits, widened, and multiplied in 64 bits. *)
Definition seconds_between (a b : Z) : Z :=
  wrap 64 (Second * wrap timeBits (a - b)).

(** Field updates of the statistics under construction. *)
Definition set_game (g : PostgresGame.t) (s : GameStatistics) : GameStatistics :=
  mkGameStatistics
    (TimeUnix (PostgresGame.StartTime g))
    (TimeUnix (PostgresGame.EndTime g))
    (seconds_between (PostgresGame.EndTime g) (PostgresGame.StartTime g))
    (PostgresGame.WinType g)
    (WinRole s) (WinPlayerNames s) (LosePlayerNames s)
    (NumMeetings s) (NumDeaths s) (NumVotedOff s) (NumDisconnects s) (Events s).

Definition set_WinRole (r : game.GameRole) (s : GameStatistics) : GameStatistics :=
  mkGameStatistics (GameStartTime s) (GameEndTime s) (GameDuration s) (WinType s)
    r (WinPlayerNames s) (LosePlayerNames s)
    (NumMeetings s) (NumDeaths s) (NumVotedOff s) (NumDisconnects s) (Events s).

Definition add_winner (n : string) (s : GameStatistics) : GameStatistics :=
  mkGameStatistics (GameStartTime s) (GameEndTime s) (GameDuration s) (WinType s)
    (WinRole s) (WinPlayerNames s ++ [n]) (LosePlayerNames s)
    (NumMeetings s) (NumDeaths s) (NumVotedOff s) (NumDisconnects s) (Events s).

Definition add_loser (n : string) (s : GameStatistics) : GameStatistics :=
  mkGameStatistics (GameStartTime s) (GameEndTime s) (GameDuration s) (WinType s)
    (WinRole s) (WinPlayerNames s) (LosePlayerNames s ++ [n])
    (NumMeetings s) (NumDeaths s) (NumVotedOff s) (NumDisconnects s) (Events s).

Definition incr_NumMeetings (s : GameStatistics) : GameStatistics :=
  mkGameStatistics (GameStartTime s) (GameEndTime s) (GameDuration s) (WinType s)
    (WinRole s) (WinPlayerNames s) (LosePlayerNames s)
    (NumMeetings s + 1) (NumDeaths s) (NumVotedOff s) (NumDisconnects s) (Events s).

Definition incr_NumDeaths (s : GameStatistics) : GameStatistics :=
  mkGameStatistics (GameStartTime s) (GameEndTime s) (GameDuration s) (WinType s)
    (WinRole s) (WinPlayerNames s) (LosePlayerNames s)
    (NumMeetings s) (NumDeaths s + 1) (NumVotedOff s) (NumDisconnects s) (Events s).

Definition incr_NumVotedOff (s : GameStatistics) : GameStatistics :=
  mkGameStatistics (GameStartTime s) (GameEndTime s) (GameDuration s) (WinType s)
    (WinRole s) (WinPlayerNames s) (LosePlayerNames s)
    (NumMeetings s) (NumDeaths s) (NumVotedOff s + 1) (NumDisconnects s) (Events s).

Definition incr_NumDisconnects (s : GameStatistics) : GameStatistics :=
  mkGameStatistics (GameStartTime s) (GameEndTime s) (GameDuration s) (WinType s)
    (WinRole s) (WinPlayerNames s) (LosePlayerNames s)
    (NumMeetings s) (NumDeaths s) (NumVotedOff s) (NumDisconnects s + 1) (Events s).

Definition append_event (e : SimpleEvent) (s : GameStatistics) : GameStatistics :=
  mkGameStatistics (GameStartTime s) (GameEndTime s) (GameDuration s) (WinType s)
    (WinRole s) (WinPlayerNames s) (LosePlayerNames s)
    (NumMeetings s) (NumDeaths s) (NumVotedOff s) (NumDisconnects s) (Events s ++ [e]).

(** ** The reducer *)

Section Reducer.

(** [json.Unmarshal([]byte(payload), &player)]: the decoded record, or
    [None] when the call returns an error. *)
Variable json_Unmarshal : string -> option game.Player.

(** The value of [stats] after its composite literal. *)
Definition stats_init : GameStatistics :=
  mkGameStatistics TimeZero TimeZero 0 game.Unknown game.CrewmateRole
    [] [] 0 0 0 0 [].

(** [if pgame != nil { ... }] *)
Definition stats_of_game (pgame : option PostgresGame.t) (s : GameStatistics)
  : GameStatistics :=
  match pgame with
  | Some g => set_game g s
  | None => s
  end.

(** The test on [stats.WinType] that selects the imposter role. *)
Definition impostor_win (w : game.GameResult) : bool :=
  (w =? game.ImpostorDisconnect) || (w =? game.ImpostorBySabotage)
  || (w =? game.ImpostorByVote) || (w =? game.ImpostorByKill).

Definition stats_win_role (s : GameStatistics) : GameStatistics :=
  if impostor_win (WinType s) then set_WinRole game.ImposterRole s else s.

(** Body of [for _, v := range users]. *)
Definition user_step (s : GameStatistics) (v : option PostgresUserGame.t)
  : result GameStatistics :=
  u <- deref v ;;
  if PostgresUserGame.PlayerWon u
  then Ok (add_winner (PostgresUserGame.PlayerName u) s)
  else Ok (add_loser (PostgresUserGame.PlayerName u) s).

Fixpoint users_loop (s : GameStatistics) (users : list (option PostgresUserGame.t))
  : result GameStatistics :=
  match users with
  | [] => Ok s
  | v :: rest => s' <- user_step s v ;; users_loop s' rest
  end.

(** [time.Second * time.Duration(v.EventTime - pgame.StartTime)];
    [pgame] is dereferenced here. *)
Definition event_offset (pgame : option PostgresGame.t) (v : PostgresGameEvent.t)
  : result Z :=
  g <- deref pgame ;;
  Ok (seconds_between (PostgresGameEvent.EventTime v) (PostgresGame.StartTime g)).

(** The inner loop of the [DIED] case:
    [for _, n := range exiledPlayerNames { if n == player.Name { isExiled = true } }]. *)
Definition isExiled (exiledPlayerNames : list string) (name : string) : bool :=
  fold_left (fun (b : bool) (n : string) => if String.eqb n name then true else b)
    exiledPlayerNames false.

(** The state of the event loop: the statistics and [exiledPlayerNames]. *)
Definition loop_state : Type := (GameStatistics * list string)%type.

(** Body of [for _, v := range events].  The counters are Go [int]s
    that start at zero and grow by at most one per element of a slice,
    whose length is itself an [int]: they cannot wrap. *)
Definition event_step (pgame : option PostgresGame.t) (st : loop_state)
  (ev : option PostgresGameEvent.t) : result loop_state :=
  let '(stats, exiledPlayerNames) := st in
  v <- deref ev ;;
  if PostgresGameEvent.EventType v =? capture.State then
    if String.eqb (PostgresGameEvent.Payload v) DiscussCode then
      let stats := incr_NumMeetings stats in
      off <- event_offset pgame v ;;
      Ok (append_event (mkSimpleEvent Discuss off "") stats, exiledPlayerNames)
    else if String.eqb (PostgresGameEvent.Payload v) TasksCode then
      off <- event_offset pgame v ;;
      Ok (append_event (mkSimpleEvent Tasks off "") stats, exiledPlayerNames)
    else Ok (stats, exiledPlayerNames)
  else if PostgresGameEvent.EventType v =? capture.Player then
    match json_Unmarshal (PostgresGameEvent.Payload v) with
    | None => Ok (stats, exiledPlayerNames)
    | Some player =>
        if game.Action player =? game.DIED then
          let stats := incr_NumDeaths stats in
          if isExiled exiledPlayerNames (game.Name player)
          then Ok (stats, exiledPlayerNames)
          else
            off <- event_offset pgame v ;;
            Ok (append_event
                  (mkSimpleEvent PlayerDeath off (PostgresGameEvent.Payload v)) stats,
                exiledPlayerNames)
        else if game.Action player =? game.EXILED then
          let stats := incr_NumVotedOff stats in
          let exiledPlayerNames := exiledPlayerNames ++ [game.Name player] in
          off <- event_offset pgame v ;;
          Ok (append_event
                (mkSimpleEvent PlayerExiled off (PostgresGameEvent.Payload v)) stats,
              exiledPlayerNames)
        else if game.Action player =? game.DISCONNECTED then
          let stats := incr_NumDisconnects stats in
          off <- event_offset pgame v ;;
          Ok (append_event
                (mkSimpleEvent PlayerDisconnect off (PostgresGameEvent.Payload v)) stats,
              exiledPlayerNames)
        else Ok (stats, exiledPlayerNames)
    end
  else Ok (stats, exiledPlayerNames).

Fixpoint events_loop (pgame : option PostgresGame.t) (st : loop_state)
  (events : list (option PostgresGameEvent.t)) : result loop_state :=
  match events with
  | [] => Ok st
  | ev :: rest => st' <- event_step pgame st ev ;; events_loop pgame st' rest
  end.

Definition StatsFromGameAndEvents (pgame : option PostgresGame.t)
  (events : list (option PostgresGameEvent.t))
  (users : list (option PostgresUserGame.t)) : result GameStatistics :=
  let stats := stats_init in
  let stats := stats_of_game pgame stats in
  let stats := stats_win_role stats in
  stats <- users_loop stats users ;;
  if (Z.of_nat (List.length events) <? 2) then Ok stats
  else
    st <- events_loop pgame (stats, []) events ;;
    Ok (fst st).

End Reducer.

(** ** Reading an event the way the loop body does *)

Section Reading.

Variable json_Unmarshal : string -> option game.Player.

(** The decoded record of a player-action event whose payload decodes. *)
Definition parsed_action (e : PostgresGameEvent.t) : option game.Player :=
  if PostgresGameEvent.EventType e =? capture.Player
  then json_Unmarshal (PostgresGameEvent.Payload e)
  else None.

Definition name_with_action (a : game.PlayerAction) (e : PostgresGameEvent.t)
  : option string :=
  match parsed_action e with
  | Some p => if game.Action p =? a then Some (game.Name p) else None
  | None => None
  end.

Definition died_name := name_with_action game.DIED.
Definition exiled_name := name_with_action game.EXILED.
Definition disconnected_name := name_with_action game.DISCONNECTED.

Definition is_some {A : Type} (o : option A) : bool :=
  match o with Some _ => true | None => false end.

(** Number of player-action events that decode with action [DIED]. *)
Definition count_died (evs : list PostgresGameEvent.t) : nat :=
  List.length (filter (fun e => is_some (died_name e)) evs).

(** A phase-state event carrying the given code. *)
Definition is_phase (code : string) (e : PostgresGameEvent.t) : bool :=
  (PostgresGameEvent.EventType e =? capture.State)
  && String.eqb (PostgresGameEvent.Payload e) code.

Definition count_discuss (evs : list PostgresGameEvent.t) : nat :=
  List.length (filter (is_phase DiscussCode) evs).

(** Names of the events that decode with action [EXILED], in order. *)
Fixpoint exiled_names (evs : list PostgresGameEvent.t) : list string :=
  match evs with
  | [] => []
  | e :: rest =>
      match exiled_name e with
      | Some n => n :: exiled_names rest
      | None => exiled_names rest
      end
  end.

End Reading.

(** Number of timeline entries of a kind. *)
Definition same_kind (a b : SimpleEventType) : bool :=
  match a, b with
  | Tasks, Tasks | Discuss, Discuss | PlayerDeath, PlayerDeath
  | PlayerDisconnect, PlayerDisconnect | PlayerExiled, PlayerExiled => true
  | _, _ => false
  end.

Definition count_kind (k : SimpleEventType) (tl : list SimpleEvent) : nat :=
  List.length (filter (fun se => same_kind (EventType se) k) tl).

(** Winner and loser names of a list of outcome records, by win flag. *)
Definition winners (us : list PostgresUserGame.t) : list string :=
  map PostgresUserGame.PlayerName (filter PostgresUserGame.PlayerWon us).

Definition losers (us : list PostgresUserGame.t) : list string :=
  map PostgresUserGame.PlayerName
    (filter (fun u => negb (PostgresUserGame.PlayerWon u)) us).

(** [src] is [l] with some elements left out, order kept. *)
Inductive subseq {A : Type} : list A -> list A -> Prop :=
| subseq_nil : subseq [] []
| subseq_skip : forall x src l, subseq src l -> subseq src (x :: l)
| subseq_take : forall x src l, subseq src l -> subseq (x :: src) (x :: l).

(** The reducer stopped after the events [evs]: the loop state reached
    from the statistics built before the event loop. *)
Definition state_after (json_Unmarshal : string -> option game.Player)
  (g : PostgresGame.t) (us : list PostgresUserGame.t)
  (evs : list PostgresGameEvent.t) : result loop_state :=
  s0 <- users_loop (stats_win_role (stats_of_game (Some g) stats_init)) (map Some us) ;;
  events_loop json_Unmarshal (Some g) (s0, []) (map Some evs).

(** ** A decoder and rows for the examples *)

Module Sample.

(** A stand-in for the JSON decoder: the first character is the action
    ([D]ied, [X] exiled, [Q] disconnected, [J]oined), the rest is the
    player name; any other payload fails to decode. *)
Definition decode (s : string) : option game.Player :=
  match s with
  | String "D"%char n => Some (game.mkPlayer game.DIED n 0 true false)
  | String "X"%char n => Some (game.mkPlayer game.EXILED n 0 true false)
  | String "Q"%char n => Some (game.mkPlayer game.DISCONNECTED n 0 false true)
  | String "J"%char n => Some (game.mkPlayer 0 n 0 false false)
  | _ => None
  end.

Definition match1 : PostgresGame.t := PostgresGame.mk 7 1 "ABCD" 1000 1 1100.

Definition state_at (t : Z) (code : string) : PostgresGameEvent.t :=
  PostgresGameEvent.mk 0 None 7 t capture.State code.

Definition action_at (t : Z) (payload : string) : PostgresGameEvent.t :=
  PostgresGameEvent.mk 0 (Some 5) 7 t capture.Player payload.

Definition outcome (n : string) (won : bool) : PostgresUserGame.t :=
  PostgresUserGame.mk 5 1 7 n 0 0 won.

End Sample.


(** ** What one pass of the event loop does *)

(** The timeline entry an event gives rise to, when it gives one: the
    offset computed by the loop body, and the payload for the player
    entries. *)
Definition entry_of (g : PostgresGame.t) (k : SimpleEventType)
  (e : PostgresGameEvent.t) : SimpleEvent :=
  mkSimpleEvent k
    (seconds_between (PostgresGameEvent.EventTime e) (PostgresGame.StartTime g))
    (match k with
     | Tasks | Discuss => ""
     | _ => PostgresGameEvent.Payload e
     end).

(** The loop state after one pass, by the kind of the event. *)
Inductive pass (json_Unmarshal : string -> option game.Player) (g : PostgresGame.t)
  (s : GameStatistics) (ex : list string) (e : PostgresGameEvent.t)
  : loop_state -> Prop :=
| pass_discuss :
    is_phase DiscussCode e = true ->
    pass json_Unmarshal g s ex e
      (append_event (entry_of g Discuss e) (incr_NumMeetings s), ex)
| pass_tasks :
    is_phase DiscussCode e = false ->
    is_phase TasksCode e = true ->
    pass json_Unmarshal g s ex e (append_event (entry_of g Tasks e) s, ex)
| pass_died_off : forall n,
    is_phase DiscussCode e = false ->
    died_name json_Unmarshal e = Some n -> In n ex ->
    pass json_Unmarshal g s ex e (incr_NumDeaths s, ex)
| pass_died_on : forall n,
    is_phase DiscussCode e = false ->
    died_name json_Unmarshal e = Some n -> ~ In n ex ->
    pass json_Unmarshal g s ex e
      (append_event (entry_of g PlayerDeath e) (incr_NumDeaths s), ex)
| pass_exiled : forall n,
    is_phase DiscussCode e = false ->
    died_name json_Unmarshal e = None ->
    exiled_name json_Unmarshal e = Some n ->
    pass json_Unmarshal g s ex e
      (append_event (entry_of g PlayerExiled e) (incr_NumVotedOff s), ex ++ [n])
| pass_disconnected : forall n,
    is_phase DiscussCode e = false ->
    died_name json_Unmarshal e = None ->
    exiled_name json_Unmarshal e = None ->
    disconnected_name json_Unmarshal e = Some n ->
    pass json_Unmarshal g s ex e
      (append_event (entry_of g PlayerDisconnect e) (incr_NumDisconnects s), ex)
| pass_ignored :
    is_phase DiscussCode e = false ->
    is_phase TasksCode e = false ->
    died_name json_Unmarshal e = None ->
    exiled_name json_Unmarshal e = None ->
    disconnected_name json_Unmarshal e = None ->
    pass json_Unmarshal g s ex e (s, ex).

(** The fields a pass of the event loop never writes. *)
Definition same_header (s s' : GameStatistics) : Prop :=
  GameStartTime s' = GameStartTime s /\ GameEndTime s' = GameEndTime s
  /\ GameDuration s' = GameDuration s
  /\ WinType s' = WinType s /\ WinRole s' = WinRole s
  /\ WinPlayerNames s' = WinPlayerNames s
  /\ LosePlayerNames s' = LosePlayerNames s.


(** The entries one pass appends: none, or one entry of the event. *)
Inductive appended (json_Unmarshal : string -> option game.Player)
  (g : PostgresGame.t) (s : GameStatistics) (e : PostgresGameEvent.t)
  (s' : GameStatistics) : Prop :=
| appended_none :
    Events s' = Events s -> appended json_Unmarshal g s e s'
| appended_one : forall k,
    Events s' = Events s ++ [entry_of g k e] ->
    (k = PlayerDeath -> is_some (died_name json_Unmarshal e) = true) ->
    appended json_Unmarshal g s e s'.


(** The entries of a stretch of timeline, each with the event it comes
    from. *)
Definition entries_of (g : PostgresGame.t) (tl : list SimpleEvent) (src : list PostgresGameEvent.t) : Prop :=
  Forall2 (fun se e => exists k, se = entry_of g k e) tl src.


(** An event of a kind for which the loop body appends to the timeline
    (a death, only when the player is not yet among the exiled). *)
Definition timeline_event (json_Unmarshal : string -> option game.Player)
  (e : PostgresGameEvent.t) : bool :=
  is_phase DiscussCode e || is_phase TasksCode e
  || is_some (died_name json_Unmarshal e)
  || is_some (exiled_name json_Unmarshal e)
  || is_some (disconnected_name json_Unmarshal e).

(** ** The teammate rankings *)

(** Modelled from the spec: the row types of the two rankings are
    declared in types.go, which is not among the sources at hand; their
    fields are the columns the queries select. *)
Module PostgresBestTeammatePlayerRanking.
Record t : Type := mk {
  UserID : Z;
  TeammateID : Z;
  Total : Z;
  Win : Z;
  WinRate : Q
}.
End PostgresBestTeammatePlayerRanking.

Module PostgresWorstTeammatePlayerRanking.
Record t : Type := mk {
  UserID : Z;
  TeammateID : Z;
  Total : Z;
  Loose : Z;
  LooseRate : Q
}.
End PostgresWorstTeammatePlayerRanking.

(** A row of either ranking before it is scanned into its struct:
    [user_id], [teammate_id], [total], the filtered count ([win] or
    [loose]) and the rate. *)
Record pair_row : Type := mk_pair_row {
  pr_user : Z;
  pr_teammate : Z;
  pr_total : Z;
  pr_count : Z;
  pr_rate : Q
}.

(** [ORDER BY rate DESC, count DESC, total DESC]: whether [a] may stand
    before [b]. *)
Definition order_by_desc (a b : pair_row) : bool :=
  match (pr_rate b ?= pr_rate a)%Q with
  | Lt => true
  | Gt => false
  | Eq =>
      match pr_count b ?= pr_count a with
      | Lt => true
      | Gt => false
      | Eq => pr_total b <=? pr_total a
      end
  end.

Fixpoint insert_row (r : pair_row) (l : list pair_row) : list pair_row :=
  match l with
  | [] => [r]
  | x :: rest => if order_by_desc r x then r :: l else x :: insert_row r rest
  end.

Fixpoint sort_rows (l : list pair_row) : list pair_row :=
  match l with
  | [] => []
  | r :: rest => insert_row r (sort_rows rest)
  end.

(** The order the claim describes, between a row and a later one: a
    higher rate; or the same rate and a higher count; or the same rate and
    count and a total at least as high. *)
Definition ranked_before (a b : pair_row) : Prop :=
  (pr_rate b < pr_rate a)%Q
  \/ ((pr_rate b == pr_rate a)%Q
      /\ (pr_count b < pr_count a
          \/ (pr_count b = pr_count a /\ pr_total b <= pr_total a))).

Section Rankings.

(** The server's conversion of a text parameter to the numeric type of
    the identifier columns; [None] when the text is not a number, in which
    case the query fails. *)
Variable parse_numeric : string -> option Z.

(** The server's [a::decimal / b] for two counts, [b] not zero. *)
Variable decimal_div : Z -> Z -> Q.

Definition key_eq_dec (k1 k2 : Z * Z) : {k1 = k2} + {k1 <> k2}.
Proof. decide equality; apply Z.eq_dec. Defined.

Definition same_key (k1 k2 : Z * Z) : bool :=
  (fst k1 =? fst k2) && (snd k1 =? snd k2).

(** [FROM users_games INNER JOIN users_games uG ON users_games.game_id =
    uG.game_id AND users_games.user_id <> uG.user_id]. *)
Definition inner_join (users_games : list PostgresUserGame.t)
  : list (PostgresUserGame.t * PostgresUserGame.t) :=
  flat_map
    (fun a =>
       map (pair a)
         (filter
            (fun uG =>
               (PostgresUserGame.GameID a =? PostgresUserGame.GameID uG)
               && negb (PostgresUserGame.UserID a =? PostgresUserGame.UserID uG))
            users_games))
    users_games.

(** [WHERE users_games.guild_id = $1 AND users_games.player_role = $2 AND
    uG.player_role = $2 AND users_games.user_id = $3]. *)
Definition where_pair (guild role user : Z)
  (p : PostgresUserGame.t * PostgresUserGame.t) : bool :=
  (PostgresUserGame.GuildID (fst p) =? guild)
  && (PostgresUserGame.PlayerRole (fst p) =? role)
  && (PostgresUserGame.PlayerRole (snd p) =? role)
  && (PostgresUserGame.UserID (fst p) =? user).

(** The grouping key of [GROUP BY users_games.user_id, uG.user_id]. *)
Definition group_key (p : PostgresUserGame.t * PostgresUserGame.t) : Z * Z :=
  (PostgresUserGame.UserID (fst p), PostgresUserGame.UserID (snd p)).

(** The selected columns of one group.  [player_won] is never null, so
    [COUNT(users_games.player_won)] and [COUNT( * )] both count the rows of
    the group; [won] is the value the [FILTER] clause compares with. *)
Definition select_group (won : bool)
  (rows : list (PostgresUserGame.t * PostgresUserGame.t)) (k : Z * Z) : pair_row :=
  let grp := filter (fun p => same_key (group_key p) k) rows in
  let total := Z.of_nat (List.length grp) in
  let count :=
    Z.of_nat (List.length
                (filter (fun p => Bool.eqb (PostgresUserGame.PlayerWon (fst p)) won) grp)) in
  mk_pair_row (fst k) (snd k) total count (decimal_div count total * (100 # 1))%Q.

(** The query of both rankings; they differ in [won] only.  [SELECT
    DISTINCT] removes nothing, two groups having different keys. *)
Definition teammate_query (won : bool) (users_games : list PostgresUserGame.t)
  (guild role user leaderboardMin : Z) : list pair_row :=
  let rows := filter (where_pair guild role user) (inner_join users_games) in
  let keys := nodup key_eq_dec (map group_key rows) in
  let groups := map (select_group won rows) keys in
  let having := filter (fun r => leaderboardMin <=? pr_total r) groups in
  sort_rows having.

(** [pgxscan.Select] with the parameters [guildID, role, userID,
    leaderboardMin]: the rows of the query, or an error when the pool
    cannot be queried ([None]) or a parameter does not convert. *)
Definition select_teammates (won : bool)
  (pool : option (list PostgresUserGame.t))
  (userID guildID : string) (role : Z) (leaderboardMin : Z)
  : option (list pair_row) :=
  match pool, parse_numeric guildID, parse_numeric userID with
  | Some users_games, Some guild, Some user =>
      Some (teammate_query won users_games guild role user leaderboardMin)
  | _, _, _ => None
  end.

Definition to_best (r : pair_row) : PostgresBestTeammatePlayerRanking.t :=
  PostgresBestTeammatePlayerRanking.mk
    (pr_user r) (pr_teammate r) (pr_total r) (pr_count r) (pr_rate r).

Definition to_worst (r : pair_row) : PostgresWorstTeammatePlayerRanking.t :=
  PostgresWorstTeammatePlayerRanking.mk
    (pr_user r) (pr_teammate r) (pr_total r) (pr_count r) (pr_rate r).

(** On an error [r] is still nil: the error is logged and the empty
    list returned. *)
Definition BestTeammateByRole (pool : option (list PostgresUserGame.t))
  (userID guildID : string) (role : Z) (leaderboardMin : Z)
  : list PostgresBestTeammatePlayerRanking.t :=
  match select_teammates true pool userID guildID role leaderboardMin with
  | Some rows => map to_best rows
  | None => []
  end.

Definition WorstTeammateByRole (pool : option (list PostgresUserGame.t))
  (userID guildID : string) (role : Z) (leaderboardMin : Z)
  : list PostgresWorstTeammatePlayerRanking.t :=
  match select_teammates false pool userID guildID role leaderboardMin with
  | Some rows => map to_worst rows
  | None => []
  end.

End Rankings.

(** The claimed order on the rows of each ranking. *)
Definition best_before (a b : PostgresBestTeammatePlayerRanking.t) : Prop :=
  let rate := PostgresBestTeammatePlayerRanking.WinRate in
  let win := PostgresBestTeammatePlayerRanking.Win in
  let total := PostgresBestTeammatePlayerRanking.Total in
  (rate b < rate a)%Q
  \/ ((rate b == rate a)%Q
      /\ (win b < win a \/ (win b = win a /\ total b <= total a))).

Definition worst_before (a b : PostgresWorstTeammatePlayerRanking.t) : Prop :=
  let rate := PostgresWorstTeammatePlayerRanking.LooseRate in
  let loose := PostgresWorstTeammatePlayerRanking.Loose in
  let total := PostgresWorstTeammatePlayerRanking.Total in
  (rate b < rate a)%Q
  \/ ((rate b == rate a)%Q
      /\ (loose b < loose a \/ (loose b = loose a /\ total b <= total a))).

(** ** Shared matches, in the words of the design document *)

(** A row [a] of [user] in [guild] and a row [b] of [teammate] of the
    same match, both in [role], the two being different users. *)
Definition plays_with (guild role user teammate : Z)
  (a b : PostgresUserGame.t) : bool :=
  (PostgresUserGame.GameID a =? PostgresUserGame.GameID b)
  && negb (PostgresUserGame.UserID a =? PostgresUserGame.UserID b)
  && (PostgresUserGame.UserID a =? user)
  && (PostgresUserGame.UserID b =? teammate)
  && (PostgresUserGame.GuildID a =? guild)
  && (PostgresUserGame.PlayerRole a =? role)
  && (PostgresUserGame.PlayerRole b =? role).

(** The pairs of a row of [user] and a row of [teammate] in one match. *)
Definition shared_pairs (users_games : list PostgresUserGame.t)
  (guild role user teammate : Z)
  : list (PostgresUserGame.t * PostgresUserGame.t) :=
  filter (fun p => plays_with guild role user teammate (fst p) (snd p))
    (list_prod users_games users_games).

(** The shared-match count of [user] and [teammate]: the number of these
    pairs.  It is the number of matches both played in when a user has at
    most one row for a match (see [shared_games]). *)
Definition shared_matches (users_games : list PostgresUserGame.t)
  (guild role user teammate : Z) : Z :=
  Z.of_nat (List.length (shared_pairs users_games guild role user teammate)).

(** The shared matches that [user] won ([won = true]) or lost
    ([won = false]). *)
Definition shared_outcomes (won : bool) (users_games : list PostgresUserGame.t)
  (guild role user teammate : Z) : Z :=
  Z.of_nat
    (List.length
       (filter (fun p => Bool.eqb (PostgresUserGame.PlayerWon (fst p)) won)
          (shared_pairs users_games guild role user teammate))).

(** The matches of the table in which [user] played in [guild] in
    [role] and [teammate], another user, played in [role], each once. *)
Definition shared_games (users_games : list PostgresUserGame.t)
  (guild role user teammate : Z) : list Z :=
  filter
    (fun g =>
       negb (user =? teammate)
       && existsb
            (fun a => (PostgresUserGame.GameID a =? g)
                      && (PostgresUserGame.UserID a =? user)
                      && (PostgresUserGame.GuildID a =? guild)
                      && (PostgresUserGame.PlayerRole a =? role)) users_games
       && existsb
            (fun b => (PostgresUserGame.GameID b =? g)
                      && (PostgresUserGame.UserID b =? teammate)
                      && (PostgresUserGame.PlayerRole b =? role)) users_games)
    (nodup Z.eq_dec (map PostgresUserGame.GameID users_games)).

(** A user has at most one row for a match. *)
Definition one_row_per_match (users_games : list PostgresUserGame.t) : Prop :=
  NoDup (map (fun u => (PostgresUserGame.UserID u, PostgresUserGame.GameID u))
           users_games).

(** What a teammate ranking of [user] is, the fields of its rows being
    read with [user_of], [teammate_of], [total_of], [count_of] and
    [rate_of]: it lists each teammate once; the teammates listed are those
    with at least one shared match and at least [leaderboardMin] of them;
    and the row of a teammate carries the user, the shared-match count as
    total, the number of the shared matches won (or lost) as count, and
    their quotient times 100 as rate. *)
Definition teammate_ranking_of {R : Type}
  (user_of teammate_of total_of count_of : R -> Z) (rate_of : R -> Q)
  (decimal_div : Z -> Z -> Q) (won : bool)
  (users_games : list PostgresUserGame.t)
  (guild role user leaderboardMin : Z) (ranking : list R) : Prop :=
  NoDup (map teammate_of ranking)
  /\ (forall teammate,
         In teammate (map teammate_of ranking)
         <-> 1 <= shared_matches users_games guild role user teammate
             /\ leaderboardMin <= shared_matches users_games guild role user teammate)
  /\ (forall r, In r ranking ->
         user_of r = user
         /\ total_of r = shared_matches users_games guild role user (teammate_of r)
         /\ count_of r
            = shared_outcomes won users_games guild role user (teammate_of r)
         /\ 0 <= count_of r <= total_of r
         /\ rate_of r = (decimal_div (count_of r) (total_of r) * (100 # 1))%Q).

(** ** A store for the examples *)

Module SampleStore.

(** Identifiers written as one decimal digit. *)
Definition parse_digit (s : string) : option Z :=
  match s with
  | String c EmptyString =>
      let n := Z.of_nat (nat_of_ascii c) - 48 in
      if (0 <=? n) && (n <=? 9) then Some n else None
  | _ => None
  end.

(** Exact division. *)
Definition exact_div (a b : Z) : Q := a # Z.to_pos b.

(** One row of [users_games]: guild 9, crewmate role. *)
Definition played (user game : Z) (won : bool) : PostgresUserGame.t :=
  PostgresUserGame.mk user 9 game "" 0 0 won.

(** User 1 shares five matches with user 3 and four of them with user 2,
    and wins the first three. *)
Definition users_games : list PostgresUserGame.t :=
  [played 1 1 true; played 2 1 true; played 3 1 true;
   played 1 2 true; played 2 2 true; played 3 2 true;
   played 1 3 true; played 2 3 true; played 3 3 true;
   played 1 4 false; played 2 4 false; played 3 4 false;
   played 1 5 false; played 3 5 false].

End SampleStore.

(** ** Tallies of a stream of events *)

(** Number of player-action events that decode with the given action. *)
Definition count_action (json_Unmarshal : string -> option game.Player)
  (a : game.PlayerAction) (evs : list PostgresGameEvent.t) : nat :=
  List.length (filter (fun e => is_some (name_with_action json_Unmarshal a e)) evs).

(** Number of phase-state events with the tasks code. *)
Definition count_tasks (evs : list PostgresGameEvent.t) : nat :=
  List.length (filter (is_phase TasksCode) evs).

(** Number of events that decode with [DIED] for a player whose name an
    earlier event of the stream (or the list [ex]) has exiled. *)
Fixpoint suppressed_deaths (json_Unmarshal : string -> option game.Player)
  (ex : list string) (evs : list PostgresGameEvent.t) : nat :=
  match evs with
  | [] => 0
  | e :: rest =>
      ((match died_name json_Unmarshal e with
        | Some n => if in_dec string_dec n ex then 1 else 0
        | None => 0
        end)
       + suppressed_deaths json_Unmarshal
           (ex ++ exiled_names json_Unmarshal [e]) rest)%nat
  end.

(** The statistics the reducer returns without a match when it returns. *)
Definition stats_no_match (us : list PostgresUserGame.t) : GameStatistics :=
  mkGameStatistics TimeZero TimeZero 0 game.Unknown game.CrewmateRole
    (winners us) (losers us) 0 0 0 0 [].

(** A timeline entry as the loop body builds it: a phase entry without
    data, or a player entry whose data decodes with the action of its
    kind. *)
Definition well_formed_entry (json_Unmarshal : string -> option game.Player)
  (se : SimpleEvent) : Prop :=
  match EventType se with
  | Tasks | Discuss => Data se = ""
  | PlayerDeath =>
      exists p, json_Unmarshal (Data se) = Some p /\ game.Action p = game.DIED
  | PlayerExiled =>
      exists p, json_Unmarshal (Data se) = Some p /\ game.Action p = game.EXILED
  | PlayerDisconnect =>
      exists p, json_Unmarshal (Data se) = Some p
                /\ game.Action p = game.DISCONNECTED
  end.

(** Everything a stretch of the event loop changes, in numbers: the
    statistics [s] and eliminated set [ex] before the events [evs], the
    statistics [s'] after them. *)
Definition tally (json_Unmarshal : string -> option game.Player)
  (s : GameStatistics) (ex : list string)
  (evs : list PostgresGameEvent.t) (s' : GameStatistics) : Prop :=
  NumVotedOff s' = NumVotedOff s + Z.of_nat (count_action json_Unmarshal game.EXILED evs)
  /\ NumDisconnects s'
     = NumDisconnects s + Z.of_nat (count_action json_Unmarshal game.DISCONNECTED evs)
  /\ count_kind Discuss (Events s')
     = (count_kind Discuss (Events s) + count_discuss evs)%nat
  /\ count_kind Tasks (Events s')
     = (count_kind Tasks (Events s) + count_tasks evs)%nat
  /\ count_kind PlayerExiled (Events s')
     = (count_kind PlayerExiled (Events s)
        + count_action json_Unmarshal game.EXILED evs)%nat
  /\ count_kind PlayerDisconnect (Events s')
     = (count_kind PlayerDisconnect (Events s)
        + count_action json_Unmarshal game.DISCONNECTED evs)%nat
  /\ (count_kind PlayerDeath (Events s') + suppressed_deaths json_Unmarshal ex evs
      = count_kind PlayerDeath (Events s) + count_died json_Unmarshal evs)%nat
  /\ (Forall (well_formed_entry json_Unmarshal) (Events s) ->
      Forall (well_formed_entry json_Unmarshal) (Events s')).

(** ** Printing a duration *)

(** [time.Minute], in nanoseconds. *)
Definition Minute : Z := 60 * Second.

(** [fmt.Sprintf("%d", x)]: the decimal digits of [x], after a minus sign
    when [x] is negative. *)
Definition Sprintf_d (x : Z) : string := DecimalString.NilZero.string_of_int (Z.to_int x).

(** [fmt.Sprintf("%02d", x)]: zeros are put before the digits up to a
    width of two, the sign counting; the only numbers shorter than that are
    0 to 9. *)
Definition Sprintf_02d (x : Z) : string :=
  if (0 <=? x) && (x <? 10) then "0" ++ Sprintf_d x else Sprintf_d x.

(** The division of Go rounds to zero.  [d] is a 64-bit count; neither
    the quotient nor the product or the difference below leaves 64
    bits. *)
Definition formatTimeDuration (d : Z) : string :=
  let minute := Z.quot d Minute in
  let second := Z.quot (d - minute * Minute) Second in
  Sprintf_02d minute ++ ":" ++ Sprintf_02d second.

(** Reading a clock text back: the decimal number before the first colon
    and the one after it, as minutes and seconds; the result is in
    seconds. *)
Definition read_decimal (s : string) : option Z :=
  option_map Z.of_int (DecimalString.NilZero.int_of_string s).

Fixpoint split_colon (s : string) : option (string * string) :=
  match s with
  | EmptyString => None
  | String c rest =>
      if Ascii.eqb c ":" then Some (EmptyString, rest)
      else
        match split_colon rest with
        | Some (a, b) => Some (String c a, b)
        | None => None
        end
  end.

Definition read_clock (s : string) : option Z :=
  match split_colon s with
  | Some (m, sec) =>
      match read_decimal m, read_decimal sec with
      | Some a, Some b => Some (a * 60 + b)
      | _, _ => None
      end
  | None => None
  end.

(** No character of the string is a colon. *)
Fixpoint colon_free (s : string) : Prop :=
  match s with
  | EmptyString => True
  | String c rest => c <> ":"%char /\ colon_free rest
  end.

(** ** The embed of a match *)

Module i18n.
Record Message : Type := mk { ID : string; Other : string }.
End i18n.

(** The values the template data of a message holds here. *)
Inductive template_value : Type :=
| TString (s : string)
| TInt (z : Z).

Module discordgo.

Record MessageEmbedField : Type := mkField {
  Name : string;
  Value : string;
  Inline : bool
}.

(** The fields of the embed that are not pointers; [ToDiscordEmbed]
    leaves every pointer field nil. *)
Record MessageEmbed : Type := mkEmbed {
  URL : string;
  Type_ : string;
  Title : string;
  Description : string;
  Timestamp : string;
  Color : Z;
  Fields : list MessageEmbedField
}.

End discordgo.

(** The line feed. *)
Definition LF : string := String (ascii_of_nat 10) EmptyString.

Section Embed.

(** [sett.LocalizeMessage(msg, data)] of package [settings], for the
    settings the embed is built with; without template data the list is
    empty. *)
Variable LocalizeMessage : i18n.Message -> list (string * template_value) -> string.

(** [t.Add(time.Duration(sett.GetTimeOffset()*60) * time.Minute).Format(layout)],
    for the same settings. *)
Variable local_time_text : string -> Time -> string.

(** [d.String()] of a [time.Duration]. *)
Variable Duration_String : Z -> string.

Variable json_Unmarshal : string -> option game.Player.

(** The three crewmate wins of package [game], which
    [FormatGameStatsDescription] names; their codes are not needed
    below. *)
Variables HumansByTask HumansByVote HumansDisconnect : game.GameResult.

Definition FormatGameStatsDescription (stats : GameStatistics) : string :=
  let w := WinType stats in
  if w =? HumansByTask then
    LocalizeMessage
      (i18n.mk "responses.matchStatsEmbed.HumansByTask"
         "**Crewmates** won by **completing tasks** !") []
  else if w =? HumansByVote then
    LocalizeMessage
      (i18n.mk "responses.matchStatsEmbed.HumansByVote"
         "**Crewmates** won by **voting off the last Imposter** !") []
  else if w =? HumansDisconnect then
    LocalizeMessage
      (i18n.mk "responses.matchStatsEmbed.HumansDisconnect"
         "**Crewmates** won because **the last Imposter disconnected** !") []
  else if w =? game.ImpostorDisconnect then
    LocalizeMessage
      (i18n.mk "responses.matchStatsEmbed.ImpostorDisconnect"
         "**Imposters** won because **the last Crewmate disconnected** !") []
  else if w =? game.ImpostorBySabotage then
    LocalizeMessage
      (i18n.mk "responses.matchStatsEmbed.ImpostorBySabotage"
         "**Imposters** won by **sabotage** !") []
  else if w =? game.ImpostorByVote then
    LocalizeMessage
      (i18n.mk "responses.matchStatsEmbed.ImpostorByVote"
         "**Imposters** won by **voting off the last Crewmate** !") []
  else if w =? game.ImpostorByKill then
    LocalizeMessage
      (i18n.mk "responses.matchStatsEmbed.ImpostorByKill"
         "**Imposters** won by **killing the last Crewmate** !") []
  else "".

(** [fmt.Sprintf("`%s` %s\n", clock, text)]. *)
Definition event_line (clock text : string) : string :=
  ("`" ++ clock ++ "` " ++ text ++ LF)%string.

(** A player entry: the data is decoded again; on an error the entry is
    logged and nothing is written. *)
Definition player_line (v : SimpleEvent) (msg : i18n.Message) : option string :=
  match json_Unmarshal (Data v) with
  | None => None
  | Some player =>
      Some (event_line (formatTimeDuration (EventTimeOffset v))
              (LocalizeMessage msg [("PlayerName", TString (game.Name player))]))
  end.

(** What the loop over [stats.Events] writes to the buffer for one
    entry. *)
Definition written_for (v : SimpleEvent) : option string :=
  match EventType v with
  | Tasks =>
      Some (event_line (formatTimeDuration (EventTimeOffset v))
              (LocalizeMessage
                 (i18n.mk "responses.matchStatsEmbed.TaskEvent" "🔨 Task") []))
  | Discuss =>
      Some (event_line (formatTimeDuration (EventTimeOffset v))
              (LocalizeMessage
                 (i18n.mk "responses.matchStatsEmbed.DiscussionEvent" "💬 Discussion")
                 []))
  | PlayerDeath =>
      player_line v
        (i18n.mk "responses.matchStatsEmbed.KilledEvent"
           "🔪 **{{.PlayerName}}** Killed")
  | PlayerDisconnect =>
      player_line v
        (i18n.mk "responses.matchStatsEmbed.DisconnectedEvent"
           "🔌 **{{.PlayerName}}** Disconnected")
  | PlayerExiled =>
      player_line v
        (i18n.mk "responses.matchStatsEmbed.ExiledEvent"
           "⛔ **{{.PlayerName}}** Exiled")
  end.

(** The strings written to the buffer, in order. *)
Fixpoint written (events : list SimpleEvent) : list string :=
  match events with
  | [] => []
  | v :: rest =>
      match written_for v with
      | Some line => line :: written rest
      | None => written rest
      end
  end.

(** [fields = append(fields, f)] under [if len(l) > 0]. *)
Definition field_if_any {A : Type} (l : list A) (f : discordgo.MessageEmbedField)
  : list discordgo.MessageEmbedField :=
  match l with
  | [] => []
  | _ :: _ => [f]
  end.

Definition ToDiscordEmbed (stats : GameStatistics) (combinedID : string)
  : discordgo.MessageEmbed :=
  let title :=
    LocalizeMessage (i18n.mk "responses.matchStatsEmbed.Title" "Game `{{.MatchID}}`")
      [("MatchID", TString combinedID)] in
  let crewmates :=
    LocalizeMessage (i18n.mk "responses.matchStatsEmbed.Crewmates" "Crewmates") [] in
  let imposters :=
    LocalizeMessage (i18n.mk "responses.matchStatsEmbed.Imposters" "Imposters") [] in
  let '(winRoleStr, loseRoleStr) :=
    match WinRole stats with
    | game.CrewmateRole => (crewmates, imposters)
    | game.ImposterRole => (imposters, crewmates)
    end in
  let fields :=
    field_if_any (WinPlayerNames stats)
      (discordgo.mkField
         ("🏆 " ++ winRoleStr ++ " ("
          ++ Sprintf_d (Z.of_nat (List.length (WinPlayerNames stats))) ++ ")")%string
         (String.concat ", " (WinPlayerNames stats)) false)
    ++ field_if_any (LosePlayerNames stats)
         (discordgo.mkField
            ("🤢 " ++ loseRoleStr ++ " ("
             ++ Sprintf_d (Z.of_nat (List.length (LosePlayerNames stats))) ++ ")")%string
            (String.concat ", " (LosePlayerNames stats)) false)
    ++ [discordgo.mkField
          (LocalizeMessage (i18n.mk "responses.matchStatsEmbed.Start" "🕑 Start") [])
          (local_time_text "Jan 2, 3:04 PM" (GameStartTime stats)) true;
        discordgo.mkField
          (LocalizeMessage (i18n.mk "responses.matchStatsEmbed.End" "🕑 End") [])
          (local_time_text "3:04 PM" (GameEndTime stats)) true;
        discordgo.mkField
          (LocalizeMessage
             (i18n.mk "responses.matchStatsEmbed.Duration" "⏲️ Duration") [])
          (Duration_String (GameDuration stats)) true;
        discordgo.mkField
          (LocalizeMessage
             (i18n.mk "responses.matchStatsEmbed.Players" "🎮 Players") [])
          (Sprintf_d (Z.of_nat (List.length (WinPlayerNames stats))
                      + Z.of_nat (List.length (LosePlayerNames stats)))) true;
        discordgo.mkField
          (LocalizeMessage
             (i18n.mk "responses.matchStatsEmbed.Meetings" "💬 Meetings") [])
          (Sprintf_d (NumMeetings stats)) true;
        discordgo.mkField
          (LocalizeMessage (i18n.mk "responses.matchStatsEmbed.Death" "☠️ Death") [])
          (LocalizeMessage
             (i18n.mk "responses.matchStatsEmbed.DeathDesc"
                "{{.Death}} ({{.Killed}} killed, {{.VotedOff}} exiled)")
             [("Death", TInt (NumDeaths stats));
              ("Killed", TInt (NumDeaths stats - NumVotedOff stats));
              ("VotedOff", TInt (NumVotedOff stats))]) true]
    ++ field_if_any (Events stats)
         (discordgo.mkField
            (LocalizeMessage
               (i18n.mk "responses.matchStatsEmbed.GameEvents" "📋 Game Events") [])
            (String.concat "" (written (Events stats))) false) in
  discordgo.mkEmbed "" "" title (FormatGameStatsDescription stats) "" 10181046 fields.

End Embed.

(** ** The counts *)

(** [SELECT COUNT( * ) ... WHERE cond]: the number of rows that satisfy
    the condition. *)
Definition count_where {A : Type} (cond : A -> bool) (rows : list A) : Z :=
  Z.of_nat (List.length (filter cond rows)).

Section Counts.

(** [strconv.ParseInt(s, 10, 64)] with its error dropped: the number
    read, 0 when the text is not a number, the nearest bound when it is out
    of range. *)
Variable ParseInt : string -> Z.

(** The server's conversion of a text parameter to the numeric type of
    the identifier columns; [None] when the text is not a number, in which
    case the query fails. *)
Variable parse_numeric : string -> option Z.

(** The [games] table when it can be queried; [None] when
    [pgxscan.Get] returns an error. *)
Definition NumGamesPlayedOnGuild (games : option (list PostgresGame.t))
  (guildID : string) : Z :=
  let gid := ParseInt guildID in
  match games with
  | Some rows =>
      count_where
        (fun g => (PostgresGame.GuildID g =? gid)
                  && negb (PostgresGame.EndTime g =? -1)) rows
  | None => -1
  end.

(** The two [WHERE] clauses of [NumGamesWonAsRoleOnServer]. *)
Definition crewmate_win_type (g : PostgresGame.t) : bool :=
  (PostgresGame.WinType g =? 0) || (PostgresGame.WinType g =? 1)
  || (PostgresGame.WinType g =? 6).

Definition imposter_win_type (g : PostgresGame.t) : bool :=
  (PostgresGame.WinType g =? 2) || (PostgresGame.WinType g =? 3)
  || (PostgresGame.WinType g =? 4) || (PostgresGame.WinType g =? 5).

Definition NumGamesWonAsRoleOnServer (games : option (list PostgresGame.t))
  (guildID : string) (role : game.GameRole) : Z :=
  let gid := ParseInt guildID in
  match games with
  | Some rows =>
      match role with
      | game.CrewmateRole =>
          count_where
            (fun g => (PostgresGame.GuildID g =? gid) && crewmate_win_type g) rows
      | game.ImposterRole =>
          count_where
            (fun g => (PostgresGame.GuildID g =? gid) && imposter_win_type g) rows
      end
  | None => -1
  end.

(** The counts over [users_games].  A text parameter is converted by
    the server; the query fails, and -1 is returned, when the table cannot
    be queried or a text parameter is not a number. *)
Definition NumGamesPlayedByUser (users_games : option (list PostgresUserGame.t))
  (userID : string) : Z :=
  match users_games, parse_numeric userID with
  | Some rows, Some uid =>
      count_where (fun u => PostgresUserGame.UserID u =? uid) rows
  | _, _ => -1
  end.

(** [COUNT(DISTINCT guild_id)]. *)
Definition NumGuildsPlayedInByUser (users_games : option (list PostgresUserGame.t))
  (userID : string) : Z :=
  match users_games, parse_numeric userID with
  | Some rows, Some uid =>
      Z.of_nat
        (List.length
           (nodup Z.eq_dec
              (map PostgresUserGame.GuildID
                 (filter (fun u => PostgresUserGame.UserID u =? uid) rows))))
  | _, _ => -1
  end.

(** Here the guild is converted by the caller, with [ParseInt]. *)
Definition NumGamesPlayedByUserOnServer
  (users_games : option (list PostgresUserGame.t)) (userID guildID : string) : Z :=
  let gid := ParseInt guildID in
  match users_games, parse_numeric userID with
  | Some rows, Some uid =>
      count_where
        (fun u => (PostgresUserGame.UserID u =? uid)
                  && (PostgresUserGame.GuildID u =? gid)) rows
  | _, _ => -1
  end.

Definition NumWinsAsRoleOnServer (users_games : option (list PostgresUserGame.t))
  (userID guildID : string) (role : Z) : Z :=
  match users_games, parse_numeric userID, parse_numeric guildID with
  | Some rows, Some uid, Some gid =>
      count_where
        (fun u => (PostgresUserGame.UserID u =? uid)
                  && (PostgresUserGame.GuildID u =? gid)
                  && (PostgresUserGame.PlayerRole u =? role)
                  && PostgresUserGame.PlayerWon u) rows
  | _, _, _ => -1
  end.

Definition NumWinsAsRole (users_games : option (list PostgresUserGame.t))
  (userID : string) (role : Z) : Z :=
  match users_games, parse_numeric userID with
  | Some rows, Some uid =>
      count_where
        (fun u => (PostgresUserGame.UserID u =? uid)
                  && (PostgresUserGame.PlayerRole u =? role)
                  && PostgresUserGame.PlayerWon u) rows
  | _, _ => -1
  end.

Definition NumGamesAsRoleOnServer (users_games : option (list PostgresUserGame.t))
  (userID guildID : string) (role : Z) : Z :=
  match users_games, parse_numeric userID, parse_numeric guildID with
  | Some rows, Some uid, Some gid =>
      count_where
        (fun u => (PostgresUserGame.UserID u =? uid)
                  && (PostgresUserGame.GuildID u =? gid)
                  && (PostgresUserGame.PlayerRole u =? role)) rows
  | _, _, _ => -1
  end.

Definition NumGamesAsRole (users_games : option (list PostgresUserGame.t))
  (userID : string) (role : Z) : Z :=
  match users_games, parse_numeric userID with
  | Some rows, Some uid =>
      count_where
        (fun u => (PostgresUserGame.UserID u =? uid)
                  && (PostgresUserGame.PlayerRole u =? role)) rows
  | _, _ => -1
  end.

Definition NumWinsOnServer (users_games : option (list PostgresUserGame.t))
  (userID guildID : string) : Z :=
  match users_games, parse_numeric userID, parse_numeric guildID with
  | Some rows, Some uid, Some gid =>
      count_where
        (fun u => (PostgresUserGame.UserID u =? uid)
                  && (PostgresUserGame.GuildID u =? gid)
                  && PostgresUserGame.PlayerWon u) rows
  | _, _, _ => -1
  end.

Definition NumWins (users_games : option (list PostgresUserGame.t))
  (userID : string) : Z :=
  match users_games, parse_numeric userID with
  | Some rows, Some uid =>
      count_where
        (fun u => (PostgresUserGame.UserID u =? uid)
                  && PostgresUserGame.PlayerWon u) rows
  | _, _ => -1
  end.

End Counts.

(** The winning role the reducer reports for a match. *)
Definition reduced_win_role (g : PostgresGame.t) : option game.GameRole :=
  match StatsFromGameAndEvents (fun _ => None) (Some g) [] [] with
  | Ok st => Some (WinRole st)
  | Panic => None
  end.

Definition same_role (a b : game.GameRole) : bool :=
  match a, b with
  | game.CrewmateRole, game.CrewmateRole
  | game.ImposterRole, game.ImposterRole => true
  | _, _ => false
  end.

(** ** Rankings with one sort key *)

(** [ORDER BY] on one key: rows are put in order by insertion, [before a b]
    telling whether [a] may stand before [b]. *)
Fixpoint insert_by {A : Type} (before : A -> A -> bool) (r : A) (l : list A)
  : list A :=
  match l with
  | [] => [r]
  | x :: rest => if before r x then r :: l else x :: insert_by before r rest
  end.

Fixpoint sort_by {A : Type} (before : A -> A -> bool) (l : list A) : list A :=
  match l with
  | [] => []
  | r :: rest => insert_by before r (sort_by before rest)
  end.

(** Modelled from the spec: the row type of the win-rate rankings is
    declared in types.go, which is not among the sources at hand; its
    fields are the columns the queries select. *)
Module PostgresPlayerRanking.
Record t : Type := mk {
  UserID : Z;
  Win : Z;
  Total : Z;
  WinRate : Q
}.
End PostgresPlayerRanking.

Module Int16ModeCount.
Record t : Type := mk { Count : Z; Mode : Z }.
End Int16ModeCount.

Module Uint64ModeCount.
Record t : Type := mk { Count : Z; Mode : Z }.
End Uint64ModeCount.

Module StringModeCount.
Record t : Type := mk { Count : Z; Mode : string }.
End StringModeCount.

Section OneKeyRankings.

Variable parse_numeric : string -> option Z.
Variable decimal_div : Z -> Z -> Q.

(** [ORDER BY win_rate DESC]. *)
Definition rate_desc (a b : PostgresPlayerRanking.t) : bool :=
  Qle_bool (PostgresPlayerRanking.WinRate b) (PostgresPlayerRanking.WinRate a).

(** The selected columns of the group of one user:
    [COUNT(user_id) FILTER (WHERE player_won = TRUE)], [COUNT( * )] and
    their quotient times 100. *)
Definition select_user (rows : list PostgresUserGame.t) (uid : Z)
  : PostgresPlayerRanking.t :=
  let grp := filter (fun u => PostgresUserGame.UserID u =? uid) rows in
  let win := Z.of_nat (List.length (filter PostgresUserGame.PlayerWon grp)) in
  let total := Z.of_nat (List.length grp) in
  PostgresPlayerRanking.mk uid win total (decimal_div win total * (100 # 1))%Q.

(** [SELECT DISTINCT user_id, ... FROM users_games WHERE cond GROUP BY
    user_id ORDER BY win_rate DESC]; [DISTINCT] removes nothing, two groups
    having different users. *)
Definition win_ranking_query (cond : PostgresUserGame.t -> bool)
  (users_games : list PostgresUserGame.t) : list PostgresPlayerRanking.t :=
  let rows := filter cond users_games in
  let users := nodup Z.eq_dec (map PostgresUserGame.UserID rows) in
  sort_by rate_desc (map (select_user rows) users).

(** [guildID] is a [uint64] here and needs no conversion.  On an error
    the nil list is returned. *)
Definition TotalWinRankingForServerByRole
  (pool : option (list PostgresUserGame.t)) (guildID : Z) (role : Z)
  : list PostgresPlayerRanking.t :=
  match pool with
  | Some users_games =>
      win_ranking_query
        (fun u => (PostgresUserGame.GuildID u =? guildID)
                  && (PostgresUserGame.PlayerRole u =? role)) users_games
  | None => []
  end.

Definition TotalWinRankingForServer
  (pool : option (list PostgresUserGame.t)) (guildID : Z)
  : list PostgresPlayerRanking.t :=
  match pool with
  | Some users_games =>
      win_ranking_query (fun u => PostgresUserGame.GuildID u =? guildID) users_games
  | None => []
  end.

End OneKeyRankings.

(** *** Mode rankings *)

Section ModeRankings.

Variable K : Type.
Variable K_eq_dec : forall a b : K, {a = b} + {a <> b}.

(** The order of the server on the values of the column ([ORDER BY] inside
    [mode() WITHIN GROUP]). *)
Variable K_le : K -> K -> bool.

(** [mode() WITHIN GROUP (ORDER BY x)]: the most frequent value, the
    first one in order among equally frequent ones; nothing for no
    value. *)
Fixpoint most_frequent (all candidates : list K) : option K :=
  match candidates with
  | [] => None
  | c :: rest =>
      match most_frequent all rest with
      | None => Some c
      | Some m =>
          if (count_occ K_eq_dec all m <=? count_occ K_eq_dec all c)%nat
          then Some c else Some m
      end
  end.

Definition mode_of (values : list K) : option K :=
  most_frequent values (sort_by K_le values).

(** [ORDER BY count desc] on the pairs of count and mode. *)
Definition count_desc (a b : Z * option K) : bool := fst b <=? fst a.

(** [SELECT count( * ), mode() WITHIN GROUP (ORDER BY x) AS mode FROM
    users_games WHERE cond GROUP BY x ORDER BY count desc], [x] being the
    column [column]. *)
Definition mode_ranking_query (column : PostgresUserGame.t -> K)
  (cond : PostgresUserGame.t -> bool) (users_games : list PostgresUserGame.t)
  : list (Z * option K) :=
  let rows := filter cond users_games in
  let keys := nodup K_eq_dec (map column rows) in
  sort_by count_desc
    (map (fun k =>
            let grp := filter (fun u => if K_eq_dec (column u) k then true else false)
                         rows in
            (Z.of_nat (List.length grp), mode_of (map column grp)))
       keys).

End ModeRankings.

(** Scanning the rows into structs.  A null mode cannot be scanned into
    a field that is not a pointer; the scan of the whole result then
    fails. *)
Fixpoint scan_modes {K : Type} (rows : list (Z * option K)) : option (list (Z * K)) :=
  match rows with
  | [] => Some []
  | (n, Some m) :: rest =>
      match scan_modes rest with
      | Some l => Some ((n, m) :: l)
      | None => None
      end
  | (_, None) :: _ => None
  end.

Section ModeFunctions.

Variable parse_numeric : string -> option Z.

(** The order of the server's collation on names. *)
Variable name_le : string -> string -> bool.

(** The condition [user_id=$1 AND guild_id=$2] of the two rankings of a
    player on a server. *)
Definition of_user_on_server (uid gid : Z) (u : PostgresUserGame.t) : bool :=
  (PostgresUserGame.UserID u =? uid) && (PostgresUserGame.GuildID u =? gid).

Definition ColorRankingForPlayerOnServer
  (pool : option (list PostgresUserGame.t)) (userID guildID : string)
  : list Int16ModeCount.t :=
  match pool, parse_numeric userID, parse_numeric guildID with
  | Some users_games, Some uid, Some gid =>
      match scan_modes
              (mode_ranking_query Z Z.eq_dec Z.leb PostgresUserGame.PlayerColor
                 (of_user_on_server uid gid) users_games) with
      | Some rows => map (fun r => Int16ModeCount.mk (fst r) (snd r)) rows
      | None => []
      end
  | _, _, _ => []
  end.

Definition NamesRankingForPlayerOnServer
  (pool : option (list PostgresUserGame.t)) (userID guildID : string)
  : list StringModeCount.t :=
  match pool, parse_numeric userID, parse_numeric guildID with
  | Some users_games, Some uid, Some gid =>
      match scan_modes
              (mode_ranking_query string string_dec name_le
                 PostgresUserGame.PlayerName
                 (of_user_on_server uid gid) users_games) with
      | Some rows => map (fun r => StringModeCount.mk (fst r) (snd r)) rows
      | None => []
      end
  | _, _, _ => []
  end.

(** [guildID] is a [uint64] here. *)
Definition TotalGamesRankingForServer
  (pool : option (list PostgresUserGame.t)) (guildID : Z)
  : list Uint64ModeCount.t :=
  match pool with
  | Some users_games =>
      match scan_modes
              (mode_ranking_query Z Z.eq_dec Z.leb PostgresUserGame.UserID
                 (fun u => PostgresUserGame.GuildID u =? guildID) users_games) with
      | Some rows => map (fun r => Uint64ModeCount.mk (fst r) (snd r)) rows
      | None => []
      end
  | None => []
  end.

End ModeFunctions.

(** What a win-rate ranking of the rows that satisfy [cond] is: one row
    per user who has such a row, with the number of the user's rows as
    total, the number of the winning ones as wins and their quotient times
    100 as rate, the higher rates first; the totals add up to the number
    of rows that satisfy [cond]. *)
Definition win_ranking_of (decimal_div : Z -> Z -> Q)
  (cond : PostgresUserGame.t -> bool) (users_games : list PostgresUserGame.t)
  (ranking : list PostgresPlayerRanking.t) : Prop :=
  StronglySorted
    (fun a b => (PostgresPlayerRanking.WinRate b <= PostgresPlayerRanking.WinRate a)%Q)
    ranking
  /\ NoDup (map PostgresPlayerRanking.UserID ranking)
  /\ (forall uid,
         In uid (map PostgresPlayerRanking.UserID ranking)
         <-> exists u, In u users_games /\ cond u = true
                       /\ PostgresUserGame.UserID u = uid)
  /\ (forall r, In r ranking ->
         PostgresPlayerRanking.Total r
         = count_where
             (fun u => cond u
                       && (PostgresUserGame.UserID u =? PostgresPlayerRanking.UserID r))
             users_games
         /\ PostgresPlayerRanking.Win r
            = count_where
                (fun u => cond u
                          && (PostgresUserGame.UserID u =? PostgresPlayerRanking.UserID r)
                          && PostgresUserGame.PlayerWon u)
                users_games
         /\ 1 <= PostgresPlayerRanking.Total r
         /\ 0 <= PostgresPlayerRanking.Win r <= PostgresPlayerRanking.Total r
         /\ PostgresPlayerRanking.WinRate r
            = (decimal_div (PostgresPlayerRanking.Win r) (PostgresPlayerRanking.Total r)
               * (100 # 1))%Q)
  /\ fold_right (fun r acc => PostgresPlayerRanking.Total r + acc) 0 ranking
     = count_where cond users_games.

(** What a mode ranking of the rows that satisfy [cond] by the column
    [column] is, as pairs of count and mode: one pair per value the column
    takes on these rows, with the number of the rows that have the value
    (at least 1), the higher counts first, so that no value is more frequent
    than the one of the first pair; the counts add up to the number of rows
    that satisfy [cond]. *)
Definition mode_ranking_of {K : Type} (column : PostgresUserGame.t -> K)
  (same : K -> K -> bool) (cond : PostgresUserGame.t -> bool)
  (users_games : list PostgresUserGame.t) (ranking : list (Z * K)) : Prop :=
  StronglySorted (fun a b => fst b <= fst a) ranking
  /\ NoDup (map snd ranking)
  /\ (forall k,
         In k (map snd ranking)
         <-> exists u, In u users_games /\ cond u = true /\ column u = k)
  /\ (forall r, In r ranking ->
         fst r = count_where (fun u => cond u && same (column u) (snd r)) users_games
         /\ 1 <= fst r)
  /\ (forall first rest k,
         ranking = first :: rest ->
         count_where (fun u => cond u && same (column u) k) users_games <= fst first)
  /\ fold_right (fun r acc => fst r + acc) 0 ranking = count_where cond users_games.

(** ** Regions *)

Module Region.

(** [type Region int], with the constants in the order of their [iota]. *)
Definition t := Z.

Definition NA : t := 0.
Definition AS : t := 1.
Definition EU : t := 2.
Definition NAE : t := 3.
Definition NAW : t := 4.

(** The cases of the [switch] in the order of the source. *)
Definition ToString (r : t) : string :=
  if r =? NA then "North America"
  else if r =? EU then "Europe"
  else if r =? AS then "Asia"
  else if r =? NAE then "NA (East)"
  else if r =? NAW then "NA (West)"
  else "Unknown".

End Region.
(** The first worked example of the design document: the discussion at
    10s and the exile at 20s are on the timeline, the later death of the
    exiled player is counted but left off it. *)
Example reduce_exiled_then_died :
  StatsFromGameAndEvents Sample.decode (Some Sample.match1)
    [Some (Sample.state_at 1010 DiscussCode);
     Some (Sample.action_at 1020 "XAlice");
     Some (Sample.action_at 1030 "DAlice")]
    [Some (Sample.outcome "Alice" false); Some (Sample.outcome "Bob" true)]
  = Ok (mkGameStatistics (TimeUnix 1000) (TimeUnix 1100) (100 * Second)
          1 game.CrewmateRole ["Bob"] ["Alice"] 1 1 1 0
          [mkSimpleEvent Discuss (10 * Second) "";
           mkSimpleEvent PlayerExiled (20 * Second) "XAlice"]).
Proof. vm_compute. reflexivity. Qed.

(** The second worked example: the death comes first and is on the
    timeline. *)
Example reduce_died_then_exiled :
  StatsFromGameAndEvents Sample.decode (Some Sample.match1)
    [Some (Sample.state_at 1010 DiscussCode);
     Some (Sample.action_at 1020 "DAlice");
     Some (Sample.action_at 1030 "XAlice")]
    [Some (Sample.outcome "Alice" false); Some (Sample.outcome "Bob" true)]
  = Ok (mkGameStatistics (TimeUnix 1000) (TimeUnix 1100) (100 * Second)
          1 game.CrewmateRole ["Bob"] ["Alice"] 1 1 1 0
          [mkSimpleEvent Discuss (10 * Second) "";
           mkSimpleEvent PlayerDeath (20 * Second) "DAlice";
           mkSimpleEvent PlayerExiled (30 * Second) "XAlice"]).
Proof. vm_compute. reflexivity. Qed.

(** ** Arithmetic of timestamps *)






(** Two timestamps that are both non-negative 32-bit values have a
    difference that fits. *)
Lemma nonneg_difference_fits (a b : Z) :
  0 <= a < 2 ^ 31 -> 0 <= b < 2 ^ 31 -> fits timeBits (a - b).
Proof.
  unfold fits, timeBits. change (2 ^ (32 - 1)) with 2147483648.
  change (2 ^ 31) with 2147483648. lia.
Qed.

(** ** The outcome loop *)

Lemma users_loop_records (s : GameStatistics) (us : list PostgresUserGame.t) :
  exists s',
    users_loop s (map Some us) = Ok s'
    /\ WinPlayerNames s' = WinPlayerNames s ++ winners us
    /\ LosePlayerNames s' = LosePlayerNames s ++ losers us
    /\ GameStartTime s' = GameStartTime s /\ GameEndTime s' = GameEndTime s
    /\ GameDuration s' = GameDuration s
    /\ WinType s' = WinType s /\ WinRole s' = WinRole s
    /\ NumMeetings s' = NumMeetings s /\ NumDeaths s' = NumDeaths s
    /\ NumVotedOff s' = NumVotedOff s /\ NumDisconnects s' = NumDisconnects s
    /\ Events s' = Events s.
Proof.
  revert s. induction us as [|u us IH]; intros s.
  - exists s. unfold winners, losers. cbn. rewrite !app_nil_r. repeat split.
  - cbn [map users_loop]. unfold user_step. cbn [deref bind].
    destruct (PostgresUserGame.PlayerWon u) eqn:Hw; cbn [bind].
    + destruct (IH (add_winner (PostgresUserGame.PlayerName u) s))
        as (s' & -> & Hwin & Hlose & Hrest).
      exists s'. split; [reflexivity|].
      unfold winners, losers in *. cbn [filter]. rewrite Hw. cbn [negb map].
      rewrite Hwin, Hlose. cbn. rewrite <- app_assoc. cbn.
      repeat split; try reflexivity; apply Hrest.
    + destruct (IH (add_loser (PostgresUserGame.PlayerName u) s))
        as (s' & -> & Hwin & Hlose & Hrest).
      exists s'. split; [reflexivity|].
      unfold winners, losers in *. cbn [filter]. rewrite Hw. cbn [negb map].
      rewrite Hwin, Hlose. cbn. rewrite <- app_assoc. cbn.
      repeat split; try reflexivity; apply Hrest.
Qed.

(** The statistics as they stand when the event loop is reached. *)
Lemma before_events (pgame : option PostgresGame.t) (us : list PostgresUserGame.t) :
  exists s0,
    users_loop (stats_win_role (stats_of_game pgame stats_init)) (map Some us) = Ok s0
    /\ WinPlayerNames s0 = winners us
    /\ LosePlayerNames s0 = losers us
    /\ WinType s0 = WinType (stats_of_game pgame stats_init)
    /\ WinRole s0 = WinRole (stats_win_role (stats_of_game pgame stats_init))
    /\ GameStartTime s0 = GameStartTime (stats_of_game pgame stats_init)
    /\ GameEndTime s0 = GameEndTime (stats_of_game pgame stats_init)
    /\ GameDuration s0 = GameDuration (stats_of_game pgame stats_init)
    /\ NumMeetings s0 = 0 /\ NumDeaths s0 = 0
    /\ NumVotedOff s0 = 0 /\ NumDisconnects s0 = 0
    /\ Events s0 = [].
Proof.
  destruct (users_loop_records (stats_win_role (stats_of_game pgame stats_init)) us)
    as (s0 & Hrun & Hw & Hl & Hst & Hen & Hdu & Hwt & Hwr & Hm & Hd & Hv & Hq & He).
  exists s0. split; [exact Hrun|].
  assert (Hkeep : forall s,
             WinPlayerNames (stats_win_role s) = WinPlayerNames s
             /\ LosePlayerNames (stats_win_role s) = LosePlayerNames s
             /\ WinType (stats_win_role s) = WinType s
             /\ GameStartTime (stats_win_role s) = GameStartTime s
             /\ GameEndTime (stats_win_role s) = GameEndTime s
             /\ GameDuration (stats_win_role s) = GameDuration s
             /\ NumMeetings (stats_win_role s) = NumMeetings s
             /\ NumDeaths (stats_win_role s) = NumDeaths s
             /\ NumVotedOff (stats_win_role s) = NumVotedOff s
             /\ NumDisconnects (stats_win_role s) = NumDisconnects s
             /\ Events (stats_win_role s) = Events s).
  { intros s. unfold stats_win_role. destruct (impostor_win (WinType s));
      repeat split. }
  destruct (Hkeep (stats_of_game pgame stats_init))
    as (Kw & Kl & Kwt & Kst & Ken & Kdu & Km & Kd & Kv & Kq & Ke).
  rewrite Hw, Hl, Hwt, Hwr, Hst, Hen, Hdu, Hm, Hd, Hv, Hq, He.
  rewrite Kw, Kl, Kwt, Kst, Ken, Kdu, Km, Kd, Kv, Kq, Ke.
  destruct pgame; cbn; repeat split.
Qed.

(** ** One pass of the event loop *)

Lemma isExiled_fold (name : string) (l : list string) (b : bool) :
  fold_left (fun (b : bool) (n : string) => if String.eqb n name then true else b) l b
  = b || existsb (fun n => String.eqb n name) l.
Proof.
  revert b. induction l as [|x l IH]; intros b; cbn.
  - now rewrite orb_false_r.
  - rewrite IH. destruct (String.eqb x name), b; reflexivity.
Qed.

Lemma isExiled_In (l : list string) (name : string) :
  isExiled l name = true <-> In name l.
Proof.
  unfold isExiled. rewrite isExiled_fold. cbn. rewrite existsb_exists. split.
  - intros (x & Hx & Heq). apply String.eqb_eq in Heq. now subst.
  - intros H. exists name. split; [exact H | apply String.eqb_refl].
Qed.

Lemma isExiled_not_In (l : list string) (name : string) :
  isExiled l name = false <-> ~ In name l.
Proof.
  rewrite <- isExiled_In. destruct (isExiled l name); split; congruence.
Qed.

Section Step.

Variable json_Unmarshal : string -> option game.Player.
Variable g : PostgresGame.t.


Lemma step_discuss s ex e :
  is_phase DiscussCode e = true ->
  event_step json_Unmarshal (Some g) (s, ex) (Some e) = Ok (append_event (entry_of g Discuss e) (incr_NumMeetings s), ex).
Proof.
  unfold is_phase. intros H. apply andb_true_iff in H as [Ht Hp].
  unfold event_step. cbn [deref bind]. rewrite Ht, Hp. reflexivity.
Qed.

Lemma step_tasks s ex e :
  is_phase TasksCode e = true ->
  event_step json_Unmarshal (Some g) (s, ex) (Some e) = Ok (append_event (entry_of g Tasks e) s, ex).
Proof.
  unfold is_phase. intros H. apply andb_true_iff in H as [Ht Hp].
  unfold event_step. cbn [deref bind]. rewrite Ht, Hp.
  apply String.eqb_eq in Hp. rewrite Hp. reflexivity.
Qed.

Lemma step_phase_other s ex e :
  PostgresGameEvent.EventType e = capture.State ->
  PostgresGameEvent.Payload e <> DiscussCode ->
  PostgresGameEvent.Payload e <> TasksCode ->
  event_step json_Unmarshal (Some g) (s, ex) (Some e) = Ok (s, ex).
Proof.
  intros Ht Hd Hk. unfold event_step. cbn [deref bind]. rewrite Ht.
  apply String.eqb_neq in Hd, Hk. rewrite Hd, Hk. reflexivity.
Qed.

Lemma name_with_action_inv a e n :
  name_with_action json_Unmarshal a e = Some n ->
  exists p,
    PostgresGameEvent.EventType e = capture.Player
    /\ json_Unmarshal (PostgresGameEvent.Payload e) = Some p
    /\ game.Action p = a /\ game.Name p = n.
Proof.
  unfold name_with_action, parsed_action. intros H.
  destruct (PostgresGameEvent.EventType e =? capture.Player) eqn:Ht; [|discriminate].
  destruct (json_Unmarshal (PostgresGameEvent.Payload e)) as [p|] eqn:Hj; [|discriminate].
  destruct (game.Action p =? a) eqn:Ha; [|discriminate].
  exists p. apply Z.eqb_eq in Ht, Ha. inversion H. auto.
Qed.

Lemma step_died s ex e n :
  died_name json_Unmarshal e = Some n ->
  event_step json_Unmarshal (Some g) (s, ex) (Some e)
  = Ok (if isExiled ex n then incr_NumDeaths s
        else append_event (entry_of g PlayerDeath e) (incr_NumDeaths s), ex).
Proof.
  intros H. apply name_with_action_inv in H as (p & Ht & Hj & Ha & Hn).
  unfold event_step. cbn [deref bind]. rewrite Ht, Hj, Ha, Hn. cbn.
  destruct (isExiled ex n); reflexivity.
Qed.

Lemma step_exiled s ex e n :
  exiled_name json_Unmarshal e = Some n ->
  event_step json_Unmarshal (Some g) (s, ex) (Some e)
  = Ok (append_event (entry_of g PlayerExiled e) (incr_NumVotedOff s), ex ++ [n]).
Proof.
  intros H. apply name_with_action_inv in H as (p & Ht & Hj & Ha & Hn).
  unfold event_step. cbn [deref bind]. rewrite Ht, Hj, Ha, Hn. reflexivity.
Qed.

Lemma step_disconnected s ex e n :
  disconnected_name json_Unmarshal e = Some n ->
  event_step json_Unmarshal (Some g) (s, ex) (Some e)
  = Ok (append_event (entry_of g PlayerDisconnect e) (incr_NumDisconnects s), ex).
Proof.
  intros H. apply name_with_action_inv in H as (p & Ht & Hj & Ha & Hn).
  unfold event_step. cbn [deref bind]. rewrite Ht, Hj, Ha. reflexivity.
Qed.

Lemma step_pass s ex e :
  exists st', event_step json_Unmarshal (Some g) (s, ex) (Some e) = Ok st' /\ pass json_Unmarshal g s ex e st'.
Proof.
  destruct (is_phase DiscussCode e) eqn:Hd.
  { eexists. split; [apply step_discuss; exact Hd | now constructor]. }
  destruct (is_phase TasksCode e) eqn:Hk.
  { eexists. split; [apply step_tasks; exact Hk | now constructor]. }
  destruct (died_name json_Unmarshal e) as [n|] eqn:Hdied.
  { rewrite (step_died s ex e n Hdied).
    destruct (isExiled ex n) eqn:Hx; eexists; (split; [reflexivity|]).
    - eapply pass_died_off; eauto. now apply isExiled_In.
    - eapply pass_died_on; eauto. now apply isExiled_not_In. }
  destruct (exiled_name json_Unmarshal e) as [n|] eqn:Hex.
  { eexists. split; [eapply step_exiled; exact Hex | eapply pass_exiled; eauto]. }
  destruct (disconnected_name json_Unmarshal e) as [n|] eqn:Hq.
  { eexists. split; [eapply step_disconnected; exact Hq |].
    eapply pass_disconnected; eauto. }
  exists (s, ex). split; [|now constructor].
  unfold is_phase, died_name, exiled_name, disconnected_name,
    name_with_action, parsed_action in *.
  unfold event_step. cbn [deref bind].
  destruct (PostgresGameEvent.EventType e =? capture.State) eqn:Ht.
  - cbn in Hd, Hk. rewrite Hd, Hk. reflexivity.
  - destruct (PostgresGameEvent.EventType e =? capture.Player); [|reflexivity].
    destruct (json_Unmarshal (PostgresGameEvent.Payload e)) as [p|]; [|reflexivity].
    destruct (game.Action p =? game.DIED); [discriminate|].
    destruct (game.Action p =? game.EXILED); [discriminate|].
    destruct (game.Action p =? game.DISCONNECTED); [discriminate|].
    reflexivity.
Qed.

End Step.

(** ** The whole event loop *)

Section Loop.

Variable json_Unmarshal : string -> option game.Player.
Variable g : PostgresGame.t.

Lemma phase_not_action code e a :
  is_phase code e = true -> name_with_action json_Unmarshal a e = None.
Proof.
  unfold is_phase, name_with_action, parsed_action. intros H.
  apply andb_true_iff in H as [Ht _]. apply Z.eqb_eq in Ht. rewrite Ht.
  reflexivity.
Qed.

Lemma actions_exclusive a b e n :
  a <> b ->
  name_with_action json_Unmarshal a e = Some n ->
  name_with_action json_Unmarshal b e = None.
Proof.
  unfold name_with_action. intros Hab H.
  destruct (parsed_action json_Unmarshal e) as [p|]; [|reflexivity].
  destruct (game.Action p =? a) eqn:Ha; [|discriminate].
  apply Z.eqb_eq in Ha.
  destruct (game.Action p =? b) eqn:Hb; [|reflexivity].
  apply Z.eqb_eq in Hb. congruence.
Qed.

Lemma same_header_refl s : same_header s s.
Proof. repeat split. Qed.

Lemma same_header_trans s1 s2 s3 :
  same_header s1 s2 -> same_header s2 s3 -> same_header s1 s3.
Proof.
  unfold same_header. intros (A1 & A2 & A3 & A4 & A5 & A6 & A7)
    (B1 & B2 & B3 & B4 & B5 & B6 & B7).
  repeat split; congruence.
Qed.

Lemma pass_summary s ex e s' ex' :
  pass json_Unmarshal g s ex e (s', ex') ->
  ex' = ex ++ exiled_names json_Unmarshal [e]
  /\ NumDeaths s' = NumDeaths s + Z.of_nat (count_died json_Unmarshal [e])
  /\ NumMeetings s' = NumMeetings s + Z.of_nat (count_discuss [e])
  /\ same_header s s'
  /\ appended json_Unmarshal g s e s'.
Proof.
  assert (Hne1 : game.DIED <> game.EXILED) by discriminate.
  unfold count_died, count_discuss. cbn [exiled_names filter].
  intros H.
  inversion H as [Hd | Hd Hk | n Hd Hdied Hin | n Hd Hdied Hnin
                 | n Hd Hdied Hex | n Hd Hdied Hex Hq | Hd Hk Hdied Hex Hq];
    subst; clear H; unfold died_name, exiled_name, disconnected_name in *.
  - rewrite (phase_not_action _ e game.EXILED Hd).
    rewrite (phase_not_action _ e game.DIED Hd), Hd.
    cbn. rewrite app_nil_r. repeat split; cbn; try lia.
    eapply appended_one; [reflexivity | discriminate].
  - rewrite (phase_not_action _ e game.EXILED Hk).
    rewrite (phase_not_action _ e game.DIED Hk), Hd.
    cbn. rewrite app_nil_r. repeat split; cbn; try lia.
    eapply appended_one; [reflexivity | discriminate].
  - rewrite (actions_exclusive _ _ e n Hne1 Hdied), Hdied, Hd.
    cbn. rewrite app_nil_r. repeat split; cbn; try lia. now apply appended_none.
  - rewrite (actions_exclusive _ _ e n Hne1 Hdied), Hdied, Hd.
    cbn. rewrite app_nil_r. repeat split; cbn; try lia.
    eapply appended_one; [reflexivity|]. intros _.
    unfold died_name. rewrite Hdied. reflexivity.
  - rewrite Hex, Hdied, Hd. cbn. repeat split; cbn; try lia.
    eapply appended_one; [reflexivity | discriminate].
  - rewrite Hex, Hdied, Hd. cbn. rewrite app_nil_r. repeat split; cbn; try lia.
    eapply appended_one; [reflexivity | discriminate].
  - rewrite Hex, Hdied, Hd. cbn. rewrite app_nil_r. repeat split; cbn; try lia.
    now apply appended_none.
Qed.

Lemma exiled_names_app l1 l2 :
  exiled_names json_Unmarshal (l1 ++ l2)
  = exiled_names json_Unmarshal l1 ++ exiled_names json_Unmarshal l2.
Proof.
  induction l1 as [|e l1 IH]; cbn; [reflexivity|].
  destruct (exiled_name json_Unmarshal e); cbn; now rewrite IH.
Qed.

Lemma count_died_app l1 l2 :
  count_died json_Unmarshal (l1 ++ l2)
  = (count_died json_Unmarshal l1 + count_died json_Unmarshal l2)%nat.
Proof. unfold count_died. now rewrite filter_app, length_app. Qed.

Lemma count_discuss_app l1 l2 :
  count_discuss (l1 ++ l2) = (count_discuss l1 + count_discuss l2)%nat.
Proof. unfold count_discuss. now rewrite filter_app, length_app. Qed.

Lemma count_kind_app k l1 l2 :
  count_kind k (l1 ++ l2) = (count_kind k l1 + count_kind k l2)%nat.
Proof. unfold count_kind. now rewrite filter_app, length_app. Qed.

Lemma events_loop_app pgame st l1 l2 :
  events_loop json_Unmarshal pgame st (l1 ++ l2)
  = (st' <- events_loop json_Unmarshal pgame st l1 ;;
     events_loop json_Unmarshal pgame st' l2).
Proof.
  revert st. induction l1 as [|ev l1 IH]; intros st; cbn [app events_loop bind].
  - reflexivity.
  - destruct (event_step json_Unmarshal pgame st ev); cbn [bind]; auto.
Qed.

Lemma events_loop_records evs : forall s ex,
  exists s' tl src,
    events_loop json_Unmarshal (Some g) (s, ex) (map Some evs)
    = Ok (s', ex ++ exiled_names json_Unmarshal evs)
    /\ NumDeaths s' = NumDeaths s + Z.of_nat (count_died json_Unmarshal evs)
    /\ NumMeetings s' = NumMeetings s + Z.of_nat (count_discuss evs)
    /\ same_header s s'
    /\ Events s' = Events s ++ tl
    /\ subseq src evs
    /\ entries_of g tl src
    /\ (count_kind PlayerDeath tl <= count_died json_Unmarshal evs)%nat.
Proof.
  induction evs as [|e evs IH]; intros s ex.
  - exists s, [], []. cbn. rewrite !app_nil_r.
    repeat split; try lia; try constructor.
  - destruct (step_pass json_Unmarshal g s ex e) as ([s1 ex1] & Hstep & Hpass).
    apply pass_summary in Hpass as (Hex & Hd & Hm & Hh & Happ).
    destruct (IH s1 ex1) as (s' & tl & src & Hrun & Hd' & Hm' & Hh' & Htl & Hsub & Hent & Hcnt).
    change (e :: evs) with ([e] ++ evs).
    rewrite exiled_names_app, count_died_app, count_discuss_app.
    cbn [map app events_loop]. rewrite Hstep. cbn [bind]. rewrite Hrun.
    destruct Happ as [Hnone | k Hone Hk].
    + exists s', tl, src. rewrite Hex, <- app_assoc.
      split; [reflexivity|]. split; [lia|]. split; [lia|].
      split; [eapply same_header_trans; eauto|].
      split; [rewrite Htl, Hnone; reflexivity|].
      split; [now apply subseq_skip|].
      split; [exact Hent|]. lia.
    + exists s', (entry_of g k e :: tl), (e :: src). rewrite Hex, <- app_assoc.
      split; [reflexivity|]. split; [lia|]. split; [lia|].
      split; [eapply same_header_trans; eauto|].
      split; [rewrite Htl, Hone, <- app_assoc; reflexivity|].
      split; [now apply subseq_take|].
      split; [constructor; [now exists k | exact Hent]|].
      change (entry_of g k e :: tl) with ([entry_of g k e] ++ tl).
      rewrite count_kind_app.
      assert (count_kind PlayerDeath [entry_of g k e]
              <= count_died json_Unmarshal [e])%nat; [|lia].
      unfold count_kind, count_died. cbn [filter EventType entry_of].
      destruct k; cbn; try lia.
      rewrite (Hk eq_refl). cbn. lia.
Qed.

End Loop.

(** ** The reducer as a whole *)

Section Reduce.

Variable json_Unmarshal : string -> option game.Player.

Lemma event_offset_nil v : event_offset None v = Panic.
Proof. reflexivity. Qed.

(** Whatever the match pointer and the event pointer are, a pass that
    returns leaves the fields written before the loop alone. *)
Lemma event_step_header pgame s ex ev s' ex' :
  event_step json_Unmarshal pgame (s, ex) ev = Ok (s', ex') -> same_header s s'.
Proof.
  unfold event_step, event_offset.
  destruct ev as [v|]; cbn [deref bind]; [|intros H; discriminate H].
  destruct pgame as [g|]; cbn [deref bind];
    repeat match goal with
      | |- context [if ?c then _ else _] => destruct c
      | |- context [match json_Unmarshal ?p with _ => _ end] =>
          destruct (json_Unmarshal p)
      end;
    intros H; inversion H; subst; repeat split.
Qed.

Lemma events_loop_header pgame events : forall s ex s' ex',
  events_loop json_Unmarshal pgame (s, ex) events = Ok (s', ex') -> same_header s s'.
Proof.
  induction events as [|ev events IH]; intros s ex s' ex' H;
    cbn [events_loop] in H.
  - inversion H. apply same_header_refl.
  - destruct (event_step json_Unmarshal pgame (s, ex) ev) as [[s1 ex1]|] eqn:Hs;
      cbn [bind] in H; [|discriminate H].
    eapply same_header_trans; [eapply event_step_header; eauto | eapply IH; eauto].
Qed.

Lemma reduce_short pgame events users :
  (List.length events < 2)%nat ->
  StatsFromGameAndEvents json_Unmarshal pgame events users
  = users_loop (stats_win_role (stats_of_game pgame stats_init)) users.
Proof.
  intros H. unfold StatsFromGameAndEvents.
  destruct (users_loop _ users); cbn [bind]; [|reflexivity].
  destruct (Z.ltb_spec (Z.of_nat (List.length events)) 2); [reflexivity | lia].
Qed.

Lemma reduce_long g evs us :
  (2 <= List.length evs)%nat ->
  StatsFromGameAndEvents json_Unmarshal (Some g) (map Some evs) (map Some us)
  = (st <- state_after json_Unmarshal g us evs ;; Ok (fst st)).
Proof.
  intros H. unfold StatsFromGameAndEvents, state_after.
  destruct (users_loop _ (map Some us)); cbn [bind]; [|reflexivity].
  rewrite length_map.
  destruct (Z.ltb_spec (Z.of_nat (List.length evs)) 2); [lia | reflexivity].
Qed.

(** With a match and records behind every pointer the reducer returns. *)
Lemma reduce_returns g evs us :
  exists st,
    StatsFromGameAndEvents json_Unmarshal (Some g) (map Some evs) (map Some us) = Ok st.
Proof.
  unfold StatsFromGameAndEvents.
  destruct (before_events (Some g) us) as (s0 & -> & _). cbn [bind].
  destruct (Z.of_nat (List.length (map Some evs)) <? 2); [now exists s0|].
  destruct (events_loop_records json_Unmarshal g evs s0 [])
    as (s' & tl & src & -> & _).
  cbn [bind fst]. now exists s'.
Qed.

(** The header of the result is the one built before the event loop. *)
Lemma reduce_header pgame events us st :
  StatsFromGameAndEvents json_Unmarshal pgame events (map Some us) = Ok st ->
  exists s0,
    users_loop (stats_win_role (stats_of_game pgame stats_init)) (map Some us) = Ok s0
    /\ same_header s0 st.
Proof.
  unfold StatsFromGameAndEvents.
  destruct (before_events pgame us) as (s0 & Hrun & _). rewrite Hrun. cbn [bind].
  intros H. exists s0. split; [reflexivity|].
  destruct (Z.of_nat (List.length events) <? 2).
  - inversion H. apply same_header_refl.
  - destruct (events_loop json_Unmarshal pgame (s0, []) events) as [[s' ex']|] eqn:Hl;
      cbn [bind fst] in H; [|discriminate H].
    inversion H; subst. eapply events_loop_header; eauto.
Qed.

(** A stream of fewer than two events gives a result with no timeline. *)
Lemma reduce_short_empty pgame events us :
  (List.length events < 2)%nat ->
  exists st,
    StatsFromGameAndEvents json_Unmarshal pgame events (map Some us) = Ok st
    /\ Events st = [].
Proof.
  intros H. rewrite reduce_short by exact H.
  destruct (before_events pgame us) as (s0 & Hrun & Hrest).
  exists s0. split; [exact Hrun|].
  repeat (destruct Hrest as (_ & Hrest)). exact Hrest.
Qed.

End Reduce.

(** ** The state of the scan after a prefix of the events *)

Section Scan.

Variable json_Unmarshal : string -> option game.Player.
Variable g : PostgresGame.t.
Variable us : list PostgresUserGame.t.

Lemma state_after_app l1 l2 :
  state_after json_Unmarshal g us (l1 ++ l2)
  = (st <- state_after json_Unmarshal g us l1 ;;
     events_loop json_Unmarshal (Some g) st (map Some l2)).
Proof.
  unfold state_after.
  destruct (users_loop _ (map Some us)); cbn [bind]; [|reflexivity].
  now rewrite map_app, events_loop_app.
Qed.

Lemma state_after_snoc pre e :
  state_after json_Unmarshal g us (pre ++ [e])
  = (st <- state_after json_Unmarshal g us pre ;;
     event_step json_Unmarshal (Some g) st (Some e)).
Proof.
  rewrite state_after_app.
  destruct (state_after json_Unmarshal g us pre); cbn [bind map events_loop];
    [|reflexivity].
  destruct (event_step json_Unmarshal (Some g) a (Some e)); reflexivity.
Qed.

Lemma state_after_records evs :
  exists s src,
    state_after json_Unmarshal g us evs = Ok (s, exiled_names json_Unmarshal evs)
    /\ NumDeaths s = Z.of_nat (count_died json_Unmarshal evs)
    /\ NumMeetings s = Z.of_nat (count_discuss evs)
    /\ WinPlayerNames s = winners us /\ LosePlayerNames s = losers us
    /\ subseq src evs
    /\ entries_of g (Events s) src
    /\ (count_kind PlayerDeath (Events s) <= count_died json_Unmarshal evs)%nat.
Proof.
  unfold state_after.
  destruct (before_events (Some g) us)
    as (s0 & -> & Hw & Hl & _ & _ & _ & _ & _ & Hm & Hd & _ & _ & He).
  cbn [bind].
  destruct (events_loop_records json_Unmarshal g evs s0 [])
    as (s & tl & src & Hrun & Hd' & Hm' & Hh & Htl & Hsub & Hent & Hcnt).
  cbn [app] in Hrun. rewrite He in Htl. cbn [app] in Htl.
  destruct Hh as (_ & _ & _ & _ & _ & Hw' & Hl').
  exists s, src. rewrite Htl.
  repeat split; try assumption; try congruence; lia.
Qed.

Lemma In_exiled_names n evs :
  In n (exiled_names json_Unmarshal evs) ->
  exists x, In x evs /\ exiled_name json_Unmarshal x = Some n.
Proof.
  induction evs as [|e evs IH]; cbn; [tauto|].
  destruct (exiled_name json_Unmarshal e) as [m|] eqn:He.
  - intros [<-|H]; [exists e; auto|].
    destruct (IH H) as (x & Hx & Hn). exists x; auto.
  - intros H. destruct (IH H) as (x & Hx & Hn). exists x; auto.
Qed.

End Scan.

Lemma subseq_nil_l {A : Type} (l : list A) : subseq [] l.
Proof. induction l; constructor; assumption. Qed.





(** * Properties of the reducer *)

(** C3.  With fewer than two events, whatever they are (nil pointers
    included) and whether or not there is a match, the reducer returns
    with an empty timeline and the four counters at zero; the outcome
    records are still split into winner and loser names. *)
Theorem short_event_stream_returns_early
  (json_Unmarshal : string -> option game.Player)
  (pgame : option PostgresGame.t) (events : list (option PostgresGameEvent.t))
  (us : list PostgresUserGame.t) :
  (List.length events < 2)%nat ->
  exists st,
    StatsFromGameAndEvents json_Unmarshal pgame events (map Some us) = Ok st
    /\ Events st = []
    /\ NumMeetings st = 0 /\ NumDeaths st = 0
    /\ NumVotedOff st = 0 /\ NumDisconnects st = 0
    /\ WinPlayerNames st = winners us
    /\ LosePlayerNames st = losers us.
Proof.
  intros Hshort. rewrite reduce_short by exact Hshort.
  destruct (before_events pgame us)
    as (s0 & Hrun & Hw & Hl & _ & _ & _ & _ & _ & Hm & Hd & Hv & Hq & He).
  exists s0. split; [exact Hrun|].
  split; [exact He|]. split; [exact Hm|]. split; [exact Hd|].
  split; [exact Hv|]. split; [exact Hq|]. split; [exact Hw | exact Hl].
Qed.

Lemma short_event_stream_returns_early_witness :
  (List.length [Some (Sample.action_at 1020 "DAlice")] < 2)%nat
  /\ exists st,
       StatsFromGameAndEvents Sample.decode (Some Sample.match1)
         [Some (Sample.action_at 1020 "DAlice")]
         (map Some [Sample.outcome "Alice" false; Sample.outcome "Bob" true]) = Ok st
       /\ Events st = []
       /\ NumMeetings st = 0 /\ NumDeaths st = 0
       /\ NumVotedOff st = 0 /\ NumDisconnects st = 0
       /\ WinPlayerNames st
          = winners [Sample.outcome "Alice" false; Sample.outcome "Bob" true]
       /\ LosePlayerNames st
          = losers [Sample.outcome "Alice" false; Sample.outcome "Bob" true].
Proof.
  split; [cbn; lia|].
  apply (short_event_stream_returns_early Sample.decode (Some Sample.match1)
           [Some (Sample.action_at 1020 "DAlice")]
           [Sample.outcome "Alice" false; Sample.outcome "Bob" true]).
  cbn; lia.
Defined.

Lemma winners_losers_permutation (us : list PostgresUserGame.t) :
  Permutation (winners us ++ losers us) (map PostgresUserGame.PlayerName us).
Proof.
  unfold winners, losers. induction us as [|u us IH]; cbn; [constructor|].
  destruct (PostgresUserGame.PlayerWon u); cbn.
  - now constructor.
  - rewrite <- Permutation_middle. now constructor.
Qed.

(** C4.  The winner names are the names of the records with the win
    flag set and the loser names those of the records with the flag
    clear, each in the order of the input; every record gives its name to
    exactly one of the two lists.  This holds of every result the reducer
    returns, and with a match and event records it does return. *)
Theorem names_partition_outcomes
  (json_Unmarshal : string -> option game.Player) (us : list PostgresUserGame.t) :
  (forall pgame events st,
      StatsFromGameAndEvents json_Unmarshal pgame events (map Some us) = Ok st ->
      WinPlayerNames st
      = map PostgresUserGame.PlayerName (filter PostgresUserGame.PlayerWon us)
      /\ LosePlayerNames st
         = map PostgresUserGame.PlayerName
             (filter (fun u => negb (PostgresUserGame.PlayerWon u)) us))
  /\ (forall g evs, exists st,
         StatsFromGameAndEvents json_Unmarshal (Some g) (map Some evs) (map Some us)
         = Ok st)
  /\ Permutation (winners us ++ losers us) (map PostgresUserGame.PlayerName us)
  /\ (List.length (winners us) + List.length (losers us) = List.length us)%nat.
Proof.
  split; [|split; [|split]].
  - intros pgame events st H.
    apply reduce_header in H as (s0 & Hrun & Hh).
    destruct (before_events pgame us) as (s0' & Hrun' & Hw & Hl & _).
    rewrite Hrun in Hrun'. inversion Hrun'; subst s0'.
    destruct Hh as (_ & _ & _ & _ & _ & Hw' & Hl').
    rewrite Hw', Hl'. split; assumption.
  - intros g evs. apply reduce_returns.
  - apply winners_losers_permutation.
  - rewrite <- length_app, <- (length_map PostgresUserGame.PlayerName us).
    apply Permutation_length, winners_losers_permutation.
Qed.

Lemma names_partition_outcomes_witness :
  let us := [Sample.outcome "Alice" false; Sample.outcome "Bob" true;
             Sample.outcome "Carol" false] in
  let st := mkGameStatistics TimeZero TimeZero 0 game.Unknown game.CrewmateRole
              ["Bob"] ["Alice"; "Carol"] 0 0 0 0 [] in
  StatsFromGameAndEvents Sample.decode None [None] (map Some us) = Ok st
  /\ WinPlayerNames st = ["Bob"]
  /\ LosePlayerNames st = ["Alice"; "Carol"].
Proof.
  intros us st. split; [vm_compute; reflexivity|].
  apply (proj1 (names_partition_outcomes Sample.decode us) None [None] st).
  vm_compute. reflexivity.
Defined.

(** The role the reducer derives from the win condition it has stored. *)
Lemma reduce_win_role (json_Unmarshal : string -> option game.Player)
  (g : PostgresGame.t) (evs : list PostgresGameEvent.t)
  (us : list PostgresUserGame.t) :
  exists st,
    StatsFromGameAndEvents json_Unmarshal (Some g) (map Some evs) (map Some us) = Ok st
    /\ WinType st = PostgresGame.WinType g
    /\ WinRole st = (if impostor_win (PostgresGame.WinType g)
                     then game.ImposterRole else game.CrewmateRole).
Proof.
  destruct (reduce_returns json_Unmarshal g evs us) as (st & Hst).
  exists st. split; [exact Hst|].
  apply reduce_header in Hst as (s0 & Hrun & Hh).
  destruct (before_events (Some g) us) as (s0' & Hrun' & _ & _ & Hwt & Hwr & _).
  rewrite Hrun in Hrun'. inversion Hrun'; subst s0'.
  destruct Hh as (_ & _ & _ & Hwt' & Hwr' & _).
  rewrite Hwt', Hwr', Hwt, Hwr. cbn [stats_of_game set_game WinType].
  split; [reflexivity|].
  unfold stats_win_role. cbn [WinType set_game].
  destruct (impostor_win (PostgresGame.WinType g)); reflexivity.
Qed.

(** C7.  The reducer assigns a winning faction to every win code: the
    codes 0, 1 and 6 give the crewmates, the codes 2, 3, 4 and 5 the
    imposters and no other code does, and [Unknown] gives the crewmates;
    so does a reduction without a match, whose win condition is
    [Unknown]. *)
Theorem win_code_to_faction
  (json_Unmarshal : string -> option game.Player)
  (g : PostgresGame.t) (evs : list PostgresGameEvent.t)
  (us : list PostgresUserGame.t) :
  (exists st,
      StatsFromGameAndEvents json_Unmarshal (Some g) (map Some evs) (map Some us) = Ok st
      /\ (In (PostgresGame.WinType g) [0; 1; 6] -> WinRole st = game.CrewmateRole)
      /\ (In (PostgresGame.WinType g) [2; 3; 4; 5] -> WinRole st = game.ImposterRole)
      /\ (PostgresGame.WinType g = game.Unknown -> WinRole st = game.CrewmateRole)
      /\ (WinRole st = game.ImposterRole <-> 2 <= PostgresGame.WinType g <= 5)
      /\ (WinRole st = game.CrewmateRole <-> ~ 2 <= PostgresGame.WinType g <= 5))
  /\ (exists st,
         StatsFromGameAndEvents json_Unmarshal None [] (map Some us) = Ok st
         /\ WinType st = game.Unknown /\ WinRole st = game.CrewmateRole).
Proof.
  split.
  - destruct (reduce_win_role json_Unmarshal g evs us) as (st & Hst & _ & Hr).
    exists st. split; [exact Hst|]. rewrite Hr. clear Hst Hr.
    unfold impostor_win, game.ImpostorDisconnect, game.ImpostorBySabotage,
      game.ImpostorByVote, game.ImpostorByKill, game.Unknown.
    set (c := PostgresGame.WinType g).
    destruct (Z.eqb_spec c 5), (Z.eqb_spec c 4), (Z.eqb_spec c 2), (Z.eqb_spec c 3);
      cbn [orb In]; repeat split; intros; try reflexivity; try lia;
      try discriminate.
  - destruct (reduce_short_empty json_Unmarshal None [] us)
      as (st & Hst & _); [cbn; lia|].
    exists st. split; [exact Hst|].
    apply reduce_header in Hst as (s0 & Hrun & Hh).
    destruct (before_events None us) as (s0' & Hrun' & _ & _ & Hwt & Hwr & _).
    rewrite Hrun in Hrun'. inversion Hrun'; subst s0'.
    destruct Hh as (_ & _ & _ & Hwt' & Hwr' & _).
    rewrite Hwt', Hwr', Hwt, Hwr. split; reflexivity.
Qed.

Lemma win_code_to_faction_witness :
  exists st,
    StatsFromGameAndEvents Sample.decode (Some Sample.match1) (map Some [])
      (map Some []) = Ok st
    /\ WinRole st = game.CrewmateRole.
Proof.
  destruct (proj1 (win_code_to_faction Sample.decode Sample.match1 [] []))
    as (st & Hst & Hcrew & _).
  exists st. split; [exact Hst|].
  apply Hcrew. cbn. right. left. reflexivity.
Defined.

(** The win codes one by one. *)
Example win_roles_by_code :
  map (fun c =>
         match StatsFromGameAndEvents Sample.decode
                 (Some (PostgresGame.mk 7 1 "ABCD" 1000 c 1100)) [] [] with
         | Ok st => Some (WinRole st)
         | Panic => None
         end) [0; 1; 2; 3; 4; 5; 6; 7]
  = map Some [game.CrewmateRole; game.CrewmateRole; game.ImposterRole;
              game.ImposterRole; game.ImposterRole; game.ImposterRole;
              game.CrewmateRole; game.CrewmateRole].
Proof. vm_compute. reflexivity. Qed.




(** ** A reduction without a match *)

Lemma event_step_nil_match (json_Unmarshal : string -> option game.Player)
  (s : GameStatistics) (e : PostgresGameEvent.t) :
  event_step json_Unmarshal None (s, []) (Some e)
  = if timeline_event json_Unmarshal e then Panic else Ok (s, []).
Proof.
  unfold timeline_event, is_phase, died_name, exiled_name, disconnected_name,
    name_with_action, parsed_action, event_step, event_offset.
  cbn [deref bind isExiled fold_left].
  destruct (PostgresGameEvent.EventType e =? capture.State) eqn:Ht.
  - apply Z.eqb_eq in Ht. rewrite Ht. cbn.
    destruct (String.eqb (PostgresGameEvent.Payload e) DiscussCode); [reflexivity|].
    destruct (String.eqb (PostgresGameEvent.Payload e) TasksCode); reflexivity.
  - cbn [andb orb].
    destruct (PostgresGameEvent.EventType e =? capture.Player); [|reflexivity].
    destruct (json_Unmarshal (PostgresGameEvent.Payload e)) as [p|]; [|reflexivity].
    destruct (game.Action p =? game.DIED); [reflexivity|].
    destruct (game.Action p =? game.EXILED); [reflexivity|].
    destruct (game.Action p =? game.DISCONNECTED); reflexivity.
Qed.

Lemma events_loop_nil_match (json_Unmarshal : string -> option game.Player)
  (s : GameStatistics) (evs : list PostgresGameEvent.t) :
  events_loop json_Unmarshal None (s, []) (map Some evs)
  = if existsb (timeline_event json_Unmarshal) evs then Panic else Ok (s, []).
Proof.
  induction evs as [|e evs IH]; cbn [map events_loop existsb]; [reflexivity|].
  rewrite event_step_nil_match.
  destruct (timeline_event json_Unmarshal e); cbn [bind orb]; [reflexivity | exact IH].
Qed.

(** C2 fails on the code.  Without a match ([pgame] nil) the statistics
    do start from the zero times, the zero duration and [Unknown], and the
    outcome records are split; but with two or more events the loop body
    reads [pgame.StartTime] for every timeline entry, so the first event
    that would give an entry makes the reducer panic. *)
Theorem nil_match_panics_on_timeline_event
  (json_Unmarshal : string -> option game.Player)
  (evs : list PostgresGameEvent.t) (us : list PostgresUserGame.t) :
  (2 <= List.length evs)%nat ->
  existsb (timeline_event json_Unmarshal) evs = true ->
  StatsFromGameAndEvents json_Unmarshal None (map Some evs) (map Some us) = Panic.
Proof.
  intros Hlen Hev. unfold StatsFromGameAndEvents.
  destruct (before_events None us) as (s0 & -> & _). cbn [bind].
  rewrite length_map.
  destruct (Z.ltb_spec (Z.of_nat (List.length evs)) 2); [lia|].
  rewrite events_loop_nil_match, Hev. reflexivity.
Qed.

Lemma nil_match_panics_on_timeline_event_witness :
  (2 <= List.length [Sample.state_at 1010 DiscussCode;
                     Sample.state_at 1020 TasksCode])%nat
  /\ existsb (timeline_event Sample.decode)
       [Sample.state_at 1010 DiscussCode; Sample.state_at 1020 TasksCode] = true
  /\ StatsFromGameAndEvents Sample.decode None
       (map Some [Sample.state_at 1010 DiscussCode; Sample.state_at 1020 TasksCode])
       (map Some []) = Panic.
Proof.
  split; [cbn; lia|]. split; [reflexivity|].
  apply (nil_match_panics_on_timeline_event Sample.decode
           [Sample.state_at 1010 DiscussCode; Sample.state_at 1020 TasksCode] []).
  - cbn; lia.
  - reflexivity.
Defined.

(** What does hold without a match: when no event would give a timeline
    entry the reducer returns the defaults and the split of the outcome
    records. *)
Lemma nil_match_defaults
  (json_Unmarshal : string -> option game.Player)
  (evs : list PostgresGameEvent.t) (us : list PostgresUserGame.t) :
  existsb (timeline_event json_Unmarshal) evs = false ->
  StatsFromGameAndEvents json_Unmarshal None (map Some evs) (map Some us)
  = Ok (mkGameStatistics TimeZero TimeZero 0 game.Unknown game.CrewmateRole
          (winners us) (losers us) 0 0 0 0 []).
Proof.
  intros Hev. unfold StatsFromGameAndEvents.
  destruct (before_events None us)
    as (s0 & -> & Hw & Hl & Hwt & Hwr & Hst & Hen & Hdu & Hm & Hd & Hv & Hq & He).
  cbn [bind].
  assert (Hs0 : s0 = mkGameStatistics TimeZero TimeZero 0 game.Unknown
                       game.CrewmateRole (winners us) (losers us) 0 0 0 0 []).
  { destruct s0. cbn in *. subst. reflexivity. }
  destruct (Z.of_nat (List.length (map Some evs)) <? 2); [now rewrite Hs0|].
  rewrite events_loop_nil_match, Hev. cbn. now rewrite Hs0.
Qed.

(** ** Deaths *)

(** C1, as amended.  For a match and a stream of at least two events
    the death counter is the number of player-action events that decode
    with action [DIED], suppressed or not, and the timeline holds at most
    that many [PlayerDeath] entries.  At every such event of the stream the
    scan has reached a state whose eliminated set holds the names exiled so
    far; the event adds one to the counter, and it adds a [PlayerDeath]
    entry exactly when its player is not in that set. *)
Theorem death_counter_counts_every_death
  (json_Unmarshal : string -> option game.Player)
  (g : PostgresGame.t) (evs : list PostgresGameEvent.t)
  (us : list PostgresUserGame.t) :
  (2 <= List.length evs)%nat ->
  exists st,
    StatsFromGameAndEvents json_Unmarshal (Some g) (map Some evs) (map Some us) = Ok st
    /\ NumDeaths st = Z.of_nat (count_died json_Unmarshal evs)
    /\ Z.of_nat (count_kind PlayerDeath (Events st)) <= NumDeaths st
    /\ forall pre e post n,
         evs = pre ++ e :: post ->
         died_name json_Unmarshal e = Some n ->
         exists s ex,
           state_after json_Unmarshal g us pre = Ok (s, ex)
           /\ ex = exiled_names json_Unmarshal pre
           /\ (In n ex ->
               state_after json_Unmarshal g us (pre ++ [e])
               = Ok (incr_NumDeaths s, ex))
           /\ (~ In n ex ->
               state_after json_Unmarshal g us (pre ++ [e])
               = Ok (append_event
                       (mkSimpleEvent PlayerDeath
                          (seconds_between (PostgresGameEvent.EventTime e)
                             (PostgresGame.StartTime g))
                          (PostgresGameEvent.Payload e))
                       (incr_NumDeaths s), ex)).
Proof.
  intros Hlen. rewrite reduce_long by exact Hlen.
  destruct (state_after_records json_Unmarshal g us evs)
    as (st & src & Hrun & Hd & _ & _ & _ & _ & _ & Hcnt).
  exists st. rewrite Hrun. cbn [bind fst].
  split; [reflexivity|]. split; [exact Hd|]. split; [lia|].
  intros pre e post n _ Hdied.
  destruct (state_after_records json_Unmarshal g us pre) as (s & src' & Hpre & _).
  exists s, (exiled_names json_Unmarshal pre).
  split; [exact Hpre|]. split; [reflexivity|].
  rewrite state_after_snoc, Hpre. cbn [bind].
  rewrite (step_died json_Unmarshal g s _ e n Hdied).
  split; intros Hin.
  - apply isExiled_In in Hin. now rewrite Hin.
  - apply isExiled_not_In in Hin. now rewrite Hin.
Qed.

Lemma death_counter_counts_every_death_witness :
  let evs := [Sample.action_at 1020 "XAlice"; Sample.action_at 1030 "DAlice";
              Sample.action_at 1040 "DBob"] in
  (2 <= List.length evs)%nat
  /\ exists st,
       StatsFromGameAndEvents Sample.decode (Some Sample.match1) (map Some evs)
         (map Some []) = Ok st
       /\ NumDeaths st = 2
       /\ Z.of_nat (count_kind PlayerDeath (Events st)) <= NumDeaths st.
Proof.
  intros evs. split; [cbn; lia|].
  destruct (death_counter_counts_every_death Sample.decode Sample.match1 evs [])
    as (st & Hst & Hd & Hle & _); [cbn; lia|].
  exists st. split; [exact Hst|]. split; [exact Hd | exact Hle].
Defined.

(** C1, as stated, fails: a stream of one event, a death that decodes,
    leaves the death counter at zero. *)
Lemma single_death_is_not_counted :
  exists st,
    StatsFromGameAndEvents Sample.decode (Some Sample.match1)
      [Some (Sample.action_at 1020 "DAlice")] [] = Ok st
    /\ count_died Sample.decode [Sample.action_at 1020 "DAlice"] = 1%nat
    /\ NumDeaths st = 0
    /\ NumDeaths st
       <> Z.of_nat (count_died Sample.decode [Sample.action_at 1020 "DAlice"]).
Proof.
  eexists. split; [vm_compute; reflexivity|].
  split; [reflexivity|]. split; [reflexivity|]. discriminate.
Qed.

(** ** Phase-state events *)

(** C5.  When the scan of a match's events reaches a phase-state event:
    the discussion code adds one to the meeting counter and appends a
    [Discuss] entry; the tasks code appends a [Tasks] entry and changes no
    counter; any other code changes nothing.  The eliminated set is left as
    it is in the three cases, and when the event ends a stream of at least
    two events the statistics reached are the reducer's result. *)
Theorem phase_state_event_effect
  (json_Unmarshal : string -> option game.Player)
  (g : PostgresGame.t) (us : list PostgresUserGame.t)
  (pre : list PostgresGameEvent.t) (e : PostgresGameEvent.t)
  (s : GameStatistics) (ex : list string) :
  state_after json_Unmarshal g us pre = Ok (s, ex) ->
  PostgresGameEvent.EventType e = capture.State ->
  let offset := seconds_between (PostgresGameEvent.EventTime e)
                  (PostgresGame.StartTime g) in
  let s' :=
    if String.eqb (PostgresGameEvent.Payload e) DiscussCode then
      mkGameStatistics (GameStartTime s) (GameEndTime s) (GameDuration s)
        (WinType s) (WinRole s) (WinPlayerNames s) (LosePlayerNames s)
        (NumMeetings s + 1) (NumDeaths s) (NumVotedOff s) (NumDisconnects s)
        (Events s ++ [mkSimpleEvent Discuss offset ""])
    else if String.eqb (PostgresGameEvent.Payload e) TasksCode then
      mkGameStatistics (GameStartTime s) (GameEndTime s) (GameDuration s)
        (WinType s) (WinRole s) (WinPlayerNames s) (LosePlayerNames s)
        (NumMeetings s) (NumDeaths s) (NumVotedOff s) (NumDisconnects s)
        (Events s ++ [mkSimpleEvent Tasks offset ""])
    else s in
  state_after json_Unmarshal g us (pre ++ [e]) = Ok (s', ex)
  /\ ((1 <= List.length pre)%nat ->
      StatsFromGameAndEvents json_Unmarshal (Some g) (map Some (pre ++ [e]))
        (map Some us) = Ok s').
Proof.
  intros Hpre Ht offset s'.
  assert (Hstep : state_after json_Unmarshal g us (pre ++ [e]) = Ok (s', ex)).
  { rewrite state_after_snoc, Hpre. cbn [bind]. subst s' offset.
    destruct (String.eqb (PostgresGameEvent.Payload e) DiscussCode) eqn:Hd.
    - apply step_discuss. unfold is_phase. rewrite Ht, Hd. reflexivity.
    - destruct (String.eqb (PostgresGameEvent.Payload e) TasksCode) eqn:Hk.
      + apply step_tasks. unfold is_phase. rewrite Ht, Hk. reflexivity.
      + apply step_phase_other; [exact Ht | |]; now apply String.eqb_neq. }
  split; [exact Hstep|].
  intros Hlen. rewrite reduce_long, Hstep; [reflexivity|].
  rewrite length_app. cbn. lia.
Qed.

Lemma phase_state_event_effect_witness :
  let pre := [Sample.action_at 1005 "DBob"] in
  let e := Sample.state_at 1010 DiscussCode in
  let s := mkGameStatistics (TimeUnix 1000) (TimeUnix 1100) (100 * Second) 1
             game.CrewmateRole [] [] 0 1 0 0
             [mkSimpleEvent PlayerDeath (5 * Second) "DBob"] in
  let s' := mkGameStatistics (TimeUnix 1000) (TimeUnix 1100) (100 * Second) 1
              game.CrewmateRole [] [] 1 1 0 0
              [mkSimpleEvent PlayerDeath (5 * Second) "DBob";
               mkSimpleEvent Discuss (10 * Second) ""] in
  state_after Sample.decode Sample.match1 [] pre = Ok (s, [])
  /\ PostgresGameEvent.EventType e = capture.State
  /\ state_after Sample.decode Sample.match1 [] (pre ++ [e]) = Ok (s', [])
  /\ StatsFromGameAndEvents Sample.decode (Some Sample.match1)
       (map Some (pre ++ [e])) (map Some []) = Ok s'.
Proof.
  intros pre e s s'.
  assert (Hpre : state_after Sample.decode Sample.match1 [] pre = Ok (s, []))
    by (vm_compute; reflexivity).
  assert (Ht : PostgresGameEvent.EventType e = capture.State) by reflexivity.
  split; [exact Hpre|]. split; [exact Ht|].
  destruct (phase_state_event_effect Sample.decode Sample.match1 [] pre e s []
              Hpre Ht) as [H1 H2].
  split; [exact H1|]. apply H2. cbn; lia.
Defined.

(** ** Time offsets *)

(** Every entry of the timeline comes from an event of the stream, in
    the order of the stream, and carries the offset the loop body computes
    for that event. *)
Lemma timeline_sources
  (json_Unmarshal : string -> option game.Player)
  (g : PostgresGame.t) (evs : list PostgresGameEvent.t)
  (us : list PostgresUserGame.t) :
  exists st src,
    StatsFromGameAndEvents json_Unmarshal (Some g) (map Some evs) (map Some us) = Ok st
    /\ subseq src evs
    /\ entries_of g (Events st) src.
Proof.
  destruct (le_lt_dec 2 (List.length evs)) as [Hlen | Hlen].
  - rewrite reduce_long by exact Hlen.
    destruct (state_after_records json_Unmarshal g us evs)
      as (st & src & Hrun & _ & _ & _ & _ & Hsub & Hent & _).
    exists st, src. rewrite Hrun. cbn [bind fst]. auto.
  - destruct (reduce_short_empty json_Unmarshal (Some g)
                (map Some evs) us) as (st & Hst & He).
    { now rewrite length_map. }
    exists st, []. rewrite He. split; [exact Hst|].
    split; [apply subseq_nil_l | constructor].
Qed.




(** ** The eliminated set *)

(** C10.  The eliminated set after any prefix of the stream is the
    list of the names of its events that decode with action [EXILED]; a
    pass over an event that decodes with [DIED] or [DISCONNECTED], or over
    any event that does not decode with [EXILED], leaves the set as it is.
    Hence in a stream of at least two events every event that decodes with
    [DIED] for a name that no earlier event exiled gets its own
    [PlayerDeath] entry, placed after the entries of the events before it,
    whatever deaths or disconnections of that player came before. *)
Theorem only_exile_fills_eliminated_set
  (json_Unmarshal : string -> option game.Player)
  (g : PostgresGame.t) (us : list PostgresUserGame.t) :
  (forall evs, exists s,
      state_after json_Unmarshal g us evs
      = Ok (s, exiled_names json_Unmarshal evs))
  /\ (forall s ex e s' ex',
         event_step json_Unmarshal (Some g) (s, ex) (Some e) = Ok (s', ex') ->
         (exiled_name json_Unmarshal e = None -> ex' = ex)
         /\ (forall n, died_name json_Unmarshal e = Some n -> ex' = ex)
         /\ (forall n, disconnected_name json_Unmarshal e = Some n -> ex' = ex)
         /\ (forall n, exiled_name json_Unmarshal e = Some n -> ex' = ex ++ [n]))
  /\ (forall pre e post n,
         (2 <= List.length (pre ++ e :: post))%nat ->
         died_name json_Unmarshal e = Some n ->
         (forall x, In x pre -> exiled_name json_Unmarshal x <> Some n) ->
         exists s ex st rest,
           state_after json_Unmarshal g us pre = Ok (s, ex)
           /\ ~ In n ex
           /\ StatsFromGameAndEvents json_Unmarshal (Some g)
                (map Some (pre ++ e :: post)) (map Some us) = Ok st
           /\ Events st
              = Events s
                ++ mkSimpleEvent PlayerDeath
                     (seconds_between (PostgresGameEvent.EventTime e)
                        (PostgresGame.StartTime g))
                     (PostgresGameEvent.Payload e)
                   :: rest).
Proof.
  assert (Hde : game.DIED <> game.EXILED) by discriminate.
  assert (Hqe : game.DISCONNECTED <> game.EXILED) by discriminate.
  split; [|split].
  - intros evs.
    destruct (state_after_records json_Unmarshal g us evs) as (s & src & Hrun & _).
    now exists s.
  - intros s ex e s' ex' Hstep.
    destruct (step_pass json_Unmarshal g s ex e) as ([s1 ex1] & Hstep' & Hpass).
    rewrite Hstep in Hstep'. inversion Hstep'; subst s1 ex1. clear Hstep'.
    apply pass_summary in Hpass as (Hex & _). cbn [exiled_names] in Hex.
    assert (Hnone : exiled_name json_Unmarshal e = None -> ex' = ex).
    { intros Hn. rewrite Hn, app_nil_r in Hex. exact Hex. }
    split; [exact Hnone|]. split; [|split].
    + intros n Hn. apply Hnone.
      exact (actions_exclusive json_Unmarshal _ _ e n Hde Hn).
    + intros n Hn. apply Hnone.
      exact (actions_exclusive json_Unmarshal _ _ e n Hqe Hn).
    + intros n Hn. rewrite Hn in Hex. exact Hex.
  - intros pre e post n Hlen Hdied Hpre.
    destruct (state_after_records json_Unmarshal g us pre) as (s & src & Hrun & _).
    assert (Hnin : ~ In n (exiled_names json_Unmarshal pre)).
    { intros Hin. apply In_exiled_names in Hin as (x & Hx & Hxn).
      exact (Hpre x Hx Hxn). }
    set (s2 := append_event (entry_of g PlayerDeath e) (incr_NumDeaths s)).
    destruct (events_loop_records json_Unmarshal g post s2
                (exiled_names json_Unmarshal pre))
      as (st & tl & src' & Hpost & _ & _ & _ & Htl & _).
    exists s, (exiled_names json_Unmarshal pre), st, tl.
    split; [exact Hrun|]. split; [exact Hnin|].
    rewrite reduce_long by exact Hlen.
    change (pre ++ e :: post) with (pre ++ [e] ++ post).
    rewrite app_assoc, state_after_app, state_after_snoc, Hrun. cbn [bind].
    rewrite (step_died json_Unmarshal g s _ e n Hdied).
    apply isExiled_not_In in Hnin. rewrite Hnin. cbn [bind].
    fold s2. rewrite Hpost. cbn [bind fst].
    split; [reflexivity|].
    rewrite Htl. subst s2. cbn [append_event Events incr_NumDeaths entry_of].
    now rewrite <- app_assoc.
Qed.

Lemma only_exile_fills_eliminated_set_witness :
  let pre := [Sample.action_at 1010 "QAlice"; Sample.action_at 1020 "DAlice"] in
  let e := Sample.action_at 1030 "DAlice" in
  (2 <= List.length (pre ++ e :: []))%nat
  /\ died_name Sample.decode e = Some "Alice"
  /\ (forall x, In x pre -> exiled_name Sample.decode x <> Some "Alice")
  /\ exists s ex st rest,
       state_after Sample.decode Sample.match1 [] pre = Ok (s, ex)
       /\ ~ In "Alice" ex
       /\ StatsFromGameAndEvents Sample.decode (Some Sample.match1)
            (map Some (pre ++ e :: [])) (map Some []) = Ok st
       /\ Events st
          = Events s ++ mkSimpleEvent PlayerDeath (30 * Second) "DAlice" :: rest.
Proof.
  intros pre e.
  assert (Hlen : (2 <= List.length (pre ++ e :: []))%nat) by (cbn; lia).
  assert (Hdied : died_name Sample.decode e = Some "Alice") by reflexivity.
  assert (Hpre : forall x, In x pre -> exiled_name Sample.decode x <> Some "Alice").
  { intros x [<-|[<-|[]]]; discriminate. }
  split; [exact Hlen|]. split; [exact Hdied|]. split; [exact Hpre|].
  exact (proj2 (proj2 (only_exile_fills_eliminated_set Sample.decode Sample.match1 []))
           pre e [] "Alice" Hlen Hdied Hpre).
Defined.

(** Two deaths of a player after her disconnection, and no exile: both
    deaths are on the timeline. *)
Example repeated_deaths_are_all_listed :
  StatsFromGameAndEvents Sample.decode (Some Sample.match1)
    [Some (Sample.action_at 1010 "QAlice");
     Some (Sample.action_at 1020 "DAlice");
     Some (Sample.action_at 1030 "DAlice")] []
  = Ok (mkGameStatistics (TimeUnix 1000) (TimeUnix 1100) (100 * Second)
          1 game.CrewmateRole [] [] 0 2 0 1
          [mkSimpleEvent PlayerDisconnect (10 * Second) "QAlice";
           mkSimpleEvent PlayerDeath (20 * Second) "DAlice";
           mkSimpleEvent PlayerDeath (30 * Second) "DAlice"]).
Proof. vm_compute. reflexivity. Qed.

(** * Properties of the teammate rankings *)

Lemma order_by_desc_true (a b : pair_row) :
  order_by_desc a b = true -> ranked_before a b.
Proof.
  unfold order_by_desc, ranked_before.
  destruct (pr_rate b ?= pr_rate a)%Q eqn:Hr; [| |discriminate].
  - apply Qeq_alt in Hr.
    destruct (pr_count b ?= pr_count a) eqn:Hc; [| |discriminate].
    + apply Z.compare_eq in Hc. intros Ht. apply Z.leb_le in Ht. auto.
    + rewrite Z.compare_lt_iff in Hc. auto.
  - apply Qlt_alt in Hr. auto.
Qed.

Lemma order_by_desc_false (a b : pair_row) :
  order_by_desc a b = false -> ranked_before b a.
Proof.
  unfold order_by_desc, ranked_before.
  destruct (pr_rate b ?= pr_rate a)%Q eqn:Hr; [| discriminate |].
  - apply Qeq_alt in Hr.
    destruct (pr_count b ?= pr_count a) eqn:Hc; [| discriminate |].
    + apply Z.compare_eq in Hc. intros Ht. apply Z.leb_gt in Ht.
      right. split; [now symmetry|]. right. split; [congruence | lia].
    + rewrite Z.compare_gt_iff in Hc. intros _.
      right. split; [now symmetry|]. left. exact Hc.
  - apply Qgt_alt in Hr. intros _. left. exact Hr.
Qed.

Lemma ranked_before_trans (a b c : pair_row) :
  ranked_before a b -> ranked_before b c -> ranked_before a c.
Proof.
  unfold ranked_before.
  intros [Hab | (Eab & Hab)] [Hbc | (Ebc & Hbc)].
  - left. lra.
  - left. lra.
  - left. lra.
  - right. split; [lra|]. lia.
Qed.

Lemma insert_row_In (r x : pair_row) (l : list pair_row) :
  In x (insert_row r l) <-> x = r \/ In x l.
Proof.
  induction l as [|y l IH]; cbn.
  - intuition.
  - destruct (order_by_desc r y); cbn; [intuition|].
    rewrite IH. intuition.
Qed.

Lemma sort_rows_In (x : pair_row) (l : list pair_row) :
  In x (sort_rows l) <-> In x l.
Proof.
  induction l as [|y l IH]; cbn; [tauto|].
  rewrite insert_row_In, IH. intuition.
Qed.

Lemma insert_row_sorted (r : pair_row) (l : list pair_row) :
  StronglySorted ranked_before l -> StronglySorted ranked_before (insert_row r l).
Proof.
  induction l as [|y l IH]; intros Hs; cbn.
  - repeat constructor.
  - inversion Hs as [|? ? Hl Hall]; subst.
    destruct (order_by_desc r y) eqn:Ho.
    + apply order_by_desc_true in Ho. constructor; [exact Hs|].
      constructor; [exact Ho|].
      rewrite Forall_forall in *. intros z Hz.
      eapply ranked_before_trans; [exact Ho | auto].
    + apply order_by_desc_false in Ho. constructor; [auto|].
      rewrite Forall_forall in *. intros z Hz.
      apply insert_row_In in Hz as [->|Hz]; auto.
Qed.

Lemma sort_rows_sorted (l : list pair_row) :
  StronglySorted ranked_before (sort_rows l).
Proof.
  induction l as [|r l IH]; cbn; [constructor|].
  now apply insert_row_sorted.
Qed.

Lemma sort_rows_length (l : list pair_row) :
  List.length (sort_rows l) = List.length l.
Proof.
  assert (Hins : forall r l', List.length (insert_row r l') = S (List.length l')).
  { intros r l'. induction l' as [|y l' IH]; cbn; [reflexivity|].
    destruct (order_by_desc r y); cbn; [reflexivity | now rewrite IH]. }
  induction l as [|r l IH]; cbn; [reflexivity|]. now rewrite Hins, IH.
Qed.

Lemma StronglySorted_map {A B : Type} (R : A -> A -> Prop) (S : B -> B -> Prop)
  (f : A -> B) (l : list A) :
  (forall x y, R x y -> S (f x) (f y)) ->
  StronglySorted R l -> StronglySorted S (map f l).
Proof.
  intros Hf. induction 1 as [|x l Hl IH Hall]; cbn; constructor; [exact IH|].
  rewrite Forall_forall in *. intros y Hy.
  apply in_map_iff in Hy as (z & <- & Hz). auto.
Qed.

Section RankingFacts.

Variable parse_numeric : string -> option Z.
Variable decimal_div : Z -> Z -> Q.

Lemma teammate_query_rows (won : bool) (users_games : list PostgresUserGame.t)
  (guild role user leaderboardMin : Z) :
  let rows := teammate_query decimal_div won users_games guild role user leaderboardMin in
  Forall (fun r => leaderboardMin <= pr_total r) rows
  /\ StronglySorted ranked_before rows.
Proof.
  cbn zeta. unfold teammate_query. split; [|apply sort_rows_sorted].
  apply Forall_forall. intros r Hr.
  apply sort_rows_In, filter_In in Hr as [_ Hr]. now apply Z.leb_le.
Qed.

(** The keys of the rows are pairwise different: [DISTINCT] has nothing
    to remove. *)
Lemma teammate_query_keys (won : bool) (users_games : list PostgresUserGame.t)
  (guild role user leaderboardMin : Z) (r1 r2 : pair_row) :
  let rows := teammate_query decimal_div won users_games guild role user leaderboardMin in
  In r1 rows -> In r2 rows ->
  pr_user r1 = pr_user r2 -> pr_teammate r1 = pr_teammate r2 -> r1 = r2.
Proof.
  cbn zeta. unfold teammate_query. intros H1 H2 Hu Ht.
  apply sort_rows_In, filter_In in H1 as [H1 _].
  apply sort_rows_In, filter_In in H2 as [H2 _].
  apply in_map_iff in H1 as ([u1 t1] & <- & _).
  apply in_map_iff in H2 as ([u2 t2] & <- & _).
  cbn in Hu, Ht. subst. reflexivity.
Qed.

End RankingFacts.

Lemma sort_rows_perm (l : list pair_row) : Permutation (sort_rows l) l.
Proof.
  assert (Hins : forall r l', Permutation (insert_row r l') (r :: l')).
  { intros r l'. induction l' as [|y l' IH]; cbn [insert_row]; [reflexivity|].
    destruct (order_by_desc r y); [reflexivity|].
    rewrite IH. apply perm_swap. }
  induction l as [|r l IH]; cbn [sort_rows]; [reflexivity|].
  rewrite Hins. now constructor.
Qed.

Lemma filter_filter_and {A : Type} (p q : A -> bool) (l : list A) :
  filter p (filter q l) = filter (fun x => q x && p x) l.
Proof.
  induction l as [|x l IH]; cbn [filter]; [reflexivity|].
  destruct (q x); cbn [filter andb]; [destruct (p x)|]; now rewrite IH.
Qed.

Lemma flat_map_filter_pairs {A B : Type} (c : A -> B -> bool)
  (l : list A) (l' : list B) :
  flat_map (fun a => map (pair a) (filter (c a) l')) l
  = filter (fun p => c (fst p) (snd p)) (flat_map (fun a => map (pair a) l') l).
Proof.
  induction l as [|a l IH]; cbn [flat_map]; [reflexivity|].
  rewrite filter_app, IH, filter_map_swap. reflexivity.
Qed.

(** The join is the part of the product of the table with itself that
    satisfies the [ON] condition. *)
Lemma inner_join_prod (users_games : list PostgresUserGame.t) :
  inner_join users_games
  = filter
      (fun p =>
         (PostgresUserGame.GameID (fst p) =? PostgresUserGame.GameID (snd p))
         && negb (PostgresUserGame.UserID (fst p) =? PostgresUserGame.UserID (snd p)))
      (list_prod users_games users_games).
Proof.
  unfold inner_join. rewrite list_prod_as_flat_map.
  apply (flat_map_filter_pairs
           (fun a uG =>
              (PostgresUserGame.GameID a =? PostgresUserGame.GameID uG)
              && negb (PostgresUserGame.UserID a =? PostgresUserGame.UserID uG))).
Qed.

(** The group of the key of [user] and [teammate] holds the shared
    pairs of the two. *)
Lemma group_shared_pairs (users_games : list PostgresUserGame.t)
  (guild role user teammate : Z) :
  filter (fun p => same_key (group_key p) (user, teammate))
    (filter (where_pair guild role user) (inner_join users_games))
  = shared_pairs users_games guild role user teammate.
Proof.
  rewrite inner_join_prod, !filter_filter_and. unfold shared_pairs.
  apply filter_ext. intros [a b].
  unfold where_pair, same_key, group_key, plays_with. cbn [fst snd].
  destruct (PostgresUserGame.GameID a =? PostgresUserGame.GameID b),
    (PostgresUserGame.UserID a =? PostgresUserGame.UserID b),
    (PostgresUserGame.UserID a =? user),
    (PostgresUserGame.UserID b =? teammate),
    (PostgresUserGame.GuildID a =? guild),
    (PostgresUserGame.PlayerRole a =? role),
    (PostgresUserGame.PlayerRole b =? role); reflexivity.
Qed.

Lemma filter_length_le {A : Type} (p : A -> bool) (l : list A) :
  (List.length (filter p l) <= List.length l)%nat.
Proof.
  induction l as [|x l IH]; cbn [filter List.length]; [lia|].
  destruct (p x); cbn [List.length]; lia.
Qed.

Lemma nonempty_length {A : Type} (l : list A) :
  1 <= Z.of_nat (List.length l) <-> exists x, In x l.
Proof.
  destruct l as [|x l]; cbn [List.length].
  - split; [lia | intros [x []]].
  - split; [intros _; exists x; now left | lia].
Qed.

Section SharedMatches.

Variable decimal_div : Z -> Z -> Q.

(** The row of the group of [user] and [teammate]. *)
Lemma select_group_shared (won : bool) (users_games : list PostgresUserGame.t)
  (guild role user teammate : Z) :
  select_group decimal_div won
    (filter (where_pair guild role user) (inner_join users_games)) (user, teammate)
  = mk_pair_row user teammate
      (shared_matches users_games guild role user teammate)
      (shared_outcomes won users_games guild role user teammate)
      (decimal_div (shared_outcomes won users_games guild role user teammate)
         (shared_matches users_games guild role user teammate) * (100 # 1))%Q.
Proof.
  unfold select_group. cbn [fst snd]. rewrite group_shared_pairs. reflexivity.
Qed.

(** The keys of the groups: the user and the teammates with a shared
    match. *)
Lemma teammate_keys (users_games : list PostgresUserGame.t)
  (guild role user : Z) (k : Z * Z) :
  In k (nodup key_eq_dec
          (map group_key
             (filter (where_pair guild role user) (inner_join users_games))))
  <-> fst k = user /\ 1 <= shared_matches users_games guild role user (snd k).
Proof.
  rewrite nodup_In, in_map_iff. unfold shared_matches.
  rewrite nonempty_length. split.
  - intros (p & <- & Hp).
    assert (Hu : fst (group_key p) = user).
    { apply filter_In in Hp as [_ Hw]. unfold where_pair in Hw.
      apply andb_true_iff in Hw as [_ Hw]. now apply Z.eqb_eq in Hw. }
    split; [exact Hu|]. exists p.
    rewrite <- group_shared_pairs. apply filter_In. split; [exact Hp|].
    unfold same_key. cbn [fst snd]. rewrite Hu. cbn [fst snd].
    now rewrite !Z.eqb_refl.
  - intros (Hu & p & Hp). rewrite <- group_shared_pairs in Hp.
    apply filter_In in Hp as [Hp Hk]. exists p. split; [|exact Hp].
    unfold same_key in Hk. apply andb_true_iff in Hk as [Hk1 Hk2].
    apply Z.eqb_eq in Hk1, Hk2. cbn [fst snd] in Hk1, Hk2.
    destruct k as [u t], (group_key p) as [u' t']. cbn [fst snd] in *. congruence.
Qed.

(** The rows of the query, before they are sorted. *)
Lemma teammate_query_In (won : bool) (users_games : list PostgresUserGame.t)
  (guild role user leaderboardMin : Z) (r : pair_row) :
  In r (teammate_query decimal_div won users_games guild role user leaderboardMin)
  <-> exists teammate,
      r = mk_pair_row user teammate
            (shared_matches users_games guild role user teammate)
            (shared_outcomes won users_games guild role user teammate)
            (decimal_div (shared_outcomes won users_games guild role user teammate)
               (shared_matches users_games guild role user teammate) * (100 # 1))%Q
      /\ 1 <= shared_matches users_games guild role user teammate
      /\ leaderboardMin <= shared_matches users_games guild role user teammate.
Proof.
  unfold teammate_query. rewrite sort_rows_In, filter_In, in_map_iff. split.
  - intros (([u t] & <- & Hk) & Hmin).
    apply teammate_keys in Hk as [Hu Hpos]. cbn [fst snd] in Hu, Hpos. subst u.
    rewrite select_group_shared in Hmin |- *. cbn [pr_total] in Hmin.
    exists t. split; [reflexivity|]. split; [exact Hpos | now apply Z.leb_le].
  - intros (t & -> & Hpos & Hmin). split.
    + exists (user, t). split; [apply select_group_shared|].
      apply teammate_keys. cbn [fst snd]. auto.
    + cbn [pr_total]. now apply Z.leb_le.
Qed.

Lemma teammate_query_facts (won : bool) (users_games : list PostgresUserGame.t)
  (guild role user leaderboardMin : Z) :
  teammate_ranking_of pr_user pr_teammate pr_total pr_count pr_rate
    decimal_div won users_games guild role user leaderboardMin
    (teammate_query decimal_div won users_games guild role user leaderboardMin).
Proof.
  split; [|split].
  - unfold teammate_query.
    eapply Permutation_NoDup;
      [apply Permutation_map; symmetry; apply sort_rows_perm|].
    rewrite filter_map_swap, map_map.
    apply NoDup_map_NoDup_ForallPairs; [|apply NoDup_filter, NoDup_nodup].
    intros k1 k2 H1 H2 Heq.
    apply filter_In in H1 as [H1 _]. apply filter_In in H2 as [H2 _].
    apply teammate_keys in H1 as [H1 _]. apply teammate_keys in H2 as [H2 _].
    cbn [select_group pr_teammate] in Heq.
    destruct k1 as [u1 t1], k2 as [u2 t2]. cbn [fst snd] in *. congruence.
  - intros t. rewrite in_map_iff. split.
    + intros (r & <- & Hr). apply teammate_query_In in Hr as (t & -> & Hpos & Hmin).
      cbn [pr_teammate]. auto.
    + intros [Hpos Hmin].
      eexists. split; [|apply teammate_query_In; exists t; eauto]. reflexivity.
  - intros r Hr. apply teammate_query_In in Hr as (t & -> & Hpos & Hmin).
    cbn [pr_user pr_teammate pr_total pr_count pr_rate].
    split; [reflexivity|]. split; [reflexivity|]. split; [reflexivity|].
    split; [|reflexivity].
    unfold shared_outcomes, shared_matches.
    pose proof (filter_length_le
                  (fun p => Bool.eqb (PostgresUserGame.PlayerWon (fst p)) won)
                  (shared_pairs users_games guild role user t)).
    lia.
Qed.

End SharedMatches.

(** A ranking scanned into structs is a ranking read through the fields
    of the structs. *)
Lemma teammate_ranking_of_map {R S : Type} (f : R -> S)
  (user_of teammate_of total_of count_of : S -> Z) (rate_of : S -> Q)
  (decimal_div : Z -> Z -> Q) (won : bool)
  (users_games : list PostgresUserGame.t)
  (guild role user leaderboardMin : Z) (ranking : list R) :
  teammate_ranking_of (fun r => user_of (f r)) (fun r => teammate_of (f r))
    (fun r => total_of (f r)) (fun r => count_of (f r)) (fun r => rate_of (f r))
    decimal_div won users_games guild role user leaderboardMin ranking ->
  teammate_ranking_of user_of teammate_of total_of count_of rate_of
    decimal_div won users_games guild role user leaderboardMin (map f ranking).
Proof.
  intros (Hnodup & Hlist & Hrows). unfold teammate_ranking_of.
  rewrite map_map. split; [exact Hnodup|]. split; [exact Hlist|].
  intros s Hs. apply in_map_iff in Hs as (r & <- & Hr). now apply Hrows.
Qed.

Lemma NoDup_append {A : Type} (l l' : list A) :
  NoDup l -> NoDup l' -> (forall x, In x l -> ~ In x l') -> NoDup (l ++ l').
Proof.
  intros Hl Hl' Hdis. induction Hl as [|a l Ha Hl IH]; cbn [app]; [exact Hl'|].
  constructor.
  - rewrite in_app_iff. intros [Hin | Hin]; [contradiction|].
    exact (Hdis a (or_introl eq_refl) Hin).
  - apply IH. intros x Hx. apply Hdis. now right.
Qed.

Lemma NoDup_list_prod {A B : Type} (l : list A) (l' : list B) :
  NoDup l -> NoDup l' -> NoDup (list_prod l l').
Proof.
  intros Hl Hl'. induction Hl as [|a l Ha Hl IH]; cbn [list_prod]; [constructor|].
  apply NoDup_append; [|exact IH|].
  - apply NoDup_map_NoDup_ForallPairs; [|exact Hl'].
    intros x y _ _ Heq. congruence.
  - intros [x y] Hxy Hp. apply in_map_iff in Hxy as (y' & Heq & _).
    apply in_prod_iff in Hp as [Hx _]. congruence.
Qed.

(** Rows with the same user and match are the same row. *)
Lemma one_row_inj (users_games : list PostgresUserGame.t)
  (a b : PostgresUserGame.t) :
  one_row_per_match users_games ->
  In a users_games -> In b users_games ->
  PostgresUserGame.UserID a = PostgresUserGame.UserID b ->
  PostgresUserGame.GameID a = PostgresUserGame.GameID b ->
  a = b.
Proof.
  unfold one_row_per_match.
  induction users_games as [|x l IH]; cbn [map In]; [tauto|].
  intros Hnd Ha Hb Hu Hg. inversion Hnd as [|? ? Hx Hl]; subst.
  assert (Hkey : forall y, In y l ->
                   PostgresUserGame.UserID x = PostgresUserGame.UserID y ->
                   PostgresUserGame.GameID x = PostgresUserGame.GameID y -> False).
  { intros y Hy Hu' Hg'. apply Hx, in_map_iff. exists y.
    split; [congruence | exact Hy]. }
  destruct Ha as [<- | Ha], Hb as [<- | Hb].
  - reflexivity.
  - exfalso. exact (Hkey b Hb Hu Hg).
  - exfalso. apply (Hkey a Ha); congruence.
  - now apply IH.
Qed.

(** When a user has at most one row for a match, the shared-match count
    is the number of the matches both played in. *)
Lemma shared_matches_are_games (users_games : list PostgresUserGame.t)
  (guild role user teammate : Z) :
  one_row_per_match users_games ->
  shared_matches users_games guild role user teammate
  = Z.of_nat (List.length (shared_games users_games guild role user teammate)).
Proof.
  intros Hone. unfold shared_matches. f_equal.
  rewrite <- (length_map (fun p => PostgresUserGame.GameID (fst p))).
  apply Permutation_length, NoDup_Permutation.
  - apply NoDup_map_NoDup_ForallPairs.
    + intros [a b] [a' b'] Hp Hq Heq. cbn [fst] in Heq.
      apply filter_In in Hp as [Hp Hc]. apply filter_In in Hq as [Hq Hc'].
      apply in_prod_iff in Hp as [Ha Hb]. apply in_prod_iff in Hq as [Ha' Hb'].
      unfold plays_with in Hc, Hc'. cbn [fst snd] in Hc, Hc'.
      repeat (apply andb_true_iff in Hc as [Hc ?]).
      repeat (apply andb_true_iff in Hc' as [Hc' ?]).
      repeat match goal with
             | H : (_ =? _) = true |- _ => apply Z.eqb_eq in H
             end.
      f_equal; apply (one_row_inj users_games); auto; congruence.
    + apply NoDup_filter, NoDup_list_prod; exact (NoDup_map_inv _ _ Hone).
  - apply NoDup_filter, NoDup_nodup.
  - intros g. unfold shared_games, shared_pairs.
    rewrite in_map_iff, filter_In, nodup_In, in_map_iff. split.
    + intros ([a b] & <- & Hp). cbn [fst].
      apply filter_In in Hp as [Hp Hc]. apply in_prod_iff in Hp as [Ha Hb].
      unfold plays_with in Hc. cbn [fst snd] in Hc.
      repeat (apply andb_true_iff in Hc as [Hc ?]).
      split; [exists a; auto|].
      repeat (apply andb_true_iff; split).
      * repeat match goal with
               | H : (_ =? _) = true |- _ => apply Z.eqb_eq in H
               end.
        apply negb_true_iff, Z.eqb_neq. apply negb_true_iff, Z.eqb_neq in H4.
        congruence.
      * apply existsb_exists. exists a. split; [exact Ha|].
        rewrite Z.eqb_refl. cbn [andb].
        repeat (apply andb_true_iff; split); assumption.
      * apply existsb_exists. exists b. split; [exact Hb|].
        apply Z.eqb_eq in Hc. rewrite <- Hc, Z.eqb_refl. cbn [andb].
        repeat (apply andb_true_iff; split); assumption.
    + intros (_ & Hc).
      apply andb_true_iff in Hc as [Hc Hb]. apply andb_true_iff in Hc as [Hne Ha].
      apply existsb_exists in Ha as (a & Ha & Hca).
      apply existsb_exists in Hb as (b & Hb & Hcb).
      repeat (apply andb_true_iff in Hca as [Hca ?]).
      repeat (apply andb_true_iff in Hcb as [Hcb ?]).
      exists (a, b). cbn [fst]. split; [now apply Z.eqb_eq|].
      apply filter_In. split; [now apply in_prod_iff|].
      unfold plays_with. cbn [fst snd].
      repeat match goal with
             | H : (_ =? _) = true |- _ => apply Z.eqb_eq in H
             end.
      apply negb_true_iff, Z.eqb_neq in Hne.
      repeat (apply andb_true_iff; split);
        try (apply Z.eqb_eq; congruence).
      apply negb_true_iff, Z.eqb_neq. congruence.
Qed.

(** C9.  Whatever minimum sample size the caller passes, every row of
    the best-teammate and of the worst-teammate ranking has a shared-match
    count of at least that minimum, and in each ranking a row and any later
    row are in the order: higher rate first; at equal rates the higher win
    (or loss) count first; at equal rates and counts the higher total
    first.  The total of a row is the shared-match count of the user and
    the teammate of the row, counted on the table: each ranking lists each
    teammate once, the teammates listed being exactly those with at least
    one shared match and at least the minimum of them, with the shared
    matches won (or lost) as count and the quotient times 100 as rate; the
    shared-match count is the number of matches both played in when a user
    has at most one row for a match.  A query that fails gives two empty
    rankings. *)
Theorem teammate_rankings_filtered_and_ordered
  (parse_numeric : string -> option Z) (decimal_div : Z -> Z -> Q)
  (pool : option (list PostgresUserGame.t))
  (userID guildID : string) (role leaderboardMin : Z) :
  let best := BestTeammateByRole parse_numeric decimal_div pool
                userID guildID role leaderboardMin in
  let worst := WorstTeammateByRole parse_numeric decimal_div pool
                 userID guildID role leaderboardMin in
  Forall (fun r => leaderboardMin <= PostgresBestTeammatePlayerRanking.Total r) best
  /\ StronglySorted best_before best
  /\ Forall (fun r => leaderboardMin <= PostgresWorstTeammatePlayerRanking.Total r) worst
  /\ StronglySorted worst_before worst
  /\ match pool, parse_numeric guildID, parse_numeric userID with
     | Some users_games, Some guild, Some user =>
         teammate_ranking_of
           PostgresBestTeammatePlayerRanking.UserID
           PostgresBestTeammatePlayerRanking.TeammateID
           PostgresBestTeammatePlayerRanking.Total
           PostgresBestTeammatePlayerRanking.Win
           PostgresBestTeammatePlayerRanking.WinRate
           decimal_div true users_games guild role user leaderboardMin best
         /\ teammate_ranking_of
              PostgresWorstTeammatePlayerRanking.UserID
              PostgresWorstTeammatePlayerRanking.TeammateID
              PostgresWorstTeammatePlayerRanking.Total
              PostgresWorstTeammatePlayerRanking.Loose
              PostgresWorstTeammatePlayerRanking.LooseRate
              decimal_div false users_games guild role user leaderboardMin worst
         /\ (one_row_per_match users_games ->
             forall teammate,
               shared_matches users_games guild role user teammate
               = Z.of_nat
                   (List.length (shared_games users_games guild role user teammate)))
     | _, _, _ => best = [] /\ worst = []
     end.
Proof.
  cbn zeta. unfold BestTeammateByRole, WorstTeammateByRole, select_teammates.
  destruct pool as [users_games|];
    [|repeat split; solve [constructor | reflexivity]].
  destruct (parse_numeric guildID) as [guild|];
    [|repeat split; solve [constructor | reflexivity]].
  destruct (parse_numeric userID) as [user|];
    [|repeat split; solve [constructor | reflexivity]].
  destruct (teammate_query_rows decimal_div true users_games guild role user
              leaderboardMin) as [Hb1 Hb2].
  destruct (teammate_query_rows decimal_div false users_games guild role user
              leaderboardMin) as [Hw1 Hw2].
  split; [|split; [|split; [|split; [|split; [|split]]]]].
  - apply Forall_map. exact Hb1.
  - eapply StronglySorted_map; [|exact Hb2]. intros x y H. exact H.
  - apply Forall_map. exact Hw1.
  - eapply StronglySorted_map; [|exact Hw2]. intros x y H. exact H.
  - apply teammate_ranking_of_map. apply teammate_query_facts.
  - apply teammate_ranking_of_map. apply teammate_query_facts.
  - intros Hone teammate. now apply shared_matches_are_games.
Qed.

(** On the store of the examples user 1 shares four matches with user 2
    and five with user 3; with a minimum of 5 the ranking lists user 3
    and not user 2. *)
Lemma teammate_rankings_filtered_and_ordered_witness :
  let best := BestTeammateByRole SampleStore.parse_digit SampleStore.exact_div
                (Some SampleStore.users_games) "1" "9" 0 5 in
  one_row_per_match SampleStore.users_games
  /\ shared_matches SampleStore.users_games 9 0 1 2 = 4
  /\ shared_matches SampleStore.users_games 9 0 1 3 = 5
  /\ ~ In 2 (map PostgresBestTeammatePlayerRanking.TeammateID best)
  /\ In 3 (map PostgresBestTeammatePlayerRanking.TeammateID best).
Proof.
  intros best.
  assert (Hone : one_row_per_match SampleStore.users_games).
  { unfold one_row_per_match.
    set (keys := map _ SampleStore.users_games).
    assert (E : nodup key_eq_dec keys = keys) by (vm_compute; reflexivity).
    rewrite <- E. apply NoDup_nodup. }
  destruct (teammate_rankings_filtered_and_ordered SampleStore.parse_digit
              SampleStore.exact_div (Some SampleStore.users_games) "1" "9" 0 5)
    as (_ & _ & _ & _ & Hbest & _ & Hgames).
  destruct Hbest as (_ & Hlist & _).
  assert (H2 : shared_matches SampleStore.users_games 9 0 1 2 = 4).
  { transitivity
      (Z.of_nat (List.length (shared_games SampleStore.users_games 9 0 1 2)));
      [exact (Hgames Hone 2) | vm_compute; reflexivity]. }
  assert (H3 : shared_matches SampleStore.users_games 9 0 1 3 = 5).
  { transitivity
      (Z.of_nat (List.length (shared_games SampleStore.users_games 9 0 1 3)));
      [exact (Hgames Hone 3) | vm_compute; reflexivity]. }
  split; [exact Hone|]. split; [exact H2|]. split; [exact H3|]. split.
  - intros Hin.
    assert (Hmin : 5 <= shared_matches SampleStore.users_games 9 0 1 2)
      by exact (proj2 (proj1 (Hlist 2) Hin)).
    rewrite H2 in Hmin. lia.
  - apply (proj2 (Hlist 3)).
    change (1 <= shared_matches SampleStore.users_games 9 0 1 3
            /\ 5 <= shared_matches SampleStore.users_games 9 0 1 3).
    rewrite H3. lia.
Defined.

(** The example of the design document: with a minimum of 5 the pair
    with four shared matches is left out. *)
Example best_teammate_minimum_five :
  map (fun r => (PostgresBestTeammatePlayerRanking.TeammateID r,
                 PostgresBestTeammatePlayerRanking.Total r,
                 PostgresBestTeammatePlayerRanking.Win r))
    (BestTeammateByRole SampleStore.parse_digit SampleStore.exact_div
       (Some SampleStore.users_games) "1" "9" 0 5)
  = [(3, 5, 3)].
Proof. vm_compute. reflexivity. Qed.

(** With a minimum of 4 both pairs are listed, the higher win rate (75
    against 60) first; the worst-teammate ranking lists them the other way
    round (40 against 25). *)
Example best_teammate_minimum_four :
  map (fun r => (PostgresBestTeammatePlayerRanking.TeammateID r,
                 PostgresBestTeammatePlayerRanking.Total r,
                 PostgresBestTeammatePlayerRanking.Win r))
    (BestTeammateByRole SampleStore.parse_digit SampleStore.exact_div
       (Some SampleStore.users_games) "1" "9" 0 4)
  = [(2, 4, 3); (3, 5, 3)].
Proof. vm_compute. reflexivity. Qed.

Example worst_teammate_minimum_four :
  map (fun r => (PostgresWorstTeammatePlayerRanking.TeammateID r,
                 PostgresWorstTeammatePlayerRanking.Total r,
                 PostgresWorstTeammatePlayerRanking.Loose r))
    (WorstTeammateByRole SampleStore.parse_digit SampleStore.exact_div
       (Some SampleStore.users_games) "1" "9" 0 4)
  = [(3, 5, 2); (2, 4, 1)].
Proof. vm_compute. reflexivity. Qed.

(** A query that fails gives the empty ranking. *)
Example best_teammate_query_error :
  BestTeammateByRole SampleStore.parse_digit SampleStore.exact_div
    (Some SampleStore.users_games) "one" "9" 0 4 = [].
Proof. reflexivity. Qed.

(** * Further properties of the reducer *)

Section Tally.

Variable json_Unmarshal : string -> option game.Player.
Variable g : PostgresGame.t.

Lemma discuss_not_tasks e :
  is_phase DiscussCode e = true -> is_phase TasksCode e = false.
Proof.
  unfold is_phase. intros H. apply andb_true_iff in H as [-> Hp].
  apply String.eqb_eq in Hp. rewrite Hp. reflexivity.
Qed.

Lemma count_kind_snoc k tl se :
  count_kind k (tl ++ [se])
  = (count_kind k tl + if same_kind (EventType se) k then 1 else 0)%nat.
Proof.
  rewrite count_kind_app. unfold count_kind at 2. cbn [filter].
  destruct (same_kind (EventType se) k); reflexivity.
Qed.

Lemma well_formed_snoc tl se :
  well_formed_entry json_Unmarshal se ->
  Forall (well_formed_entry json_Unmarshal) tl ->
  Forall (well_formed_entry json_Unmarshal) (tl ++ [se]).
Proof. intros Hse Htl. apply Forall_app. split; [exact Htl | now constructor]. Qed.

Lemma well_formed_player k a e n :
  name_with_action json_Unmarshal a e = Some n ->
  (k = PlayerDeath /\ a = game.DIED) \/ (k = PlayerExiled /\ a = game.EXILED)
  \/ (k = PlayerDisconnect /\ a = game.DISCONNECTED) ->
  well_formed_entry json_Unmarshal (entry_of g k e).
Proof.
  intros H Hk. apply name_with_action_inv in H as (p & _ & Hj & Ha & _).
  unfold well_formed_entry.
  destruct Hk as [[-> ->] | [[-> ->] | [-> ->]]]; cbn; exists p; auto.
Qed.

Lemma step_tally s ex e :
  exists s',
    event_step json_Unmarshal (Some g) (s, ex) (Some e)
    = Ok (s', ex ++ exiled_names json_Unmarshal [e])
    /\ tally json_Unmarshal s ex [e] s'.
Proof.
  assert (Hde : game.DIED <> game.EXILED) by discriminate.
  assert (Hdq : game.DIED <> game.DISCONNECTED) by discriminate.
  assert (Heq : game.EXILED <> game.DISCONNECTED) by discriminate.
  unfold tally, count_action, count_discuss, count_tasks, count_died,
    died_name, exiled_name.
  cbn [exiled_names suppressed_deaths filter]. unfold exiled_name, died_name.
  destruct (is_phase DiscussCode e) eqn:Hd.
  { rewrite (step_discuss json_Unmarshal g s ex e Hd).
    rewrite (discuss_not_tasks e Hd).
    rewrite !(phase_not_action json_Unmarshal _ e _ Hd).
    eexists. split; [now rewrite app_nil_r|].
    cbn [append_event incr_NumMeetings Events NumVotedOff NumDisconnects].
    rewrite !count_kind_snoc. cbn.
    repeat split; unfold count_kind; try lia. intros H. apply well_formed_snoc; [reflexivity | exact H]. }
  destruct (is_phase TasksCode e) eqn:Hk.
  { rewrite (step_tasks json_Unmarshal g s ex e Hk).
    rewrite !(phase_not_action json_Unmarshal _ e _ Hk).
    eexists. split; [now rewrite app_nil_r|].
    cbn [append_event Events NumVotedOff NumDisconnects].
    rewrite !count_kind_snoc. cbn.
    repeat split; unfold count_kind; try lia. intros H. apply well_formed_snoc; [reflexivity | exact H]. }
  destruct (name_with_action json_Unmarshal game.DIED e) as [n|] eqn:Hdied.
  { rewrite (step_died json_Unmarshal g s ex e n Hdied).
    rewrite (actions_exclusive json_Unmarshal _ _ e n Hde Hdied).
    rewrite (actions_exclusive json_Unmarshal _ _ e n Hdq Hdied).
    destruct (isExiled ex n) eqn:Hx.
    - apply isExiled_In in Hx.
      destruct (in_dec string_dec n ex) as [_|Hn]; [|contradiction].
      eexists. split; [now rewrite app_nil_r|].
      cbn. repeat split; unfold count_kind; try lia. auto.
    - apply isExiled_not_In in Hx.
      destruct (in_dec string_dec n ex) as [Hn|_]; [contradiction|].
      eexists. split; [now rewrite app_nil_r|].
      cbn [append_event incr_NumDeaths Events NumVotedOff NumDisconnects].
      rewrite !count_kind_snoc. cbn.
      repeat split; unfold count_kind; try lia. intros H. apply well_formed_snoc; [|exact H].
      eapply well_formed_player; [exact Hdied | auto]. }
  destruct (name_with_action json_Unmarshal game.EXILED e) as [n|] eqn:Hex.
  { rewrite (step_exiled json_Unmarshal g s ex e n Hex).
    rewrite (actions_exclusive json_Unmarshal _ _ e n Heq Hex).
    eexists. split; [reflexivity|].
    cbn [append_event incr_NumVotedOff Events NumVotedOff NumDisconnects].
    rewrite !count_kind_snoc. cbn.
    repeat split; unfold count_kind; try lia. intros H. apply well_formed_snoc; [|exact H].
    eapply well_formed_player; [exact Hex | auto]. }
  destruct (name_with_action json_Unmarshal game.DISCONNECTED e) as [n|] eqn:Hq.
  { rewrite (step_disconnected json_Unmarshal g s ex e n Hq).
    eexists. split; [now rewrite app_nil_r|].
    cbn [append_event incr_NumDisconnects Events NumVotedOff NumDisconnects].
    rewrite !count_kind_snoc. cbn.
    repeat split; unfold count_kind; try lia. intros H. apply well_formed_snoc; [|exact H].
    eapply well_formed_player; [exact Hq | auto]. }
  destruct (step_pass json_Unmarshal g s ex e) as ([s1 ex1] & Hstep & Hpass).
  inversion Hpass; subst; unfold died_name, exiled_name, disconnected_name in *;
    try congruence.
  exists s1. split; [now rewrite app_nil_r|].
  cbn. repeat split; unfold count_kind; try lia. auto.
Qed.

Lemma count_action_app a l1 l2 :
  count_action json_Unmarshal a (l1 ++ l2)
  = (count_action json_Unmarshal a l1 + count_action json_Unmarshal a l2)%nat.
Proof. unfold count_action. now rewrite filter_app, length_app. Qed.

Lemma count_tasks_app l1 l2 :
  count_tasks (l1 ++ l2) = (count_tasks l1 + count_tasks l2)%nat.
Proof. unfold count_tasks. now rewrite filter_app, length_app. Qed.

Lemma suppressed_deaths_app l1 : forall ex l2,
  suppressed_deaths json_Unmarshal ex (l1 ++ l2)
  = (suppressed_deaths json_Unmarshal ex l1
     + suppressed_deaths json_Unmarshal (ex ++ exiled_names json_Unmarshal l1) l2)%nat.
Proof.
  induction l1 as [|e l1 IH]; intros ex l2.
  - cbn. now rewrite app_nil_r.
  - cbn [app suppressed_deaths]. rewrite IH.
    change (e :: l1) with ([e] ++ l1).
    rewrite (exiled_names_app json_Unmarshal [e] l1), app_assoc. lia.
Qed.

Lemma tally_compose s ex l1 s1 l2 s2 :
  tally json_Unmarshal s ex l1 s1 ->
  tally json_Unmarshal s1 (ex ++ exiled_names json_Unmarshal l1) l2 s2 ->
  tally json_Unmarshal s ex (l1 ++ l2) s2.
Proof.
  unfold tally.
  intros (A1 & A2 & A3 & A4 & A5 & A6 & A7 & A8) (B1 & B2 & B3 & B4 & B5 & B6 & B7 & B8).
  rewrite !count_action_app, count_discuss_app, count_tasks_app,
    (count_died_app json_Unmarshal), suppressed_deaths_app.
  repeat split; try lia. auto.
Qed.

Lemma events_loop_tally evs : forall s ex,
  exists s',
    events_loop json_Unmarshal (Some g) (s, ex) (map Some evs)
    = Ok (s', ex ++ exiled_names json_Unmarshal evs)
    /\ tally json_Unmarshal s ex evs s'.
Proof.
  induction evs as [|e evs IH]; intros s ex.
  - exists s. cbn. rewrite app_nil_r. split; [reflexivity|].
    unfold tally, count_action, count_discuss, count_tasks, count_died. cbn.
    repeat split; try lia. auto.
  - destruct (step_tally s ex e) as (s1 & Hstep & Ht1).
    destruct (IH s1 (ex ++ exiled_names json_Unmarshal [e])) as (s' & Hrun & Ht2).
    exists s'. cbn [map events_loop]. rewrite Hstep. cbn [bind]. rewrite Hrun.
    change (e :: evs) with ([e] ++ evs).
    rewrite (exiled_names_app json_Unmarshal [e] evs), app_assoc.
    split; [reflexivity|]. eapply tally_compose; eauto.
Qed.

(** The tally of a whole reduction, from the statistics built before the
    event loop. *)
Lemma state_after_tally us evs :
  exists s0 s,
    users_loop (stats_win_role (stats_of_game (Some g) stats_init)) (map Some us) = Ok s0
    /\ Events s0 = [] /\ NumVotedOff s0 = 0 /\ NumDisconnects s0 = 0
    /\ state_after json_Unmarshal g us evs
       = Ok (s, exiled_names json_Unmarshal evs)
    /\ tally json_Unmarshal s0 [] evs s.
Proof.
  unfold state_after.
  destruct (before_events (Some g) us)
    as (s0 & Hrun & _ & _ & _ & _ & _ & _ & _ & _ & _ & Hv & Hq & He).
  destruct (events_loop_tally evs s0 []) as (s & Hloop & Ht).
  exists s0, s. rewrite Hrun. cbn [bind]. cbn [app] in Hloop.
  split; [reflexivity|]. split; [exact He|]. split; [exact Hv|].
  split; [exact Hq|]. split; [exact Hloop | exact Ht].
Qed.

End Tally.

Lemma suppressed_deaths_short (json_Unmarshal : string -> option game.Player)
  (evs : list PostgresGameEvent.t) :
  (List.length evs < 2)%nat -> suppressed_deaths json_Unmarshal [] evs = 0%nat.
Proof.
  destruct evs as [|e [|e' evs]]; cbn [List.length]; intros H; try lia.
  - reflexivity.
  - cbn. destruct (died_name json_Unmarshal e); reflexivity.
Qed.

Lemma length_by_kind (tl : list SimpleEvent) :
  List.length tl
  = (count_kind Tasks tl + count_kind Discuss tl + count_kind PlayerDeath tl
     + count_kind PlayerDisconnect tl + count_kind PlayerExiled tl)%nat.
Proof.
  unfold count_kind. induction tl as [|se tl IH]; cbn [filter List.length]; [reflexivity|].
  destruct (EventType se); cbn [same_kind List.length]; lia.
Qed.

(** The reducer's result as the statistics of the scan, with their
    tally. *)
Lemma reduce_tally (json_Unmarshal : string -> option game.Player)
  (g : PostgresGame.t) (evs : list PostgresGameEvent.t)
  (us : list PostgresUserGame.t) :
  (2 <= List.length evs)%nat ->
  exists s0 st,
    StatsFromGameAndEvents json_Unmarshal (Some g) (map Some evs) (map Some us) = Ok st
    /\ Events s0 = [] /\ NumVotedOff s0 = 0 /\ NumDisconnects s0 = 0
    /\ NumDeaths st = Z.of_nat (count_died json_Unmarshal evs)
    /\ NumMeetings st = Z.of_nat (count_discuss evs)
    /\ tally json_Unmarshal s0 [] evs st.
Proof.
  intros Hlen. rewrite reduce_long by exact Hlen.
  destruct (state_after_tally json_Unmarshal g us evs)
    as (s0 & s & _ & He & Hv & Hq & Hrun & Ht).
  destruct (state_after_records json_Unmarshal g us evs)
    as (s' & src & Hrun' & Hd & Hm & _).
  rewrite Hrun in Hrun'. inversion Hrun'; subst s'.
  exists s0, s. rewrite Hrun. cbn [bind fst].
  split; [reflexivity|]. split; [exact He|]. split; [exact Hv|].
  split; [exact Hq|]. split; [exact Hd|]. split; [exact Hm | exact Ht].
Qed.

(** X1.  In every result of the reducer the meeting, voted-off and
    disconnect counters are the numbers of [Discuss], [PlayerExiled] and
    [PlayerDisconnect] entries of the timeline, and the death counter is
    the number of [PlayerDeath] entries plus the number of deaths of
    players exiled earlier in the stream. *)
Theorem counters_match_timeline
  (json_Unmarshal : string -> option game.Player)
  (g : PostgresGame.t) (evs : list PostgresGameEvent.t)
  (us : list PostgresUserGame.t) :
  exists st,
    StatsFromGameAndEvents json_Unmarshal (Some g) (map Some evs) (map Some us) = Ok st
    /\ NumMeetings st = Z.of_nat (count_kind Discuss (Events st))
    /\ NumVotedOff st = Z.of_nat (count_kind PlayerExiled (Events st))
    /\ NumDisconnects st = Z.of_nat (count_kind PlayerDisconnect (Events st))
    /\ NumDeaths st
       = Z.of_nat (count_kind PlayerDeath (Events st)
                   + suppressed_deaths json_Unmarshal [] evs).
Proof.
  destruct (le_lt_dec 2 (List.length evs)) as [Hlen | Hlen].
  - destruct (reduce_tally json_Unmarshal g evs us Hlen)
      as (s0 & st & Hst & He & Hv & Hq & Hd & Hm & Ht).
    exists st. split; [exact Hst|].
    destruct Ht as (T1 & T2 & T3 & _ & T5 & T6 & T7 & _).
    rewrite He in *. unfold count_kind in T3, T5, T6, T7. cbn in T3, T5, T6, T7.
    fold (count_kind Discuss (Events st)) in T3.
    fold (count_kind PlayerExiled (Events st)) in T5.
    fold (count_kind PlayerDisconnect (Events st)) in T6.
    fold (count_kind PlayerDeath (Events st)) in T7.
    repeat split; lia.
  - rewrite reduce_short by (now rewrite length_map).
    destruct (before_events (Some g) us)
      as (s0 & Hrun & _ & _ & _ & _ & _ & _ & _ & Hm & Hd & Hv & Hq & He).
    exists s0. split; [exact Hrun|].
    rewrite He, Hm, Hd, Hv, Hq, (suppressed_deaths_short json_Unmarshal evs Hlen).
    repeat split.
Qed.

(** X2.  For a stream of at least two events the meeting, voted-off and
    disconnect counters are the numbers of discussion events and of events
    that decode with [EXILED] and with [DISCONNECTED], the timeline has one
    [Tasks] entry per tasks event, and its length is the number of events
    of these five kinds less the suppressed deaths. *)
Theorem counters_count_events
  (json_Unmarshal : string -> option game.Player)
  (g : PostgresGame.t) (evs : list PostgresGameEvent.t)
  (us : list PostgresUserGame.t) :
  (2 <= List.length evs)%nat ->
  exists st,
    StatsFromGameAndEvents json_Unmarshal (Some g) (map Some evs) (map Some us) = Ok st
    /\ NumMeetings st = Z.of_nat (count_discuss evs)
    /\ NumVotedOff st = Z.of_nat (count_action json_Unmarshal game.EXILED evs)
    /\ NumDisconnects st
       = Z.of_nat (count_action json_Unmarshal game.DISCONNECTED evs)
    /\ count_kind Tasks (Events st) = count_tasks evs
    /\ (List.length (Events st) + suppressed_deaths json_Unmarshal [] evs
        = count_discuss evs + count_tasks evs + count_died json_Unmarshal evs
          + count_action json_Unmarshal game.EXILED evs
          + count_action json_Unmarshal game.DISCONNECTED evs)%nat.
Proof.
  intros Hlen.
  destruct (reduce_tally json_Unmarshal g evs us Hlen)
    as (s0 & st & Hst & He & Hv & Hq & Hd & Hm & Ht).
  exists st. split; [exact Hst|].
  destruct Ht as (T1 & T2 & T3 & T4 & T5 & T6 & T7 & _).
  rewrite He in *. unfold count_kind in T3, T4, T5, T6, T7.
  cbn in T3, T4, T5, T6, T7.
  fold (count_kind Discuss (Events st)) in T3.
  fold (count_kind Tasks (Events st)) in T4.
  fold (count_kind PlayerExiled (Events st)) in T5.
  fold (count_kind PlayerDisconnect (Events st)) in T6.
  fold (count_kind PlayerDeath (Events st)) in T7.
  rewrite (length_by_kind (Events st)).
  repeat split; lia.
Qed.

Lemma counters_count_events_witness :
  let evs := [Sample.state_at 1010 DiscussCode; Sample.action_at 1020 "XAlice";
              Sample.action_at 1030 "DAlice"; Sample.state_at 1040 TasksCode;
              Sample.action_at 1050 "QBob"; Sample.action_at 1060 "??"] in
  (2 <= List.length evs)%nat
  /\ exists st,
       StatsFromGameAndEvents Sample.decode (Some Sample.match1) (map Some evs)
         (map Some []) = Ok st
       /\ NumMeetings st = 1 /\ NumVotedOff st = 1 /\ NumDisconnects st = 1
       /\ count_kind Tasks (Events st) = 1%nat
       /\ (List.length (Events st) + 1 = 5)%nat.
Proof.
  intros evs. split; [cbn; lia|].
  destruct (counters_count_events Sample.decode Sample.match1 evs [])
    as (st & Hst & Hm & Hv & Hq & Ht & Hl); [cbn; lia|].
  exists st. repeat split; assumption.
Defined.

(** X3.  When an event that decodes with [EXILED] for a name comes
    before an event that decodes with [DIED] for the same name, the
    timeline holds strictly fewer [PlayerDeath] entries than the death
    counter says. *)
Theorem exile_before_death_is_strict
  (json_Unmarshal : string -> option game.Player)
  (g : PostgresGame.t) (us : list PostgresUserGame.t)
  (pre mid post : list PostgresGameEvent.t) (x e : PostgresGameEvent.t)
  (n : string) :
  exiled_name json_Unmarshal x = Some n ->
  died_name json_Unmarshal e = Some n ->
  exists st,
    StatsFromGameAndEvents json_Unmarshal (Some g)
      (map Some (pre ++ x :: mid ++ e :: post)) (map Some us) = Ok st
    /\ Z.of_nat (count_kind PlayerDeath (Events st)) < NumDeaths st.
Proof.
  intros Hx He.
  assert (Hlen : (2 <= List.length (pre ++ x :: mid ++ e :: post))%nat).
  { rewrite length_app. cbn [List.length]. rewrite length_app. cbn [List.length]. lia. }
  destruct (reduce_tally json_Unmarshal g (pre ++ x :: mid ++ e :: post) us Hlen)
    as (s0 & st & Hst & Hev & _ & _ & Hd & _ & Ht).
  exists st. split; [exact Hst|]. rewrite Hd.
  destruct Ht as (_ & _ & _ & _ & _ & _ & T7 & _).
  rewrite Hev in T7. unfold count_kind at 2 in T7. cbn [filter List.length] in T7.
  assert (1 <= suppressed_deaths json_Unmarshal [] (pre ++ x :: mid ++ e :: post))%nat;
    [|lia].
  change (pre ++ x :: mid ++ e :: post) with (pre ++ [x] ++ mid ++ e :: post).
  rewrite !app_assoc, (suppressed_deaths_app json_Unmarshal).
  cbn [suppressed_deaths app]. rewrite He.
  destruct (in_dec string_dec n
              (exiled_names json_Unmarshal ((pre ++ [x]) ++ mid))) as [_|Hn]; [lia|].
  exfalso. apply Hn.
  rewrite !(exiled_names_app json_Unmarshal). cbn [exiled_names]. rewrite Hx.
  apply in_or_app. left. apply in_or_app. right. now left.
Qed.

Lemma exile_before_death_is_strict_witness :
  exiled_name Sample.decode (Sample.action_at 1020 "XAlice") = Some "Alice"
  /\ died_name Sample.decode (Sample.action_at 1040 "DAlice") = Some "Alice"
  /\ exists st,
       StatsFromGameAndEvents Sample.decode (Some Sample.match1)
         (map Some ([Sample.action_at 1010 "DBob"]
                    ++ Sample.action_at 1020 "XAlice"
                    :: [Sample.state_at 1030 TasksCode]
                    ++ Sample.action_at 1040 "DAlice" :: []))
         (map Some []) = Ok st
       /\ Z.of_nat (count_kind PlayerDeath (Events st)) < NumDeaths st.
Proof.
  split; [reflexivity|]. split; [reflexivity|].
  apply (exile_before_death_is_strict Sample.decode Sample.match1 []
           [Sample.action_at 1010 "DBob"] [Sample.state_at 1030 TasksCode] []
           (Sample.action_at 1020 "XAlice") (Sample.action_at 1040 "DAlice") "Alice");
    reflexivity.
Defined.

Lemma subseq_length {A : Type} (src l : list A) :
  subseq src l -> (List.length src <= List.length l)%nat.
Proof. induction 1; cbn; lia. Qed.

(** The entries of the reducer's timeline are well formed. *)
Lemma reduce_entries_decode
  (json_Unmarshal : string -> option game.Player)
  (g : PostgresGame.t) (evs : list PostgresGameEvent.t)
  (us : list PostgresUserGame.t) :
  exists st,
    StatsFromGameAndEvents json_Unmarshal (Some g) (map Some evs) (map Some us) = Ok st
    /\ Forall (well_formed_entry json_Unmarshal) (Events st).
Proof.
  destruct (le_lt_dec 2 (List.length evs)) as [Hlen | Hlen].
  - destruct (reduce_tally json_Unmarshal g evs us Hlen)
      as (s0 & st & Hst & He & _ & _ & _ & _ & Ht).
    exists st. split; [exact Hst|].
    destruct Ht as (_ & _ & _ & _ & _ & _ & _ & T8).
    apply T8. rewrite He. constructor.
  - destruct (reduce_short_empty json_Unmarshal (Some g) (map Some evs) us)
      as (st & Hst & He); [now rewrite length_map|].
    exists st. split; [exact Hst|]. rewrite He. constructor.
Qed.

(** X4.  The timeline is never longer than the stream of events, and
    each of its entries is what the display code expects: a phase entry
    carries no data, and the data of a player entry decodes, with the
    action of the entry's kind. *)
Theorem timeline_entries_are_well_formed
  (json_Unmarshal : string -> option game.Player)
  (g : PostgresGame.t) (evs : list PostgresGameEvent.t)
  (us : list PostgresUserGame.t) :
  exists st,
    StatsFromGameAndEvents json_Unmarshal (Some g) (map Some evs) (map Some us) = Ok st
    /\ Forall (well_formed_entry json_Unmarshal) (Events st)
    /\ (List.length (Events st) <= List.length evs)%nat.
Proof.
  destruct (timeline_sources json_Unmarshal g evs us) as (st & src & Hst & Hsub & Hent).
  destruct (reduce_entries_decode json_Unmarshal g evs us) as (st' & Hst' & Hwf).
  rewrite Hst in Hst'. inversion Hst'; subst st'.
  exists st. split; [exact Hst|]. split; [exact Hwf|].
  unfold entries_of in Hent. rewrite (Forall2_length Hent).
  now apply subseq_length.
Qed.

(** ** Events without effect *)

Lemma event_step_ignored (json_Unmarshal : string -> option game.Player)
  (pgame : option PostgresGame.t) (st : loop_state) (e : PostgresGameEvent.t) :
  timeline_event json_Unmarshal e = false ->
  event_step json_Unmarshal pgame st (Some e) = Ok st.
Proof.
  destruct st as [s ex].
  unfold timeline_event, is_phase, died_name, exiled_name, disconnected_name,
    name_with_action, parsed_action, event_step.
  cbn [deref bind].
  destruct (PostgresGameEvent.EventType e =? capture.State) eqn:Ht.
  - apply Z.eqb_eq in Ht. rewrite Ht. cbn.
    destruct (String.eqb (PostgresGameEvent.Payload e) DiscussCode); [discriminate|].
    destruct (String.eqb (PostgresGameEvent.Payload e) TasksCode); [discriminate|].
    reflexivity.
  - cbn [andb orb].
    destruct (PostgresGameEvent.EventType e =? capture.Player); [|reflexivity].
    destruct (json_Unmarshal (PostgresGameEvent.Payload e)) as [p|]; [|reflexivity].
    destruct (game.Action p =? game.DIED); [discriminate|].
    destruct (game.Action p =? game.EXILED); [discriminate|].
    destruct (game.Action p =? game.DISCONNECTED); [discriminate|].
    reflexivity.
Qed.

Lemma events_loop_filter (json_Unmarshal : string -> option game.Player)
  (pgame : option PostgresGame.t) (evs : list PostgresGameEvent.t) :
  forall st,
    events_loop json_Unmarshal pgame st (map Some evs)
    = events_loop json_Unmarshal pgame st
        (map Some (filter (timeline_event json_Unmarshal) evs)).
Proof.
  induction evs as [|e evs IH]; intros st; cbn [map filter events_loop];
    [reflexivity|].
  destruct (timeline_event json_Unmarshal e) eqn:He; cbn [map events_loop].
  - destruct (event_step json_Unmarshal pgame st (Some e)); cbn [bind]; auto.
  - rewrite (event_step_ignored json_Unmarshal pgame st e He). cbn [bind]. apply IH.
Qed.

(** X5.  Events the loop body ignores -- an unknown phase code, a
    payload that does not decode, an action other than died, exiled and
    disconnected, an event of another kind -- have no effect on the result:
    they can be taken out of the stream, whatever the match and outcome
    pointers are, as long as at least two events remain. *)
Theorem ignored_events_change_nothing
  (json_Unmarshal : string -> option game.Player)
  (pgame : option PostgresGame.t) (evs : list PostgresGameEvent.t)
  (users : list (option PostgresUserGame.t)) :
  (2 <= List.length (filter (timeline_event json_Unmarshal) evs))%nat ->
  StatsFromGameAndEvents json_Unmarshal pgame (map Some evs) users
  = StatsFromGameAndEvents json_Unmarshal pgame
      (map Some (filter (timeline_event json_Unmarshal) evs)) users.
Proof.
  intros Hlen.
  assert (Hall : (2 <= List.length evs)%nat).
  { pose proof (filter_length_le (timeline_event json_Unmarshal) evs). lia. }
  unfold StatsFromGameAndEvents.
  destruct (users_loop _ users) as [s0|]; cbn [bind]; [|reflexivity].
  rewrite !length_map.
  destruct (Z.ltb_spec (Z.of_nat (List.length evs)) 2); [lia|].
  destruct (Z.ltb_spec
              (Z.of_nat (List.length (filter (timeline_event json_Unmarshal) evs))) 2);
    [lia|].
  now rewrite events_loop_filter.
Qed.

Lemma ignored_events_change_nothing_witness :
  let evs := [Sample.action_at 1005 "not json"; Sample.state_at 1010 DiscussCode;
              Sample.state_at 1015 "7"; Sample.action_at 1020 "JBob";
              Sample.action_at 1030 "DAlice"] in
  (2 <= List.length (filter (timeline_event Sample.decode) evs))%nat
  /\ StatsFromGameAndEvents Sample.decode (Some Sample.match1) (map Some evs) []
     = StatsFromGameAndEvents Sample.decode (Some Sample.match1)
         (map Some [Sample.state_at 1010 DiscussCode; Sample.action_at 1030 "DAlice"])
         [].
Proof.
  intros evs. split; [cbn; lia|].
  apply (ignored_events_change_nothing Sample.decode (Some Sample.match1) evs []).
  cbn; lia.
Defined.

(** ** Nil pointers *)

Lemma users_loop_panics_iff (users : list (option PostgresUserGame.t)) :
  forall s,
    (users_loop s users = Panic <-> In None users)
    /\ (~ In None users -> exists s', users_loop s users = Ok s').
Proof.
  induction users as [|v users IH]; intros s; cbn [users_loop In].
  - split; [split; [discriminate | tauto]|]. intros _. now exists s.
  - destruct v as [u|]; unfold user_step; cbn [deref bind].
    + destruct (PostgresUserGame.PlayerWon u); cbn [bind];
        match goal with
        | |- context [users_loop ?s1 users] => destruct (IH s1) as [Hp Hok]
        end;
        (split; [rewrite Hp; split; [auto | intros [H|H]; [discriminate | exact H]]|]);
        intros Hn; apply Hok; tauto.
    + split; [split; auto|]. intros Hn. exfalso. apply Hn. now left.
Qed.

Lemma events_loop_panics_iff (json_Unmarshal : string -> option game.Player)
  (g : PostgresGame.t) (events : list (option PostgresGameEvent.t)) :
  forall st,
    (events_loop json_Unmarshal (Some g) st events = Panic <-> In None events)
    /\ (~ In None events ->
        exists st', events_loop json_Unmarshal (Some g) st events = Ok st').
Proof.
  induction events as [|ev events IH]; intros st; cbn [events_loop In].
  - split; [split; [discriminate | tauto]|]. intros _. now exists st.
  - destruct ev as [e|].
    + destruct st as [s ex].
      destruct (step_pass json_Unmarshal g s ex e) as (st1 & -> & _). cbn [bind].
      destruct (IH st1) as [Hp Hok].
      split; [rewrite Hp; split; [auto | intros [H|H]; [discriminate | exact H]]|].
      intros Hn. apply Hok. tauto.
    + destruct st as [s ex]. unfold event_step. cbn [deref bind].
      split; [split; auto|]. intros Hn. exfalso. apply Hn. now left.
Qed.

(** X6.  With a match, the reducer panics exactly when the outcome
    list holds a nil pointer, or the event list has at least two entries
    and holds a nil pointer; in every other case it returns statistics.
    In particular a nil pointer in an event list of fewer than two entries
    is never read. *)
Theorem reducer_panics_iff_nil_entry
  (json_Unmarshal : string -> option game.Player)
  (g : PostgresGame.t) (events : list (option PostgresGameEvent.t))
  (users : list (option PostgresUserGame.t)) :
  StatsFromGameAndEvents json_Unmarshal (Some g) events users = Panic
  <-> In None users \/ ((2 <= List.length events)%nat /\ In None events).
Proof.
  unfold StatsFromGameAndEvents.
  destruct (users_loop_panics_iff users
              (stats_win_role (stats_of_game (Some g) stats_init))) as [Hp Hok].
  destruct (users_loop _ users) as [s0|] eqn:Hu; cbn [bind].
  - assert (Hnu : ~ In None users) by (intros H; apply Hp in H; discriminate).
    destruct (Z.ltb_spec (Z.of_nat (List.length events)) 2) as [Hlen | Hlen].
    + split; [discriminate|]. intros [H | [H _]]; [contradiction | lia].
    + destruct (events_loop_panics_iff json_Unmarshal g events (s0, [])) as [Ep Eok].
      destruct (events_loop json_Unmarshal (Some g) (s0, []) events) as [st|] eqn:He;
        cbn [bind].
      * split; [discriminate|]. intros [H | [_ H]]; [contradiction|].
        apply Ep in H. discriminate.
      * split; [|reflexivity]. intros _. right. split; [lia|]. now apply Ep.
  - split; [|reflexivity]. intros _. left. now apply Hp.
Qed.

(** A nil outcome pointer, and a nil event pointer after a first event. *)
Example reducer_nil_pointers :
  StatsFromGameAndEvents Sample.decode (Some Sample.match1) []
    [Some (Sample.outcome "Bob" true); None] = Panic
  /\ StatsFromGameAndEvents Sample.decode (Some Sample.match1)
       [Some (Sample.state_at 1010 DiscussCode); None] [] = Panic
  /\ StatsFromGameAndEvents Sample.decode (Some Sample.match1) [None] []
     = Ok (mkGameStatistics (TimeUnix 1000) (TimeUnix 1100) (100 * Second) 1
             game.CrewmateRole [] [] 0 0 0 0 []).
Proof. repeat split. Qed.

(** ** Without a match *)

(** X7.  Without a match, on event and outcome records, the reducer
    panics exactly when there are at least two events and one of them is of
    a kind that gives a timeline entry; otherwise it returns the zero
    times, the zero duration, [Unknown], the crewmate role, the split of the
    outcome records, zero counters and an empty timeline. *)
Theorem nil_match_outcome
  (json_Unmarshal : string -> option game.Player)
  (evs : list PostgresGameEvent.t) (us : list PostgresUserGame.t) :
  StatsFromGameAndEvents json_Unmarshal None (map Some evs) (map Some us)
  = if (2 <=? Z.of_nat (List.length evs))
       && existsb (timeline_event json_Unmarshal) evs
    then Panic
    else Ok (stats_no_match us).
Proof.
  unfold StatsFromGameAndEvents.
  destruct (before_events None us)
    as (s0 & -> & Hw & Hl & Hwt & Hwr & Hst & Hen & Hdu & Hm & Hd & Hv & Hq & He).
  cbn [bind].
  assert (Hs0 : s0 = stats_no_match us).
  { destruct s0. cbn in *. subst. reflexivity. }
  rewrite length_map.
  destruct (Z.ltb_spec (Z.of_nat (List.length evs)) 2) as [Hlen | Hlen].
  - destruct (Z.leb_spec 2 (Z.of_nat (List.length evs))); [lia|].
    cbn [andb]. now rewrite Hs0.
  - destruct (Z.leb_spec 2 (Z.of_nat (List.length evs))); [|lia].
    cbn [andb]. rewrite events_loop_nil_match.
    destruct (existsb (timeline_event json_Unmarshal) evs); cbn [bind fst];
      [reflexivity | now rewrite Hs0].
Qed.

(** ** The header *)



(** * Printing a duration *)

Lemma colon_free_app (s1 s2 : string) :
  colon_free s1 -> colon_free s2 -> colon_free (s1 ++ s2).
Proof. induction s1 as [|c s1 IH]; cbn; [auto | intros [Hc H1] H2; auto]. Qed.

Lemma colon_free_uint (d : Decimal.uint) :
  colon_free (DecimalString.NilEmpty.string_of_uint d).
Proof. induction d; cbn; auto; split; auto; discriminate. Qed.

Lemma colon_free_Sprintf_d (x : Z) : colon_free (Sprintf_d x).
Proof.
  unfold Sprintf_d, DecimalString.NilZero.string_of_int,
    DecimalString.NilZero.string_of_uint.
  destruct (Z.to_int x) as [d|d]; destruct d; cbn; repeat split;
    try discriminate; apply colon_free_uint.
Qed.

Lemma colon_free_Sprintf_02d (x : Z) : colon_free (Sprintf_02d x).
Proof.
  unfold Sprintf_02d. destruct ((0 <=? x) && (x <? 10)).
  - cbn. split; [discriminate | apply colon_free_Sprintf_d].
  - apply colon_free_Sprintf_d.
Qed.

Lemma split_colon_app (s1 s2 : string) :
  colon_free s1 -> split_colon (s1 ++ ":" ++ s2) = Some (s1, s2).
Proof.
  induction s1 as [|c s1 IH]; cbn in *; [reflexivity|].
  intros [Hc H1]. apply Ascii.eqb_neq in Hc. rewrite Hc, (IH H1). reflexivity.
Qed.

Lemma read_Sprintf_d (x : Z) : read_decimal (Sprintf_d x) = Some x.
Proof.
  unfold read_decimal, Sprintf_d.
  rewrite DecimalString.NilZero.isi.
  - cbn. now rewrite DecimalZ.of_to.
  - destruct x; cbn; try discriminate.
    intros [= H]. exact (DecimalPos.Unsigned.to_uint_nonnil _ H).
  - destruct x; cbn; try discriminate.
    intros [= H]. exact (DecimalPos.Unsigned.to_uint_nonnil _ H).
Qed.

Lemma read_Sprintf_02d (x : Z) : read_decimal (Sprintf_02d x) = Some x.
Proof.
  unfold Sprintf_02d.
  destruct ((0 <=? x) && (x <? 10)) eqn:Hx; [|apply read_Sprintf_d].
  apply andb_true_iff in Hx as [H0 H9]. apply Z.leb_le in H0. apply Z.ltb_lt in H9.
  assert (Hc : x = 0 \/ x = 1 \/ x = 2 \/ x = 3 \/ x = 4 \/ x = 5 \/ x = 6
               \/ x = 7 \/ x = 8 \/ x = 9) by lia.
  repeat (destruct Hc as [-> | Hc]; [reflexivity|]). subst x. reflexivity.
Qed.

(** The minutes and the seconds printed add up to the whole seconds of
    the duration, rounded to zero. *)
Lemma clock_parts_nonneg (d : Z) :
  0 <= d ->
  Z.quot d Minute * 60 + Z.quot (d - Z.quot d Minute * Minute) Second
  = Z.quot d Second
  /\ 0 <= Z.quot d Minute
  /\ 0 <= Z.quot (d - Z.quot d Minute * Minute) Second < 60.
Proof.
  intros Hd. unfold Minute, Second.
  rewrite (Z.quot_div_nonneg d (60 * 1000000000)) by lia.
  pose proof (Z.div_mod d (60 * 1000000000) ltac:(lia)) as Hdm.
  pose proof (Z.mod_pos_bound d (60 * 1000000000) ltac:(lia)) as Hmb.
  assert (Hq : 0 <= d / (60 * 1000000000)) by (apply Z.div_pos; lia).
  set (m := d / (60 * 1000000000)) in *.
  set (r := d mod (60 * 1000000000)) in *.
  replace (d - m * (60 * 1000000000)) with r by lia.
  rewrite (Z.quot_div_nonneg r 1000000000) by lia.
  rewrite (Z.quot_div_nonneg d 1000000000) by lia.
  pose proof (Z.div_mod r 1000000000 ltac:(lia)) as Hrm.
  pose proof (Z.mod_pos_bound r 1000000000 ltac:(lia)) as Hrb.
  assert (Hs : 0 <= r / 1000000000 < 60).
  { split; [apply Z.div_pos; lia|]. apply Z.div_lt_upper_bound; lia. }
  split; [|split; [exact Hq | exact Hs]].
  apply (Z.div_unique d 1000000000 _ (r mod 1000000000)); lia.
Qed.

Lemma clock_parts (d : Z) :
  Z.quot d Minute * 60 + Z.quot (d - Z.quot d Minute * Minute) Second
  = Z.quot d Second.
Proof.
  destruct (Z.le_gt_cases 0 d) as [Hd | Hd].
  - apply clock_parts_nonneg. exact Hd.
  - destruct (clock_parts_nonneg (- d) ltac:(lia)) as [H _].
    rewrite !Z.quot_opp_l in H by (unfold Minute, Second; lia).
    replace (- d - - Z.quot d Minute * Minute)
      with (- (d - Z.quot d Minute * Minute)) in H by lia.
    rewrite Z.quot_opp_l in H by (unfold Second; lia). lia.
Qed.

(** X9.  The clock text of a duration can be read back: the number
    before the colon times sixty plus the number after it is the duration
    in whole seconds, rounded to zero.  Two durations that differ in their
    whole seconds never print the same. *)
Theorem formatTimeDuration_reads_back (d : Z) :
  read_clock (formatTimeDuration d) = Some (Z.quot d Second).
Proof.
  unfold read_clock, formatTimeDuration. cbn zeta.
  rewrite split_colon_app by apply colon_free_Sprintf_02d.
  rewrite !read_Sprintf_02d. now rewrite clock_parts.
Qed.

Lemma Sprintf_02d_two_digits (x : Z) :
  0 <= x < 100 -> String.length (Sprintf_02d x) = 2%nat.
Proof.
  intros Hx.
  assert (Hall : forallb (fun n => Nat.eqb (String.length (Sprintf_02d (Z.of_nat n))) 2)
                   (seq 0 100) = true) by (vm_compute; reflexivity).
  rewrite forallb_forall in Hall.
  specialize (Hall (Z.to_nat x)). rewrite Z2Nat.id in Hall by lia.
  apply Nat.eqb_eq, Hall, in_seq. lia.
Qed.

Lemma length_append (s1 s2 : string) :
  String.length (s1 ++ s2) = (String.length s1 + String.length s2)%nat.
Proof. induction s1; cbn; auto. Qed.

(** X10.  For a duration that is not negative the text is the minutes, a
    colon and the seconds, the seconds between 0 and 59 and both padded to
    two digits; below a hundred minutes the text is five characters
    long. *)
Theorem formatTimeDuration_nonneg (d : Z) :
  0 <= d ->
  let minute := d / Minute in
  let second := (d / Second) mod 60 in
  formatTimeDuration d = (Sprintf_02d minute ++ ":" ++ Sprintf_02d second)%string
  /\ 0 <= second < 60
  /\ (d < 100 * Minute -> String.length (formatTimeDuration d) = 5%nat).
Proof.
  intros Hd minute second.
  destruct (clock_parts_nonneg d Hd) as (Hsum & Hm & Hs).
  assert (Hmin : Z.quot d Minute = minute).
  { apply Z.quot_div_nonneg; unfold Minute, Second; lia. }
  assert (Hsec : Z.quot (d - Z.quot d Minute * Minute) Second = second).
  { subst second. rewrite <- (Z.quot_div_nonneg d Second) by (unfold Second; lia).
    rewrite <- Hsum. rewrite Z.add_comm, Z.mod_add by lia.
    symmetry. apply Z.mod_small. exact Hs. }
  assert (Heq : formatTimeDuration d
                = (Sprintf_02d minute ++ ":" ++ Sprintf_02d second)%string).
  { unfold formatTimeDuration. cbn zeta. now rewrite Hsec, Hmin. }
  split; [exact Heq|]. split; [rewrite <- Hsec; exact Hs|].
  intros Hlt. rewrite Heq, !length_append.
  rewrite !Sprintf_02d_two_digits; [reflexivity | rewrite <- Hsec; lia |].
  subst minute. split; [apply Z.div_pos; unfold Minute, Second; lia|].
  apply Z.div_lt_upper_bound; unfold Minute, Second in *; lia.
Qed.

Lemma formatTimeDuration_nonneg_witness :
  0 <= 754 * Second + 999999999
  /\ formatTimeDuration (754 * Second + 999999999) = "12:34"
  /\ 0 <= ((754 * Second + 999999999) / Second) mod 60 < 60
  /\ (754 * Second + 999999999 < 100 * Minute ->
      String.length (formatTimeDuration (754 * Second + 999999999)) = 5%nat).
Proof.
  split; [unfold Second; lia|].
  exact (formatTimeDuration_nonneg (754 * Second + 999999999)
           ltac:(unfold Second; lia)).
Defined.

(** Negative durations print with signs, and a hundred minutes or more
    with more digits. *)
Example formatTimeDuration_edges :
  formatTimeDuration 0 = "00:00"
  /\ formatTimeDuration (59 * Second) = "00:59"
  /\ formatTimeDuration (60 * Second) = "01:00"
  /\ formatTimeDuration (6000 * Second) = "100:00"
  /\ formatTimeDuration (- (90 * Second)) = "-1:-30"
  /\ formatTimeDuration (- (30 * Second)) = "00:-30".
Proof. repeat split. Qed.

(** * The embed of a reduction *)

Section EmbedFacts.

Variable LocalizeMessage : i18n.Message -> list (string * template_value) -> string.
Variable local_time_text : string -> Time -> string.
Variable Duration_String : Z -> string.
Variable json_Unmarshal : string -> option game.Player.
Variables HumansByTask HumansByVote HumansDisconnect : game.GameResult.

Lemma written_for_well_formed (v : SimpleEvent) :
  well_formed_entry json_Unmarshal v ->
  exists text,
    written_for LocalizeMessage json_Unmarshal v
    = Some (event_line (formatTimeDuration (EventTimeOffset v)) text).
Proof.
  unfold well_formed_entry, written_for, player_line.
  destruct (EventType v); intros H; try (eexists; reflexivity);
    destruct H as (p & -> & _); eexists; reflexivity.
Qed.

(** One line per well-formed entry, opening with the clock text of the
    entry. *)
Lemma written_well_formed (tl : list SimpleEvent) :
  Forall (well_formed_entry json_Unmarshal) tl ->
  Forall2
    (fun line v =>
       exists text, line = event_line (formatTimeDuration (EventTimeOffset v)) text)
    (written LocalizeMessage json_Unmarshal tl) tl.
Proof.
  induction 1 as [|v tl Hv Htl IH]; cbn [written]; [constructor|].
  destruct (written_for_well_formed v Hv) as (text & ->).
  constructor; [now exists text | exact IH].
Qed.

End EmbedFacts.

Lemma lines_not_empty (lines : list string) (tl : list SimpleEvent) :
  Forall2
    (fun line v =>
       exists text, line = event_line (formatTimeDuration (EventTimeOffset v)) text)
    lines tl ->
  tl <> [] -> String.concat "" lines <> EmptyString.
Proof.
  intros H Hne. destruct H as [|line v lines tl (text & ->) Hrest]; [congruence|].
  cbn [String.concat]. destruct lines; unfold event_line; cbn; discriminate.
Qed.

(** X11.  The embed of a reduction lists every entry of its timeline:
    the loop that writes the game events decodes the data of each player
    entry again and skips the entry on an error, but on the timeline of the
    reducer (with the same decoder) no entry is skipped.  One line is
    written per entry, in order, each opening with the clock text of its
    entry; and when the timeline is not empty the embed has a game-events
    field whose value, these lines, is not empty. *)
Theorem embed_lists_every_timeline_entry
  (LocalizeMessage : i18n.Message -> list (string * template_value) -> string)
  (local_time_text : string -> Time -> string) (Duration_String : Z -> string)
  (json_Unmarshal : string -> option game.Player)
  (HumansByTask HumansByVote HumansDisconnect : game.GameResult)
  (g : PostgresGame.t) (evs : list PostgresGameEvent.t)
  (us : list PostgresUserGame.t) (combinedID : string) :
  exists st,
    StatsFromGameAndEvents json_Unmarshal (Some g) (map Some evs) (map Some us) = Ok st
    /\ let lines := written LocalizeMessage json_Unmarshal (Events st) in
       List.length lines = List.length (Events st)
       /\ Forall2
            (fun line v =>
               exists text,
                 line = event_line (formatTimeDuration (EventTimeOffset v)) text)
            lines (Events st)
       /\ (Events st <> [] ->
           String.concat "" lines <> EmptyString
           /\ In (discordgo.mkField
                    (LocalizeMessage
                       (i18n.mk "responses.matchStatsEmbed.GameEvents"
                          "📋 Game Events") [])
                    (String.concat "" lines) false)
                (discordgo.Fields
                   (ToDiscordEmbed LocalizeMessage local_time_text Duration_String
                      json_Unmarshal HumansByTask HumansByVote HumansDisconnect
                      st combinedID))).
Proof.
  destruct (reduce_entries_decode json_Unmarshal g evs us) as (st & Hst & Hwf).
  exists st. split; [exact Hst|]. cbn zeta.
  pose proof (written_well_formed LocalizeMessage json_Unmarshal (Events st) Hwf)
    as Hlines.
  split; [exact (Forall2_length Hlines)|]. split; [exact Hlines|].
  intros Hne. split.
  - exact (lines_not_empty _ _ Hlines Hne).
  - unfold ToDiscordEmbed. destruct (WinRole st); cbn [discordgo.Fields];
      (apply in_or_app; right; apply in_or_app; right; apply in_or_app; right);
      destruct (Events st) as [|v tl]; try congruence; cbn [field_if_any]; now left.
Qed.

(** X12.  The embed of a reduction shows as the number of players the
    number of outcome records the reducer was given. *)
Theorem embed_counts_outcome_records
  (LocalizeMessage : i18n.Message -> list (string * template_value) -> string)
  (local_time_text : string -> Time -> string) (Duration_String : Z -> string)
  (json_Unmarshal : string -> option game.Player)
  (HumansByTask HumansByVote HumansDisconnect : game.GameResult)
  (g : PostgresGame.t) (evs : list PostgresGameEvent.t)
  (us : list PostgresUserGame.t) (combinedID : string) :
  exists st,
    StatsFromGameAndEvents json_Unmarshal (Some g) (map Some evs) (map Some us) = Ok st
    /\ In (discordgo.mkField
             (LocalizeMessage
                (i18n.mk "responses.matchStatsEmbed.Players" "🎮 Players") [])
             (Sprintf_d (Z.of_nat (List.length us))) true)
         (discordgo.Fields
            (ToDiscordEmbed LocalizeMessage local_time_text Duration_String
               json_Unmarshal HumansByTask HumansByVote HumansDisconnect
               st combinedID)).
Proof.
  destruct (reduce_returns json_Unmarshal g evs us) as (st & Hst).
  exists st. split; [exact Hst|].
  apply reduce_header in Hst as (s0 & Hrun & Hh).
  destruct (before_events (Some g) us) as (s0' & Hrun' & Hw & Hl & _).
  rewrite Hrun in Hrun'. inversion Hrun'; subst s0'.
  destruct Hh as (_ & _ & _ & _ & _ & Hw' & Hl').
  assert (Hn : Z.of_nat (List.length us)
               = Z.of_nat (List.length (WinPlayerNames st))
                 + Z.of_nat (List.length (LosePlayerNames st))).
  { rewrite Hw', Hl', Hw, Hl, <- Nat2Z.inj_add, <- length_app.
    rewrite (Permutation_length (winners_losers_permutation us)).
    now rewrite length_map. }
  rewrite Hn. unfold ToDiscordEmbed. destruct (WinRole st); cbn [discordgo.Fields];
    (apply in_or_app; right; apply in_or_app; right; apply in_or_app; left);
    cbn; auto 10.
Qed.

(** * Properties of the counts *)

Lemma count_where_nonneg {A : Type} (p : A -> bool) (l : list A) :
  0 <= count_where p l.
Proof. unfold count_where. lia. Qed.

Lemma count_where_le {A : Type} (p q : A -> bool) (l : list A) :
  (forall x, In x l -> p x = true -> q x = true) ->
  count_where p l <= count_where q l.
Proof.
  unfold count_where. intros H. apply Nat2Z.inj_le.
  induction l as [|x l IH]; cbn [filter]; [lia|].
  assert (IH' : (List.length (filter p l) <= List.length (filter q l))%nat).
  { apply IH. intros y Hy. apply H. now right. }
  destruct (p x) eqn:Hp.
  - rewrite (H x (or_introl eq_refl) Hp). cbn. lia.
  - destruct (q x); cbn; lia.
Qed.

Lemma count_where_ext {A : Type} (p q : A -> bool) (l : list A) :
  (forall x, In x l -> p x = q x) -> count_where p l = count_where q l.
Proof.
  intros H. unfold count_where. f_equal. f_equal. apply filter_ext_in. exact H.
Qed.

Lemma count_where_split {A : Type} (p q : A -> bool) (l : list A) :
  (forall x, In x l -> p x && q x = false) ->
  count_where p l + count_where q l = count_where (fun x => p x || q x) l.
Proof.
  unfold count_where. intros H. rewrite <- Nat2Z.inj_add. f_equal.
  induction l as [|x l IH]; cbn [filter]; [reflexivity|].
  assert (IH' : (List.length (filter p l) + List.length (filter q l)
                 = List.length (filter (fun x => p x || q x) l))%nat).
  { apply IH. intros y Hy. apply H. now right. }
  specialize (H x (or_introl eq_refl)).
  destruct (p x), (q x); cbn in *; try discriminate; lia.
Qed.

Lemma reduced_win_role_eq (g : PostgresGame.t) :
  reduced_win_role g
  = Some (if impostor_win (PostgresGame.WinType g)
          then game.ImposterRole else game.CrewmateRole).
Proof.
  unfold reduced_win_role, StatsFromGameAndEvents. cbn.
  unfold stats_win_role. cbn.
  destruct (impostor_win (PostgresGame.WinType g)); reflexivity.
Qed.

(** X13.  The games the store counts as won by a role are the games of
    the guild with a win code from 0 to 6 whose reduction names that role
    as the winner.  A game with any other code is counted for neither role,
    although its reduction names the crewmates. *)
Theorem games_won_agree_with_reducer
  (ParseInt : string -> Z) (games : list PostgresGame.t)
  (guildID : string) (role : game.GameRole) :
  NumGamesWonAsRoleOnServer ParseInt (Some games) guildID role
  = count_where
      (fun g =>
         (PostgresGame.GuildID g =? ParseInt guildID)
         && ((0 <=? PostgresGame.WinType g) && (PostgresGame.WinType g <=? 6))
         && match reduced_win_role g with
            | Some r => same_role r role
            | None => false
            end) games.
Proof.
  unfold NumGamesWonAsRoleOnServer. cbn zeta.
  destruct role; apply count_where_ext; intros g _;
    rewrite reduced_win_role_eq;
    unfold crewmate_win_type, imposter_win_type, impostor_win,
      game.ImpostorDisconnect, game.ImpostorBySabotage, game.ImpostorByVote,
      game.ImpostorByKill;
    set (c := PostgresGame.WinType g);
    destruct (PostgresGame.GuildID g =? ParseInt guildID); cbn [andb];
      try reflexivity;
    destruct (Z.eqb_spec c 0), (Z.eqb_spec c 1), (Z.eqb_spec c 2),
      (Z.eqb_spec c 3), (Z.eqb_spec c 4), (Z.eqb_spec c 5), (Z.eqb_spec c 6);
    subst; cbn; try reflexivity; try lia;
    destruct (Z.leb_spec 0 c), (Z.leb_spec c 6); cbn; try reflexivity; lia.
Qed.

(** X14.  When the games can be queried, the wins of the two roles in a
    guild add up to the number of its games with a win code from 0 to 6;
    neither count is negative.  When they cannot, both counts and the count
    of games played are -1. *)
Theorem games_won_add_up
  (ParseInt : string -> Z) (guildID : string) :
  (forall games,
      NumGamesWonAsRoleOnServer ParseInt (Some games) guildID game.CrewmateRole
      + NumGamesWonAsRoleOnServer ParseInt (Some games) guildID game.ImposterRole
      = count_where
          (fun g => (PostgresGame.GuildID g =? ParseInt guildID)
                    && ((0 <=? PostgresGame.WinType g)
                        && (PostgresGame.WinType g <=? 6))) games
      /\ 0 <= NumGamesWonAsRoleOnServer ParseInt (Some games) guildID game.CrewmateRole
      /\ 0 <= NumGamesWonAsRoleOnServer ParseInt (Some games) guildID game.ImposterRole
      /\ 0 <= NumGamesPlayedOnGuild ParseInt (Some games) guildID)
  /\ NumGamesWonAsRoleOnServer ParseInt None guildID game.CrewmateRole = -1
  /\ NumGamesWonAsRoleOnServer ParseInt None guildID game.ImposterRole = -1
  /\ NumGamesPlayedOnGuild ParseInt None guildID = -1.
Proof.
  split; [|repeat split].
  intros games. unfold NumGamesWonAsRoleOnServer, NumGamesPlayedOnGuild. cbn zeta.
  split; [|repeat split; apply count_where_nonneg].
  rewrite count_where_split.
  - apply count_where_ext. intros g _.
    unfold crewmate_win_type, imposter_win_type.
    set (c := PostgresGame.WinType g).
    destruct (PostgresGame.GuildID g =? ParseInt guildID); cbn [andb orb];
      [|reflexivity].
    destruct (Z.eqb_spec c 0), (Z.eqb_spec c 1), (Z.eqb_spec c 2),
      (Z.eqb_spec c 3), (Z.eqb_spec c 4), (Z.eqb_spec c 5), (Z.eqb_spec c 6);
      subst; cbn; try reflexivity; try lia;
      destruct (Z.leb_spec 0 c), (Z.leb_spec c 6); cbn; try reflexivity; lia.
  - intros g _. unfold crewmate_win_type, imposter_win_type.
    set (c := PostgresGame.WinType g).
    destruct (PostgresGame.GuildID g =? ParseInt guildID); cbn [andb orb];
      [|reflexivity].
    destruct (Z.eqb_spec c 0), (Z.eqb_spec c 1), (Z.eqb_spec c 2),
      (Z.eqb_spec c 3), (Z.eqb_spec c 4), (Z.eqb_spec c 5), (Z.eqb_spec c 6);
      subst; cbn; try reflexivity; lia.
Qed.

Ltac count_le :=
  let Hc := fresh "Hc" in
  apply count_where_le; intros ? _ Hc;
  repeat match goal with
    | H : _ && _ = true |- _ => apply andb_true_iff in H as [? ?]
    end;
  repeat (apply andb_true_iff; split); assumption.

(** X15.  When the queries succeed, the counts of one user are ordered
    as their conditions are: wins in a role on a server are among the games
    in that role on that server, which are among the games in that role,
    which are among all games of the user; wins in a role on a server are
    among the wins in a role, which are among all wins, which are among all
    games; and the wins in two different roles together are at most all
    wins.  No count is negative. *)
Theorem user_counts_are_ordered
  (parse_numeric : string -> option Z) (rows : list PostgresUserGame.t)
  (userID guildID : string) (uid gid role role' : Z) :
  parse_numeric userID = Some uid ->
  parse_numeric guildID = Some gid ->
  let pool := Some rows in
  0 <= NumWinsAsRoleOnServer parse_numeric pool userID guildID role
  /\ NumWinsAsRoleOnServer parse_numeric pool userID guildID role
     <= NumGamesAsRoleOnServer parse_numeric pool userID guildID role
  /\ NumGamesAsRoleOnServer parse_numeric pool userID guildID role
     <= NumGamesAsRole parse_numeric pool userID role
  /\ NumGamesAsRole parse_numeric pool userID role
     <= NumGamesPlayedByUser parse_numeric pool userID
  /\ NumWinsAsRoleOnServer parse_numeric pool userID guildID role
     <= NumWinsAsRole parse_numeric pool userID role
  /\ NumWinsAsRoleOnServer parse_numeric pool userID guildID role
     <= NumWinsOnServer parse_numeric pool userID guildID
  /\ NumWinsOnServer parse_numeric pool userID guildID
     <= NumWins parse_numeric pool userID
  /\ NumWinsAsRole parse_numeric pool userID role
     <= NumWins parse_numeric pool userID
  /\ NumWins parse_numeric pool userID
     <= NumGamesPlayedByUser parse_numeric pool userID
  /\ (role <> role' ->
      NumWinsAsRole parse_numeric pool userID role
      + NumWinsAsRole parse_numeric pool userID role'
      <= NumWins parse_numeric pool userID).
Proof.
  intros Hu Hg pool. subst pool.
  unfold NumWinsAsRoleOnServer, NumGamesAsRoleOnServer, NumGamesAsRole,
    NumGamesPlayedByUser, NumWinsAsRole, NumWinsOnServer, NumWins.
  rewrite Hu, Hg.
  split; [apply count_where_nonneg|].
  repeat (split; [count_le|]).
  intros Hr. rewrite count_where_split.
  - apply count_where_le. intros u _ H.
    apply orb_true_iff in H as [H | H];
      repeat match goal with
        | H : _ && _ = true |- _ => apply andb_true_iff in H as [? ?]
        end;
      apply andb_true_iff; split; assumption.
  - intros u _.
    destruct (PostgresUserGame.PlayerRole u =? role) eqn:H1;
      destruct (PostgresUserGame.PlayerRole u =? role') eqn:H2;
      rewrite ?andb_false_r, ?andb_false_l; cbn [andb]; try reflexivity.
    apply Z.eqb_eq in H1, H2. congruence.
Qed.

Lemma user_counts_are_ordered_witness :
  let pool := Some SampleStore.users_games in
  SampleStore.parse_digit "1" = Some 1
  /\ SampleStore.parse_digit "9" = Some 9
  /\ NumWinsAsRoleOnServer SampleStore.parse_digit pool "1" "9" 0 = 3
  /\ NumWinsAsRoleOnServer SampleStore.parse_digit pool "1" "9" 0
     <= NumGamesAsRoleOnServer SampleStore.parse_digit pool "1" "9" 0
  /\ NumGamesPlayedByUser SampleStore.parse_digit pool "1" = 5.
Proof.
  intros pool.
  assert (Hu : SampleStore.parse_digit "1" = Some 1) by reflexivity.
  assert (Hg : SampleStore.parse_digit "9" = Some 9) by reflexivity.
  split; [exact Hu|]. split; [exact Hg|]. split; [reflexivity|].
  split; [|reflexivity].
  exact (proj1 (proj2 (user_counts_are_ordered SampleStore.parse_digit
                         SampleStore.users_games "1" "9" 1 9 0 1 Hu Hg))).
Defined.

(** X16.  A count over the users' games is -1 exactly when its query
    fails: the table cannot be queried, or a text parameter the server has
    to convert is not a number.  The count of a user's games on a server
    converts the guild itself and so does not fail on a bad guild
    identifier. *)
Theorem user_counts_fail_with_minus_one
  (ParseInt : string -> Z) (parse_numeric : string -> option Z)
  (pool : option (list PostgresUserGame.t)) (userID guildID : string) (role : Z) :
  let bad_user := pool = None \/ parse_numeric userID = None in
  let bad_any := bad_user \/ parse_numeric guildID = None in
  (NumGamesPlayedByUser parse_numeric pool userID = -1 <-> bad_user)
  /\ (NumGuildsPlayedInByUser parse_numeric pool userID = -1 <-> bad_user)
  /\ (NumGamesPlayedByUserOnServer ParseInt parse_numeric pool userID guildID = -1
      <-> bad_user)
  /\ (NumWinsAsRole parse_numeric pool userID role = -1 <-> bad_user)
  /\ (NumGamesAsRole parse_numeric pool userID role = -1 <-> bad_user)
  /\ (NumWins parse_numeric pool userID = -1 <-> bad_user)
  /\ (NumWinsAsRoleOnServer parse_numeric pool userID guildID role = -1 <-> bad_any)
  /\ (NumGamesAsRoleOnServer parse_numeric pool userID guildID role = -1 <-> bad_any)
  /\ (NumWinsOnServer parse_numeric pool userID guildID = -1 <-> bad_any).
Proof.
  cbn zeta.
  unfold NumGamesPlayedByUser, NumGuildsPlayedInByUser, NumGamesPlayedByUserOnServer,
    NumWinsAsRole, NumGamesAsRole, NumWins, NumWinsAsRoleOnServer,
    NumGamesAsRoleOnServer, NumWinsOnServer, count_where.
  destruct pool as [rows|], (parse_numeric userID) as [uid|],
    (parse_numeric guildID) as [gid|];
    repeat split; intros; try lia; try tauto; try discriminate;
    try (exfalso; intuition discriminate).
Qed.

Lemma nodup_length_le (l : list Z) :
  (List.length (nodup Z.eq_dec l) <= List.length l)%nat.
Proof.
  induction l as [|x l IH]; cbn [nodup List.length]; [lia|].
  destruct (in_dec Z.eq_dec x l); cbn [List.length]; lia.
Qed.

Lemma nodup_nil_iff (l : list Z) : nodup Z.eq_dec l = [] <-> l = [].
Proof.
  split; [|intros ->; reflexivity].
  destruct l as [|x l]; [reflexivity|]. intros H.
  assert (Hin : In x (nodup Z.eq_dec (x :: l))) by (apply nodup_In; now left).
  rewrite H in Hin. destruct Hin.
Qed.

(** X17.  When the query succeeds, the number of guilds a user has
    played in is at most the number of the user's games, it is zero
    exactly when the user has no game, and it counts a guild exactly when
    one of the user's rows is in that guild, each guild once. *)
Theorem guilds_played_in_counts_each_guild_once
  (parse_numeric : string -> option Z) (rows : list PostgresUserGame.t)
  (userID : string) (uid : Z) :
  parse_numeric userID = Some uid ->
  exists guilds : list Z,
    NumGuildsPlayedInByUser parse_numeric (Some rows) userID
    = Z.of_nat (List.length guilds)
    /\ NoDup guilds
    /\ (forall gid,
           In gid guilds
           <-> exists u, In u rows /\ PostgresUserGame.UserID u = uid
                         /\ PostgresUserGame.GuildID u = gid)
    /\ 0 <= NumGuildsPlayedInByUser parse_numeric (Some rows) userID
       <= NumGamesPlayedByUser parse_numeric (Some rows) userID
    /\ (NumGuildsPlayedInByUser parse_numeric (Some rows) userID = 0
        <-> NumGamesPlayedByUser parse_numeric (Some rows) userID = 0).
Proof.
  intros Hu. unfold NumGuildsPlayedInByUser, NumGamesPlayedByUser, count_where.
  rewrite Hu.
  set (mine := filter (fun u => PostgresUserGame.UserID u =? uid) rows).
  exists (nodup Z.eq_dec (map PostgresUserGame.GuildID mine)).
  split; [reflexivity|]. split; [apply NoDup_nodup|]. split; [|split].
  - intros gid. rewrite nodup_In, in_map_iff. subst mine. split.
    + intros (u & Hg & Hin). apply filter_In in Hin as [Hin Heq].
      apply Z.eqb_eq in Heq. exists u. auto.
    + intros (u & Hin & Heq & Hg). exists u. split; [exact Hg|].
      apply filter_In. split; [exact Hin | now apply Z.eqb_eq].
  - pose proof (nodup_length_le (map PostgresUserGame.GuildID mine)) as H.
    rewrite length_map in H. lia.
  - split; intros H.
    + assert (Hn : nodup Z.eq_dec (map PostgresUserGame.GuildID mine) = []).
      { apply length_zero_iff_nil. lia. }
      apply nodup_nil_iff, map_eq_nil in Hn. now rewrite Hn.
    + assert (Hn : mine = []) by (apply length_zero_iff_nil; lia).
      now rewrite Hn.
Qed.

Lemma guilds_played_in_counts_each_guild_once_witness :
  SampleStore.parse_digit "1" = Some 1
  /\ exists guilds : list Z,
       NumGuildsPlayedInByUser SampleStore.parse_digit
         (Some SampleStore.users_games) "1" = Z.of_nat (List.length guilds)
       /\ NoDup guilds.
Proof.
  assert (Hu : SampleStore.parse_digit "1" = Some 1) by reflexivity.
  split; [exact Hu|].
  destruct (guilds_played_in_counts_each_guild_once SampleStore.parse_digit
              SampleStore.users_games "1" 1 Hu) as (guilds & Hn & Hd & _).
  exists guilds. split; [exact Hn | exact Hd].
Defined.

(** X18.  The count of a user's games on a server converts the guild
    with [ParseInt] while the other counts leave it to the server.  When
    both conversions give the same number, the user's wins on the server
    and the user's games in a role on the server are among the user's games
    on the server, which are among all games of the user. *)
Theorem games_on_server_bound_the_other_counts
  (ParseInt : string -> Z) (parse_numeric : string -> option Z)
  (rows : list PostgresUserGame.t) (userID guildID : string) (uid role : Z) :
  parse_numeric userID = Some uid ->
  parse_numeric guildID = Some (ParseInt guildID) ->
  let pool := Some rows in
  NumWinsOnServer parse_numeric pool userID guildID
  <= NumGamesPlayedByUserOnServer ParseInt parse_numeric pool userID guildID
  /\ NumGamesAsRoleOnServer parse_numeric pool userID guildID role
     <= NumGamesPlayedByUserOnServer ParseInt parse_numeric pool userID guildID
  /\ NumGamesPlayedByUserOnServer ParseInt parse_numeric pool userID guildID
     <= NumGamesPlayedByUser parse_numeric pool userID.
Proof.
  intros Hu Hg pool. subst pool.
  unfold NumWinsOnServer, NumGamesAsRoleOnServer, NumGamesPlayedByUserOnServer,
    NumGamesPlayedByUser.
  cbn zeta. rewrite Hu, Hg.
  split; [count_le|]. split; count_le.
Qed.

Lemma games_on_server_bound_the_other_counts_witness :
  let pool := Some SampleStore.users_games in
  let ParseInt := fun s => match SampleStore.parse_digit s with
                           | Some n => n
                           | None => 0
                           end in
  SampleStore.parse_digit "1" = Some 1
  /\ SampleStore.parse_digit "9" = Some (ParseInt "9")
  /\ NumWinsOnServer SampleStore.parse_digit pool "1" "9"
     <= NumGamesPlayedByUserOnServer ParseInt SampleStore.parse_digit pool "1" "9"
  /\ NumGamesPlayedByUserOnServer ParseInt SampleStore.parse_digit pool "1" "9" = 5.
Proof.
  intros pool ParseInt.
  assert (Hu : SampleStore.parse_digit "1" = Some 1) by reflexivity.
  assert (Hg : SampleStore.parse_digit "9" = Some (ParseInt "9")) by reflexivity.
  split; [exact Hu|]. split; [exact Hg|]. split; [|reflexivity].
  exact (proj1 (games_on_server_bound_the_other_counts ParseInt
                  SampleStore.parse_digit SampleStore.users_games "1" "9" 1 0 Hu Hg)).
Defined.

(** * Properties of the rankings with one sort key *)

Section SortBy.

Variable A : Type.
Variable before : A -> A -> bool.

Lemma insert_by_perm (r : A) (l : list A) :
  Permutation (insert_by before r l) (r :: l).
Proof.
  induction l as [|x l IH]; cbn [insert_by]; [reflexivity|].
  destruct (before r x); [reflexivity|].
  rewrite IH. apply perm_swap.
Qed.

Lemma sort_by_perm (l : list A) : Permutation (sort_by before l) l.
Proof.
  induction l as [|r l IH]; cbn [sort_by]; [reflexivity|].
  rewrite insert_by_perm. now constructor.
Qed.

Hypothesis before_total : forall a b, before a b = true \/ before b a = true.
Hypothesis before_trans :
  forall a b c, before a b = true -> before b c = true -> before a c = true.

Lemma insert_by_sorted (r : A) (l : list A) :
  StronglySorted (fun a b => before a b = true) l ->
  StronglySorted (fun a b => before a b = true) (insert_by before r l).
Proof.
  induction l as [|x l IH]; intros Hs; cbn [insert_by].
  - repeat constructor.
  - inversion Hs as [|? ? Hl Hall]; subst.
    destruct (before r x) eqn:Hb.
    + constructor; [exact Hs|]. constructor; [exact Hb|].
      rewrite Forall_forall in *. intros y Hy. eapply before_trans; eauto.
    + constructor; [auto|].
      rewrite Forall_forall in *. intros y Hy.
      apply (Permutation_in _ (insert_by_perm r l)) in Hy.
      destruct Hy as [<-|Hy]; [|auto].
      destruct (before_total r x); congruence.
Qed.

Lemma sort_by_sorted (l : list A) :
  StronglySorted (fun a b => before a b = true) (sort_by before l).
Proof.
  induction l as [|r l IH]; cbn [sort_by]; [constructor|].
  now apply insert_by_sorted.
Qed.

End SortBy.

Lemma sum_ext_in {K : Type} (f h : K -> Z) (ks : list K) :
  (forall k, In k ks -> f k = h k) ->
  fold_right (fun k acc => f k + acc) 0 ks
  = fold_right (fun k acc => h k + acc) 0 ks.
Proof.
  induction ks as [|k ks IH]; intros H; cbn [fold_right]; [reflexivity|].
  rewrite (H k (or_introl eq_refl)), IH; [reflexivity|].
  intros k' Hk'. apply H. now right.
Qed.

(** The groups of a list by a key add up to the list. *)
Lemma groups_add_up {A K : Type} (K_eq_dec : forall a b : K, {a = b} + {a <> b})
  (key : A -> K) (l : list A) (ks : list K) :
  NoDup ks -> (forall x, In x l -> In (key x) ks) ->
  fold_right
    (fun k acc =>
       Z.of_nat (List.length
                   (filter (fun x => if K_eq_dec (key x) k then true else false) l))
       + acc) 0 ks
  = Z.of_nat (List.length l).
Proof.
  intros Hnd. revert l. induction Hnd as [|k ks Hk Hnd IH]; intros l Hin.
  - destruct l as [|x l]; [reflexivity|]. destruct (Hin x (or_introl eq_refl)).
  - cbn [fold_right].
    set (here := fun x => if K_eq_dec (key x) k then true else false).
    set (rest := filter (fun x => negb (here x)) l).
    assert (Hrest : forall k', In k' ks ->
              filter (fun x => if K_eq_dec (key x) k' then true else false) l
              = filter (fun x => if K_eq_dec (key x) k' then true else false) rest).
    { intros k' Hk'. subst rest. rewrite filter_filter_and.
      apply filter_ext. intros x. subst here. cbn.
      destruct (K_eq_dec (key x) k) as [->|]; cbn; [|reflexivity].
      destruct (K_eq_dec k k') as [->|]; [contradiction | reflexivity]. }
    assert (Hfold : fold_right
              (fun k' acc =>
                 Z.of_nat (List.length
                    (filter (fun x => if K_eq_dec (key x) k' then true else false) l))
                 + acc) 0 ks
              = Z.of_nat (List.length rest)).
    { rewrite <- (IH rest).
      - apply sum_ext_in. intros k' Hk'. now rewrite (Hrest k' Hk').
      - intros x Hx. subst rest. apply filter_In in Hx as [Hx Hnk].
        destruct (Hin x Hx) as [Heq|H]; [|exact H].
        exfalso. unfold here in Hnk.
        destruct (K_eq_dec (key x) k); [discriminate | congruence]. }
    rewrite Hfold. subst rest. fold here.
    rewrite <- Nat2Z.inj_add. f_equal.
    clear. induction l as [|x l IH]; cbn [filter]; [reflexivity|].
    destruct (here x); cbn [negb List.length]; lia.
Qed.

Lemma StronglySorted_weaken {A : Type} (R S : A -> A -> Prop) (l : list A) :
  (forall x y, R x y -> S x y) -> StronglySorted R l -> StronglySorted S l.
Proof.
  intros H Hs. rewrite <- (map_id l). eapply StronglySorted_map; [|exact Hs]. exact H.
Qed.

Lemma sum_perm {A : Type} (f : A -> Z) (l1 l2 : list A) :
  Permutation l1 l2 ->
  fold_right (fun r acc => f r + acc) 0 l1 = fold_right (fun r acc => f r + acc) 0 l2.
Proof. induction 1; cbn [fold_right]; lia. Qed.

Lemma sum_map {A B : Type} (f : B -> Z) (h : A -> B) (l : list A) :
  fold_right (fun r acc => f r + acc) 0 (map h l)
  = fold_right (fun k acc => f (h k) + acc) 0 l.
Proof. induction l as [|x l IH]; cbn [map fold_right]; [reflexivity | now rewrite IH]. Qed.

Lemma In_length_pos {A : Type} (x : A) (l : list A) :
  In x l -> (1 <= List.length l)%nat.
Proof. destruct l; cbn; [tauto | lia]. Qed.

Section WinRanking.

Variable decimal_div : Z -> Z -> Q.

Lemma rate_desc_total a b : rate_desc a b = true \/ rate_desc b a = true.
Proof.
  unfold rate_desc. rewrite !Qle_bool_iff.
  destruct (Qlt_le_dec (PostgresPlayerRanking.WinRate a)
              (PostgresPlayerRanking.WinRate b)) as [H|H]; [right | left]; auto.
  now apply Qlt_le_weak.
Qed.

Lemma rate_desc_trans a b c :
  rate_desc a b = true -> rate_desc b c = true -> rate_desc a c = true.
Proof. unfold rate_desc. rewrite !Qle_bool_iff. intros H1 H2. eapply Qle_trans; eauto. Qed.

Lemma win_ranking_query_facts (cond : PostgresUserGame.t -> bool)
  (users_games : list PostgresUserGame.t) :
  win_ranking_of decimal_div cond users_games
    (win_ranking_query decimal_div cond users_games).
Proof.
  unfold win_ranking_of, win_ranking_query.
  set (rows := filter cond users_games).
  set (users := nodup Z.eq_dec (map PostgresUserGame.UserID rows)).
  set (groups := map (select_user decimal_div rows) users).
  pose proof (sort_by_perm _ rate_desc groups) as Hperm.
  assert (Hids : map PostgresPlayerRanking.UserID groups = users).
  { subst groups. rewrite map_map. cbn. apply map_id. }
  split; [|split; [|split; [|split]]].
  - eapply StronglySorted_weaken;
      [|apply sort_by_sorted; [apply rate_desc_total | apply rate_desc_trans]].
    intros x y H. unfold rate_desc in H. now apply Qle_bool_iff.
  - eapply Permutation_NoDup;
      [apply Permutation_map; symmetry; exact Hperm|].
    rewrite Hids. apply NoDup_nodup.
  - intros uid.
    assert (Hiff : In uid (map PostgresPlayerRanking.UserID (sort_by rate_desc groups))
                   <-> In uid users).
    { rewrite <- Hids. split; apply Permutation_in; apply Permutation_map;
        [exact Hperm | symmetry; exact Hperm]. }
    rewrite Hiff. subst users. rewrite nodup_In, in_map_iff. subst rows. split.
    + intros (u & Hu & Hin). apply filter_In in Hin as [Hin Hc]. exists u. auto.
    + intros (u & Hin & Hc & Hu). exists u. split; [exact Hu|].
      apply filter_In. auto.
  - intros r Hr. apply (Permutation_in _ Hperm) in Hr.
    subst groups. apply in_map_iff in Hr as (uid & <- & Huid).
    unfold select_user, count_where. cbn.
    subst rows. rewrite !filter_filter_and.
    split; [reflexivity|]. split; [reflexivity|].
    assert (Hpos : (1 <= List.length
                      (filter (fun x => cond x && (PostgresUserGame.UserID x =? uid)%Z)
                         users_games))%nat).
    { subst users. apply nodup_In, in_map_iff in Huid as (u & Hu & Hin).
      apply filter_In in Hin as [Hin Hc].
      assert (Hmem : In u (filter (fun x => cond x && (PostgresUserGame.UserID x =? uid))
                             users_games)).
      { apply filter_In. split; [exact Hin|]. rewrite Hc. cbn. now apply Z.eqb_eq. }
      exact (In_length_pos _ _ Hmem). }
    split; [lia|]. split; [|reflexivity]. split; [lia|].
    apply Nat2Z.inj_le.
    rewrite <- (filter_filter_and PostgresUserGame.PlayerWon).
    apply filter_length_le.
  - rewrite (sum_perm PostgresPlayerRanking.Total _ _ Hperm).
    subst groups. rewrite sum_map. cbn.
    unfold count_where. fold rows.
    rewrite <- (groups_add_up Z.eq_dec PostgresUserGame.UserID rows users).
    + apply sum_ext_in. intros k _. f_equal. f_equal. apply filter_ext.
      intros u. destruct (Z.eq_dec (PostgresUserGame.UserID u) k) as [->|Hn].
      * apply Z.eqb_refl.
      * now apply Z.eqb_neq.
    + apply NoDup_nodup.
    + intros u Hu. subst users. apply nodup_In. now apply in_map.
Qed.

End WinRanking.

(** X19.  The win-rate rankings of a guild, over all roles and for one
    role, list each user who has a row of the guild (in that role) exactly
    once, with the number of these rows as total (at least 1), the number
    of the winning ones as wins and their quotient times 100 as rate, the
    higher rates first; the totals add up to the number of these rows.  A
    failed query gives the empty ranking. *)
Theorem win_rate_rankings_list_each_user_once
  (decimal_div : Z -> Z -> Q) (users_games : list PostgresUserGame.t)
  (guildID role : Z) :
  win_ranking_of decimal_div
    (fun u => PostgresUserGame.GuildID u =? guildID) users_games
    (TotalWinRankingForServer decimal_div (Some users_games) guildID)
  /\ win_ranking_of decimal_div
       (fun u => (PostgresUserGame.GuildID u =? guildID)
                 && (PostgresUserGame.PlayerRole u =? role)) users_games
       (TotalWinRankingForServerByRole decimal_div (Some users_games) guildID role)
  /\ TotalWinRankingForServer decimal_div None guildID = []
  /\ TotalWinRankingForServerByRole decimal_div None guildID role = [].
Proof.
  unfold TotalWinRankingForServer, TotalWinRankingForServerByRole.
  split; [apply win_ranking_query_facts|].
  split; [apply win_ranking_query_facts|]. split; reflexivity.
Qed.

(** X20.  The rankings and the counts agree: the row of a user in the
    win-rate ranking of a guild carries as wins the count of the user's
    wins on that server, and the row of a user in the ranking for a role
    carries as wins and total the counts of the user's wins and games in
    that role on that server. *)
Theorem ranking_rows_agree_with_counts
  (parse_numeric : string -> option Z) (decimal_div : Z -> Z -> Q)
  (users_games : list PostgresUserGame.t) (userID guildID : string)
  (gid role : Z) (r : PostgresPlayerRanking.t) :
  parse_numeric guildID = Some gid ->
  parse_numeric userID = Some (PostgresPlayerRanking.UserID r) ->
  let pool := Some users_games in
  (In r (TotalWinRankingForServer decimal_div pool gid) ->
   PostgresPlayerRanking.Win r = NumWinsOnServer parse_numeric pool userID guildID)
  /\ (In r (TotalWinRankingForServerByRole decimal_div pool gid role) ->
      PostgresPlayerRanking.Win r
      = NumWinsAsRoleOnServer parse_numeric pool userID guildID role
      /\ PostgresPlayerRanking.Total r
         = NumGamesAsRoleOnServer parse_numeric pool userID guildID role).
Proof.
  intros Hg Hu pool. subst pool.
  unfold TotalWinRankingForServer, TotalWinRankingForServerByRole,
    NumWinsOnServer, NumWinsAsRoleOnServer, NumGamesAsRoleOnServer.
  rewrite Hg, Hu. split.
  - intros Hin.
    destruct (win_ranking_query_facts decimal_div
                (fun u => PostgresUserGame.GuildID u =? gid) users_games)
      as (_ & _ & _ & Hrows & _).
    destruct (Hrows r Hin) as (_ & -> & _).
    apply count_where_ext. intros u _.
    destruct (PostgresUserGame.GuildID u =? gid),
      (PostgresUserGame.UserID u =? PostgresPlayerRanking.UserID r),
      (PostgresUserGame.PlayerWon u); reflexivity.
  - intros Hin.
    destruct (win_ranking_query_facts decimal_div
                (fun u => (PostgresUserGame.GuildID u =? gid)
                          && (PostgresUserGame.PlayerRole u =? role)) users_games)
      as (_ & _ & _ & Hrows & _).
    destruct (Hrows r Hin) as (-> & -> & _).
    split; apply count_where_ext; intros u _;
      destruct (PostgresUserGame.GuildID u =? gid),
        (PostgresUserGame.UserID u =? PostgresPlayerRanking.UserID r),
        (PostgresUserGame.PlayerRole u =? role),
        (PostgresUserGame.PlayerWon u); reflexivity.
Qed.

Lemma ranking_rows_agree_with_counts_witness :
  let r := PostgresPlayerRanking.mk 2 3 4
             (SampleStore.exact_div 3 4 * (100 # 1))%Q in
  let pool := Some SampleStore.users_games in
  SampleStore.parse_digit "9" = Some 9
  /\ SampleStore.parse_digit "2" = Some (PostgresPlayerRanking.UserID r)
  /\ In r (TotalWinRankingForServer SampleStore.exact_div pool 9)
  /\ PostgresPlayerRanking.Win r
     = NumWinsOnServer SampleStore.parse_digit pool "2" "9".
Proof.
  intros r pool.
  assert (Hg : SampleStore.parse_digit "9" = Some 9) by reflexivity.
  assert (Hu : SampleStore.parse_digit "2" = Some (PostgresPlayerRanking.UserID r))
    by reflexivity.
  assert (Hin : In r (TotalWinRankingForServer SampleStore.exact_div pool 9)).
  { vm_compute. left. reflexivity. }
  split; [exact Hg|]. split; [exact Hu|]. split; [exact Hin|].
  exact (proj1 (ranking_rows_agree_with_counts SampleStore.parse_digit
                  SampleStore.exact_div SampleStore.users_games "2" "9" 9 0 r Hg Hu)
           Hin).
Defined.

(** * Properties of the mode rankings *)

Lemma sort_by_map {A B : Type} (before : A -> A -> bool) (before' : B -> B -> bool)
  (f : A -> B) (l : list A) :
  (forall a b, before' (f a) (f b) = before a b) ->
  sort_by before' (map f l) = map f (sort_by before l).
Proof.
  intros Hf.
  assert (Hins : forall r l', insert_by before' (f r) (map f l')
                              = map f (insert_by before r l')).
  { intros r l'. induction l' as [|x l' IH]; cbn [map insert_by]; [reflexivity|].
    rewrite Hf. destruct (before r x); cbn [map]; [reflexivity | now rewrite IH]. }
  induction l as [|r l IH]; cbn [map sort_by]; [reflexivity|].
  now rewrite IH, Hins.
Qed.

Lemma scan_modes_some {K : Type} (l : list (Z * K)) :
  scan_modes (map (fun r => (fst r, Some (snd r))) l) = Some l.
Proof.
  induction l as [|[n m] l IH]; cbn [map scan_modes fst snd]; [reflexivity|].
  now rewrite IH.
Qed.

Section ModeFacts.

Variable K : Type.
Variable K_eq_dec : forall a b : K, {a = b} + {a <> b}.
Variable K_le : K -> K -> bool.

Lemma most_frequent_among (all candidates : list K) :
  candidates <> [] ->
  exists m, most_frequent K K_eq_dec all candidates = Some m /\ In m candidates.
Proof.
  induction candidates as [|c rest IH]; [congruence|]. intros _.
  cbn [most_frequent]. destruct rest as [|c' rest'].
  - exists c. split; [reflexivity | now left].
  - destruct IH as (m & -> & Hm); [discriminate|].
    destruct (count_occ K_eq_dec all m <=? count_occ K_eq_dec all c)%nat.
    + exists c. split; [reflexivity | now left].
    + exists m. split; [reflexivity | now right].
Qed.

(** In a group of rows that share the value of the column the mode is
    that value. *)
Lemma mode_of_constant (k : K) (values : list K) :
  values <> [] -> (forall v, In v values -> v = k) ->
  mode_of K K_eq_dec K_le values = Some k.
Proof.
  intros Hne Hall. unfold mode_of.
  pose proof (sort_by_perm K K_le values) as Hperm.
  destruct (most_frequent_among values (sort_by K_le values)) as (m & -> & Hm).
  - intros Hnil. rewrite Hnil in Hperm. apply Permutation_nil in Hperm. congruence.
  - f_equal. apply Hall. exact (Permutation_in _ Hperm Hm).
Qed.

Variable column : PostgresUserGame.t -> K.
Variable cond : PostgresUserGame.t -> bool.
Variable users_games : list PostgresUserGame.t.

Let same (a b : K) : bool := if K_eq_dec a b then true else false.

Let pairs : list (Z * K) :=
  sort_by (fun a b => fst b <=? fst a)
    (map (fun k => (count_where (fun u => cond u && same (column u) k) users_games, k))
       (nodup K_eq_dec (map column (filter cond users_games)))).

Lemma mode_ranking_query_pairs :
  mode_ranking_query K K_eq_dec K_le column cond users_games
  = map (fun r => (fst r, Some (snd r))) pairs.
Proof.
  unfold mode_ranking_query, pairs.
  rewrite <- (sort_by_map (fun a b : Z * K => fst b <=? fst a) (count_desc K)
                (fun r => (fst r, Some (snd r)))) by reflexivity.
  f_equal. rewrite map_map. apply map_ext_in. intros k Hk. cbn [fst snd].
  apply nodup_In, in_map_iff in Hk as (u & Hu & Hin).
  f_equal.
  - unfold count_where. f_equal. f_equal. rewrite filter_filter_and. reflexivity.
  - apply mode_of_constant.
    + assert (Hmem : In u (filter (fun x => if K_eq_dec (column x) k then true else false)
                             (filter cond users_games))).
      { apply filter_In. split; [exact Hin|].
        destruct (K_eq_dec (column u) k); [reflexivity | contradiction]. }
      intros Hnil. apply map_eq_nil in Hnil. rewrite Hnil in Hmem. destruct Hmem.
    + intros v Hv. apply in_map_iff in Hv as (x & <- & Hx).
      apply filter_In in Hx as [_ Hx].
      destruct (K_eq_dec (column x) k); [assumption | discriminate].
Qed.

Lemma pairs_facts : mode_ranking_of column same cond users_games pairs.
Proof.
  unfold mode_ranking_of.
  set (keys := nodup K_eq_dec (map column (filter cond users_games))).
  set (cnt := fun k => count_where (fun u => cond u && same (column u) k) users_games).
  assert (Hperm : Permutation pairs (map (fun k => (cnt k, k)) keys))
    by apply sort_by_perm.
  assert (Hsnd : map snd (map (fun k => (cnt k, k)) keys) = keys).
  { rewrite map_map. cbn. apply map_id. }
  assert (Hkeys : forall k, In k keys
                            <-> exists u, In u users_games /\ cond u = true
                                          /\ column u = k).
  { intros k. subst keys. rewrite nodup_In, in_map_iff. split.
    - intros (u & Hu & Hin). apply filter_In in Hin as [Hin Hc]. exists u. auto.
    - intros (u & Hin & Hc & Hu). exists u. split; [exact Hu|].
      apply filter_In. auto. }
  assert (Hsorted : StronglySorted (fun a b : Z * K => fst b <= fst a) pairs).
  { eapply StronglySorted_weaken; [|apply sort_by_sorted].
    - intros x y H. cbn in H. now apply Z.leb_le.
    - intros a b. rewrite !Z.leb_le. lia.
    - intros a b c. rewrite !Z.leb_le. lia. }
  assert (Hrow : forall r, In r pairs -> fst r = cnt (snd r) /\ In (snd r) keys).
  { intros r Hr. apply (Permutation_in _ Hperm), in_map_iff in Hr as (k & <- & Hk).
    cbn. auto. }
  assert (Hpos : forall k, In k keys -> 1 <= cnt k).
  { intros k Hk. apply Hkeys in Hk as (u & Hin & Hc & Hu).
    assert (Hmem : In u (filter (fun x => cond x && same (column x) k) users_games)).
    { apply filter_In. split; [exact Hin|]. rewrite Hc. subst same. cbn.
      destruct (K_eq_dec (column u) k); [reflexivity | contradiction]. }
    subst cnt. unfold count_where. cbn.
    pose proof (In_length_pos _ _ Hmem). lia. }
  split; [exact Hsorted|]. split; [|split; [|split; [|split]]].
  - eapply Permutation_NoDup; [apply Permutation_map; symmetry; exact Hperm|].
    rewrite Hsnd. apply NoDup_nodup.
  - intros k. rewrite <- Hkeys, <- Hsnd.
    split; apply Permutation_in; apply Permutation_map;
      [exact Hperm | symmetry; exact Hperm].
  - intros r Hr. destruct (Hrow r Hr) as [Hc Hk]. split; [exact Hc|].
    rewrite Hc. now apply Hpos.
  - intros first rest k Heq.
    destruct (in_dec K_eq_dec k keys) as [Hk | Hk].
    + assert (Hin : In (cnt k, k) pairs).
      { apply (Permutation_in _ (Permutation_sym Hperm)), in_map_iff.
        exists k. auto. }
      rewrite Heq in Hin, Hsorted. destruct Hin as [Hfirst | Hin]; [rewrite Hfirst; cbn; subst cnt; cbn; lia|].
      inversion Hsorted as [|? ? _ Hall]; subst.
      rewrite Forall_forall in Hall. exact (Hall _ Hin).
    + assert (Hzero : cnt k = 0).
      { subst cnt. unfold count_where. cbn.
        destruct (filter (fun u => cond u && same (column u) k) users_games)
          as [|u l] eqn:Hf; [reflexivity|].
        exfalso. apply Hk, Hkeys.
        assert (Hu : In u (filter (fun u => cond u && same (column u) k) users_games))
          by (rewrite Hf; now left).
        apply filter_In in Hu as [Hin Hc]. apply andb_true_iff in Hc as [Hc Hs].
        exists u. split; [exact Hin|]. split; [exact Hc|].
        subst same. cbn in Hs. destruct (K_eq_dec (column u) k); [assumption | discriminate]. }
      fold (cnt k). rewrite Hzero.
      assert (Hf : In first pairs) by (rewrite Heq; now left).
      destruct (Hrow first Hf) as [Hc Hkf]. rewrite Hc.
      pose proof (Hpos _ Hkf). lia.
  - rewrite (sum_perm fst _ _ Hperm), sum_map. cbn [fst].
    transitivity (Z.of_nat (List.length (filter cond users_games)));
      [|reflexivity].
    rewrite <- (groups_add_up K_eq_dec column (filter cond users_games) keys).
    + apply sum_ext_in. intros k _. subst cnt. unfold count_where. cbn.
      f_equal. f_equal. now rewrite filter_filter_and.
    + apply NoDup_nodup.
    + intros u Hu. subst keys. apply nodup_In. now apply in_map.
Qed.

(** The rows of the query scan, and what is scanned is a mode ranking. *)
Lemma mode_ranking_query_scans :
  exists ranking,
    scan_modes (mode_ranking_query K K_eq_dec K_le column cond users_games)
    = Some ranking
    /\ mode_ranking_of column same cond users_games ranking.
Proof.
  exists pairs. rewrite mode_ranking_query_pairs, scan_modes_some.
  split; [reflexivity | apply pairs_facts].
Qed.

End ModeFacts.

Lemma mode_ranking_of_ext {K : Type} (column : PostgresUserGame.t -> K)
  (same same' : K -> K -> bool) (cond : PostgresUserGame.t -> bool)
  (users_games : list PostgresUserGame.t) (ranking : list (Z * K)) :
  (forall a b, same a b = same' a b) ->
  mode_ranking_of column same cond users_games ranking ->
  mode_ranking_of column same' cond users_games ranking.
Proof.
  intros Hs (Hsorted & Hnodup & Hkeys & Hrows & Hfirst & Hsum).
  assert (Hcount : forall k,
             count_where (fun u => cond u && same' (column u) k) users_games
             = count_where (fun u => cond u && same (column u) k) users_games).
  { intros k. apply count_where_ext. intros u _. now rewrite Hs. }
  split; [exact Hsorted|]. split; [exact Hnodup|]. split; [exact Hkeys|].
  split; [|split; [|exact Hsum]].
  - intros r Hr. rewrite Hcount. now apply Hrows.
  - intros first rest k Heq. rewrite Hcount. now apply (Hfirst first rest).
Qed.

Lemma Z_eq_dec_eqb (a b : Z) : (if Z.eq_dec a b then true else false) = (a =? b).
Proof.
  destruct (Z.eq_dec a b) as [-> | Hne]; [now rewrite Z.eqb_refl|].
  symmetry. now apply Z.eqb_neq.
Qed.

Lemma string_dec_eqb (a b : string) :
  (if string_dec a b then true else false) = String.eqb a b.
Proof.
  destruct (string_dec a b) as [-> | Hne]; [now rewrite String.eqb_refl|].
  symmetry. now apply String.eqb_neq.
Qed.

(** The three mode rankings, as pairs of count and mode. *)
Lemma color_ranking_pairs (parse_numeric : string -> option Z)
  (users_games : list PostgresUserGame.t) (userID guildID : string) (uid gid : Z) :
  parse_numeric userID = Some uid -> parse_numeric guildID = Some gid ->
  mode_ranking_of PostgresUserGame.PlayerColor Z.eqb (of_user_on_server uid gid)
    users_games
    (map (fun r => (Int16ModeCount.Count r, Int16ModeCount.Mode r))
       (ColorRankingForPlayerOnServer parse_numeric (Some users_games) userID guildID)).
Proof.
  intros Hu Hg. unfold ColorRankingForPlayerOnServer. rewrite Hu, Hg.
  destruct (mode_ranking_query_scans Z Z.eq_dec Z.leb PostgresUserGame.PlayerColor
              (of_user_on_server uid gid) users_games) as (ranking & -> & Hfacts).
  rewrite map_map. cbn. rewrite map_ext with (g := fun r => r) by (now intros []).
  rewrite map_id. exact (mode_ranking_of_ext _ _ _ _ _ _ Z_eq_dec_eqb Hfacts).
Qed.

Lemma names_ranking_pairs (parse_numeric : string -> option Z)
  (name_le : string -> string -> bool)
  (users_games : list PostgresUserGame.t) (userID guildID : string) (uid gid : Z) :
  parse_numeric userID = Some uid -> parse_numeric guildID = Some gid ->
  mode_ranking_of PostgresUserGame.PlayerName String.eqb (of_user_on_server uid gid)
    users_games
    (map (fun r => (StringModeCount.Count r, StringModeCount.Mode r))
       (NamesRankingForPlayerOnServer parse_numeric name_le (Some users_games)
          userID guildID)).
Proof.
  intros Hu Hg. unfold NamesRankingForPlayerOnServer. rewrite Hu, Hg.
  destruct (mode_ranking_query_scans string string_dec name_le
              PostgresUserGame.PlayerName
              (of_user_on_server uid gid) users_games) as (ranking & -> & Hfacts).
  rewrite map_map. cbn. rewrite map_ext with (g := fun r => r) by (now intros []).
  rewrite map_id. exact (mode_ranking_of_ext _ _ _ _ _ _ string_dec_eqb Hfacts).
Qed.

Lemma games_ranking_pairs (users_games : list PostgresUserGame.t) (guildID : Z) :
  mode_ranking_of PostgresUserGame.UserID Z.eqb
    (fun u => PostgresUserGame.GuildID u =? guildID) users_games
    (map (fun r => (Uint64ModeCount.Count r, Uint64ModeCount.Mode r))
       (TotalGamesRankingForServer (Some users_games) guildID)).
Proof.
  unfold TotalGamesRankingForServer.
  destruct (mode_ranking_query_scans Z Z.eq_dec Z.leb PostgresUserGame.UserID
              (fun u => PostgresUserGame.GuildID u =? guildID) users_games)
    as (ranking & -> & Hfacts).
  rewrite map_map. cbn. rewrite map_ext with (g := fun r => r) by (now intros []).
  rewrite map_id. exact (mode_ranking_of_ext _ _ _ _ _ _ Z_eq_dec_eqb Hfacts).
Qed.

(** X21.  The colour ranking and the name ranking of a player on a server
    and the games ranking of a server list each value (colour, name, user)
    that occurs on the rows concerned exactly once, with the number of the
    rows that have it (at least 1), the higher counts first, so that no
    value is more frequent than the first one; the counts add up to the
    number of the rows concerned.  The scan of the modes never fails. *)
Theorem mode_rankings_count_each_value
  (parse_numeric : string -> option Z) (name_le : string -> string -> bool)
  (users_games : list PostgresUserGame.t) (userID guildID : string)
  (uid gid server : Z) :
  parse_numeric userID = Some uid ->
  parse_numeric guildID = Some gid ->
  let pool := Some users_games in
  mode_ranking_of PostgresUserGame.PlayerColor Z.eqb (of_user_on_server uid gid)
    users_games
    (map (fun r => (Int16ModeCount.Count r, Int16ModeCount.Mode r))
       (ColorRankingForPlayerOnServer parse_numeric pool userID guildID))
  /\ mode_ranking_of PostgresUserGame.PlayerName String.eqb
       (of_user_on_server uid gid) users_games
       (map (fun r => (StringModeCount.Count r, StringModeCount.Mode r))
          (NamesRankingForPlayerOnServer parse_numeric name_le pool userID guildID))
  /\ mode_ranking_of PostgresUserGame.UserID Z.eqb
       (fun u => PostgresUserGame.GuildID u =? server) users_games
       (map (fun r => (Uint64ModeCount.Count r, Uint64ModeCount.Mode r))
          (TotalGamesRankingForServer pool server)).
Proof.
  intros Hu Hg pool. subst pool.
  split; [now apply color_ranking_pairs|].
  split; [now apply names_ranking_pairs | apply games_ranking_pairs].
Qed.

Lemma mode_rankings_count_each_value_witness :
  SampleStore.parse_digit "1" = Some 1
  /\ SampleStore.parse_digit "9" = Some 9
  /\ mode_ranking_of PostgresUserGame.UserID Z.eqb
       (fun u => PostgresUserGame.GuildID u =? 9) SampleStore.users_games
       (map (fun r => (Uint64ModeCount.Count r, Uint64ModeCount.Mode r))
          (TotalGamesRankingForServer (Some SampleStore.users_games) 9)).
Proof.
  assert (Hu : SampleStore.parse_digit "1" = Some 1) by reflexivity.
  assert (Hg : SampleStore.parse_digit "9" = Some 9) by reflexivity.
  split; [exact Hu|]. split; [exact Hg|].
  exact (proj2 (proj2 (mode_rankings_count_each_value SampleStore.parse_digit
                         String.leb SampleStore.users_games "1" "9" 1 9 9 Hu Hg))).
Defined.

Lemma sum_counts_map {A : Type} (count : A -> Z) (pair : A -> Z * Z) (l : list A) :
  (forall r, fst (pair r) = count r) ->
  fold_right (fun r acc => count r + acc) 0 l
  = fold_right (fun r acc => fst r + acc) 0 (map pair l).
Proof.
  intros H. rewrite sum_map. apply sum_ext_in. intros r _. now rewrite H.
Qed.

(** X22.  The mode rankings and the counts agree, when [ParseInt] and the
    server convert the guild to the same number: the counts of the colour
    ranking of a player on a server add up to the player's number of games
    on that server; the row of a user in the games ranking of a server
    carries that user's number of games on the server, which is at most the
    count of the first row of the ranking; and a user has a row in the
    games ranking exactly when that number is at least 1. *)
Theorem mode_rankings_agree_with_counts
  (ParseInt : string -> Z) (parse_numeric : string -> option Z)
  (users_games : list PostgresUserGame.t) (userID guildID : string) (uid : Z) :
  parse_numeric userID = Some uid ->
  parse_numeric guildID = Some (ParseInt guildID) ->
  let pool := Some users_games in
  let played := NumGamesPlayedByUserOnServer ParseInt parse_numeric pool userID guildID in
  let games := TotalGamesRankingForServer pool (ParseInt guildID) in
  fold_right (fun r acc => Int16ModeCount.Count r + acc) 0
    (ColorRankingForPlayerOnServer parse_numeric pool userID guildID)
  = played
  /\ (forall r, In r games -> Uint64ModeCount.Mode r = uid ->
                Uint64ModeCount.Count r = played)
  /\ (forall first rest, games = first :: rest ->
                         played <= Uint64ModeCount.Count first)
  /\ (1 <= played <-> In uid (map Uint64ModeCount.Mode games)).
Proof.
  intros Hu Hg pool played games. subst pool played games.
  destruct (color_ranking_pairs parse_numeric users_games userID guildID uid
              (ParseInt guildID) Hu Hg) as (_ & _ & _ & _ & _ & Hsum).
  destruct (games_ranking_pairs users_games (ParseInt guildID))
    as (_ & _ & Hkeys & Hrows & Hfirst & _).
  unfold NumGamesPlayedByUserOnServer. rewrite Hu.
  assert (Hcount : forall k,
             count_where
               (fun u => (PostgresUserGame.GuildID u =? ParseInt guildID)
                         && (PostgresUserGame.UserID u =? k)) users_games
             = count_where
                 (fun u => (PostgresUserGame.UserID u =? k)
                           && (PostgresUserGame.GuildID u =? ParseInt guildID))
                 users_games).
  { intros k. apply count_where_ext. intros u _. apply andb_comm. }
  split; [|split; [|split]].
  - rewrite (sum_counts_map Int16ModeCount.Count
               (fun r => (Int16ModeCount.Count r, Int16ModeCount.Mode r)))
      by reflexivity.
    exact Hsum.
  - intros r Hr Hm.
    destruct (Hrows (Uint64ModeCount.Count r, Uint64ModeCount.Mode r)) as [Hc _].
    { apply in_map_iff. exists r. auto. }
    cbn [fst snd] in Hc. rewrite Hc, Hm. apply Hcount.
  - intros first rest Heq. rewrite <- Hcount.
    apply (Hfirst (Uint64ModeCount.Count first, Uint64ModeCount.Mode first)
             (map (fun r => (Uint64ModeCount.Count r, Uint64ModeCount.Mode r)) rest)).
    rewrite Heq. reflexivity.
  - rewrite map_map in Hkeys. cbn [snd] in Hkeys.
    rewrite (map_ext _ Uint64ModeCount.Mode) in Hkeys by reflexivity.
    rewrite Hkeys. unfold count_where. split.
    + intros Hpos.
      destruct (filter _ users_games) as [|u l] eqn:Hf; [cbn in Hpos; lia|].
      assert (Hin : In u (u :: l)) by now left.
      rewrite <- Hf in Hin. apply filter_In in Hin as [Hin Hc].
      apply andb_true_iff in Hc as [Hc1 Hc2].
      exists u. split; [exact Hin|]. split; [exact Hc2 | now apply Z.eqb_eq].
    + intros (u & Hin & Hc & Hk).
      apply Nat2Z.inj_le with (n := 1%nat), (In_length_pos u).
      apply filter_In. split; [exact Hin|]. rewrite Hc, Hk, Z.eqb_refl. reflexivity.
Qed.

Lemma mode_rankings_agree_with_counts_witness :
  let pool := Some SampleStore.users_games in
  SampleStore.parse_digit "1" = Some 1
  /\ SampleStore.parse_digit "9" = Some ((fun _ => 9) "9")
  /\ fold_right (fun r acc => Int16ModeCount.Count r + acc) 0
       (ColorRankingForPlayerOnServer SampleStore.parse_digit pool "1" "9")
     = NumGamesPlayedByUserOnServer (fun _ => 9) SampleStore.parse_digit pool "1" "9".
Proof.
  intros pool.
  assert (Hu : SampleStore.parse_digit "1" = Some 1) by reflexivity.
  assert (Hg : SampleStore.parse_digit "9" = Some ((fun _ : string => 9) "9"))
    by reflexivity.
  split; [exact Hu|]. split; [exact Hg|].
  exact (proj1 (mode_rankings_agree_with_counts (fun _ => 9) SampleStore.parse_digit
                  SampleStore.users_games "1" "9" 1 Hu Hg)).
Defined.

(** * Properties of the region names *)

Lemma region_name_cases (r : Region.t) :
  (r = Region.NA /\ Region.ToString r = "North America")
  \/ (r = Region.AS /\ Region.ToString r = "Asia")
  \/ (r = Region.EU /\ Region.ToString r = "Europe")
  \/ (r = Region.NAE /\ Region.ToString r = "NA (East)")
  \/ (r = Region.NAW /\ Region.ToString r = "NA (West)")
  \/ (~ 0 <= r <= 4 /\ Region.ToString r = "Unknown").
Proof.
  unfold Region.ToString, Region.NA, Region.AS, Region.EU, Region.NAE, Region.NAW.
  destruct (Z.eqb_spec r 0); [tauto|].
  destruct (Z.eqb_spec r 2); [tauto|].
  destruct (Z.eqb_spec r 1); [tauto|].
  destruct (Z.eqb_spec r 3); [tauto|].
  destruct (Z.eqb_spec r 4); [tauto|].
  do 5 right. split; [lia | reflexivity].
Qed.

(** X23.  The name of a region identifies it: the five regions have five
    different names, none of them ["Unknown"], and ["Unknown"] is the name
    of exactly the values that are no region. *)
Theorem region_names_identify_regions :
  (forall r, Region.ToString r = "Unknown" <-> ~ 0 <= r <= 4)
  /\ (forall r s, 0 <= r <= 4 -> Region.ToString r = Region.ToString s -> r = s).
Proof.
  split.
  - intros r.
    destruct (region_name_cases r)
      as [[-> H] | [[-> H] | [[-> H] | [[-> H] | [[-> H] | [Hr H]]]]]];
      rewrite H; split; intros H'; try discriminate H';
        try (exfalso; apply H'; cbv; split; discriminate); tauto.
  - intros r s Hr.
    destruct (region_name_cases r)
      as [[-> H] | [[-> H] | [[-> H] | [[-> H] | [[-> H] | [Hr' H]]]]]];
      [| | | | | contradiction];
      rewrite H;
      destruct (region_name_cases s)
        as [[-> K] | [[-> K] | [[-> K] | [[-> K] | [[-> K] | [Hs K]]]]]];
      rewrite K; intros E; try discriminate E; reflexivity.
Qed.
